(** * Well-record extraction and stimulation parsing (fields_extract.py)

    A shallow embedding of [src/fields_extract.py]: the API and well-number
    resolution, the coordinate parser, the text cleaners, the stimulation
    table parser and the well upsert, with the properties the specification
    states about them.

    Conventions of the embedding.
    - A Python [str] is a [string] whose characters are the code points
      U+0000..U+00FF (one [ascii] per code point, so the degree sign is the
      single character 176).  On that range the character classes of
      [re] and of the [str] methods are the finite tables given below.
    - A pattern is a term of [Re.regex]; [Re.search], [Re.rmatch] and
      [Re.sub] are a backtracking matcher with the priorities of [re].
    - A Python [float] is an IEEE-754 binary64 number, a [spec_float] at
      precision 53 and maximal exponent 1024; [float(s)] and [round(x, 7)]
      are correctly rounded.  A Python [int] is an unbounded integer;
      [int(s)] refuses a text of more than 4300 digits, as the
      interpreter does by default.
    - [None] is [None]; a function that can raise returns a [result].
    - A JSON object used as a dictionary and a table with a primary key are
      finite maps ([gmap]); a file name is a POSIX path.
    - A [while] loop over the lines of a page is a recursion on the lines
      still to read, under an iteration bound that is proved never to be
      reached. *)

From stdpp Require Import gmap strings list.
From Stdlib Require Import ZArith SpecFloat Ascii String Lia.

Open Scope string_scope.
Open Scope Z_scope.

(** ** Characters *)

Module Chars.

Definition code (c : ascii) : nat := nat_of_ascii c.

Definition between (lo hi : nat) (c : ascii) : bool :=
  (lo <=? code c)%nat && (code c <=? hi)%nat.

(** [str.isspace] and the class [\s] of a [str] pattern. *)
Definition is_space (c : ascii) : bool :=
  between 9 13 c || between 28 32 c || (code c =? 133)%nat || (code c =? 160)%nat.

(** The class [\d] of a [str] pattern (decimal digits). *)
Definition is_digit (c : ascii) : bool := between 48 57 c.

Definition is_upper (c : ascii) : bool := between 65 90 c.
Definition is_lower (c : ascii) : bool := between 97 122 c.

(** The class [[A-Za-z]]. *)
Definition is_alpha (c : ascii) : bool := is_upper c || is_lower c.

(** The class [\w] of a [str] pattern: alphanumeric or underscore. *)
Definition is_word (c : ascii) : bool :=
  is_alpha c || is_digit c || (code c =? 95)%nat
  || (code c =? 170)%nat || between 178 179 c || (code c =? 181)%nat
  || between 185 186 c || between 188 190 c
  || between 192 214 c || between 216 246 c || between 248 255 c.

Definition to_lower (c : ascii) : ascii :=
  if is_upper c then ascii_of_nat (code c + 32) else c.

Definition to_upper (c : ascii) : ascii :=
  if is_lower c then ascii_of_nat (code c - 32) else c.

Definition eqc (a b : ascii) : bool := Ascii.eqb a b.

(** Equality up to ASCII case, as [re.I] compares a literal letter. *)
Definition eqc_i (a b : ascii) : bool := Ascii.eqb (to_lower a) (to_lower b).

Definition newline : ascii := "010"%char.
Definition degree : ascii := "176"%char.
Definition nbsp : ascii := "160"%char.

End Chars.

Import Chars.

(** ** Strings *)

Module Str.

Fixpoint all (p : ascii -> bool) (s : string) : bool :=
  match s with
  | EmptyString => true
  | String c s' => p c && all p s'
  end.

Fixpoint any (p : ascii -> bool) (s : string) : bool :=
  match s with
  | EmptyString => false
  | String c s' => p c || any p s'
  end.

Fixpoint filter (p : ascii -> bool) (s : string) : string :=
  match s with
  | EmptyString => EmptyString
  | String c s' => if p c then String c (filter p s') else filter p s'
  end.

Fixpoint map (f : ascii -> ascii) (s : string) : string :=
  match s with
  | EmptyString => EmptyString
  | String c s' => String (f c) (map f s')
  end.

Fixpoint take (n : nat) (s : string) : string :=
  match n, s with
  | S n', String c s' => String c (take n' s')
  | _, _ => EmptyString
  end.

Fixpoint drop (n : nat) (s : string) : string :=
  match n, s with
  | S n', String c s' => drop n' s'
  | _, _ => s
  end.

(** The slice [s[i:j]]. *)
Definition slice (i j : nat) (s : string) : string := take (j - i) (drop i s).

Fixpoint rev_onto (s acc : string) : string :=
  match s with
  | EmptyString => acc
  | String c s' => rev_onto s' (String c acc)
  end.

Definition rev (s : string) : string := rev_onto s EmptyString.

Fixpoint lstrip (s : string) : string :=
  match s with
  | String c s' => if is_space c then lstrip s' else s
  | EmptyString => EmptyString
  end.

Definition rstrip (s : string) : string := rev (lstrip (rev s)).

(** [str.strip()]. *)
Definition strip (s : string) : string := rstrip (lstrip s).

(** Truth value of a string: non-empty. *)
Definition truthy (s : string) : bool :=
  match s with EmptyString => false | _ => true end.

Fixpoint last (s : string) : option ascii :=
  match s with
  | EmptyString => None
  | String c EmptyString => Some c
  | String _ s' => last s'
  end.

(** [s.endswith(c)] for a one-character suffix. *)
Definition endswith (c : ascii) (s : string) : bool :=
  match last s with Some d => eqc c d | None => false end.

Fixpoint contains (needle s : string) : bool :=
  String.prefix needle s ||
  match s with
  | EmptyString => false
  | String _ s' => contains needle s'
  end.

(** [sep.join(parts)]. *)
Fixpoint join (sep : string) (parts : list string) : string :=
  match parts with
  | [] => EmptyString
  | [p] => p
  | p :: ps => p ++ sep ++ join sep ps
  end.

(** [str.replace(c, '')] for a one-character pattern. *)
Definition remove (c : ascii) (s : string) : string :=
  filter (fun d => negb (eqc c d)) s.

End Str.

(** ** Errors *)

(** The exceptions the modelled code can raise, and [LoopBound], which is
    no Python exception: it marks a loop that used up its iteration
    bound. *)
Inductive exn := ValueError | OverflowError | LoopBound.

Inductive result (A : Type) :=
| Ok (a : A)
| Raise (e : exn).
Arguments Ok {A} a.
Arguments Raise {A} e.

#[global] Instance result_ret : MRet result := fun _ a => Ok a.
#[global] Instance result_bind : MBind result := fun _ _ f r =>
  match r with Ok a => f a | Raise e => Raise e end.

(** Python's [a or b] on optional strings: the first truthy operand, else
    the last one. *)
Definition is_truthy (o : option string) : bool :=
  match o with Some s => Str.truthy s | None => false end.

Definition por (a b : option string) : option string :=
  if is_truthy a then a else b.

(** ** Regular expressions

    A backtracking matcher with the priorities of Python's [re]: the
    alternatives of [|] are tried left to right, a greedy repetition tries
    one more iteration before it tries to stop, a lazy one the other way
    round, and the first complete match is the result.  No loop body of the
    patterns of this program matches the empty string; an optional
    iteration that consumes nothing is not taken. *)

Module Re.

Inductive regex :=
| Eps
| Chr (p : ascii -> bool)
| Seq (a b : regex)
| Alt (a b : regex)
| Rep (greedy : bool) (lo : nat) (hi : option nat) (a : regex)
| Grp (n : nat) (a : regex)
| Bol (multiline : bool)
| Eol (multiline : bool)
| WordB.

(** A position in the subject: the character before it, the text from it
    on, and the groups captured so far (latest first). *)
Record mstate := MState {
  prev : option ascii;
  rest : string;
  caps : list (nat * string)
}.

Definition consumed (st st1 : mstate) : string :=
  Str.take (String.length (rest st) - String.length (rest st1)) (rest st).

Definition advanced (st st1 : mstate) : bool :=
  (String.length (rest st1) <? String.length (rest st))%nat.

Definition at_bol (multiline : bool) (st : mstate) : bool :=
  match prev st with
  | None => true
  | Some c => multiline && eqc c newline
  end.

Definition at_eol (multiline : bool) (st : mstate) : bool :=
  match rest st with
  | EmptyString => true
  | String c EmptyString => eqc c newline
  | String c _ => multiline && eqc c newline
  end.

Definition word_of (o : option ascii) : bool :=
  match o with Some c => is_word c | None => false end.

Definition next (st : mstate) : option ascii :=
  match rest st with String c _ => Some c | EmptyString => None end.

Definition at_wordb (st : mstate) : bool :=
  xorb (word_of (prev st)) (word_of (next st)).

Section Engine.
Context {R : Type}.

Fixpoint rep_must (one : mstate -> (mstate -> option R) -> option R)
    (n : nat) (st : mstate) (k : mstate -> option R) : option R :=
  match n with
  | O => k st
  | S n' => one st (fun st1 => rep_must one n' st1 k)
  end.

Fixpoint rep_may (one : mstate -> (mstate -> option R) -> option R)
    (greedy : bool) (n : nat) (st : mstate) (k : mstate -> option R)
    : option R :=
  match n with
  | O => k st
  | S n' =>
    if greedy then
      match one st (fun st1 =>
              if advanced st st1 then rep_may one greedy n' st1 k else None) with
      | Some x => Some x
      | None => k st
      end
    else
      match k st with
      | Some x => Some x
      | None => one st (fun st1 =>
                  if advanced st st1 then rep_may one greedy n' st1 k else None)
      end
  end.

Fixpoint run (r : regex) (st : mstate) (k : mstate -> option R)
    {struct r} : option R :=
  match r with
  | Eps => k st
  | Chr p =>
    match rest st with
    | String c s' => if p c then k (MState (Some c) s' (caps st)) else None
    | EmptyString => None
    end
  | Seq a b => run a st (fun st1 => run b st1 k)
  | Alt a b =>
    match run a st k with
    | Some x => Some x
    | None => run b st k
    end
  | Rep greedy lo hi a =>
    rep_must (run a) lo st (fun st1 =>
      rep_may (run a) greedy
        (match hi with
         | Some h => h - lo
         | None => String.length (rest st1)
         end)%nat st1 k)
  | Grp n a =>
    run a st (fun st1 =>
      k (MState (prev st1) (rest st1) ((n, consumed st st1) :: caps st1)))
  | Bol m => if at_bol m st then k st else None
  | Eol m => if at_eol m st then k st else None
  | WordB => if at_wordb st then k st else None
  end.
End Engine.

(** One attempt at a fixed position.  With [must_advance] an empty match
    is refused (and the matcher backtracks into longer alternatives). *)
Definition attempt (r : regex) (must_advance : bool) (p : option ascii)
    (s : string) : option mstate :=
  let st := MState p s [] in
  run r st (fun st1 =>
    if must_advance && negb (advanced st st1) then None else Some st1).

(** A match object: [m.start()], [m.group(0)] and the numbered groups. *)
Record matched := Matched {
  m_start : nat;
  m_text : string;
  m_caps : list (nat * string)
}.

Fixpoint lookup_cap (n : nat) (l : list (nat * string)) : option string :=
  match l with
  | [] => None
  | (i, s) :: l' => if (i =? n)%nat then Some s else lookup_cap n l'
  end.

(** [m.group(n)] for [n >= 1]: [None] when the group took no part. *)
Definition group (n : nat) (m : matched) : option string :=
  lookup_cap n (m_caps m).

(** [m.group(n)] where the text is needed; a group that took no part
    reads as the empty text. *)
Definition group_text (n : nat) (m : matched) : string :=
  default EmptyString (group n m).

Definition mk_matched (pos : nat) (p : option ascii) (s : string)
    (st1 : mstate) : matched :=
  Matched pos (consumed (MState p s []) st1) (caps st1).

(** [pattern.match(s)]. *)
Definition rmatch (r : regex) (s : string) : option matched :=
  match attempt r false None s with
  | Some st1 => Some (mk_matched 0 None s st1)
  | None => None
  end.

Fixpoint search_from (r : regex) (p : option ascii) (s : string)
    (pos : nat) : option matched :=
  match attempt r false p s with
  | Some st1 => Some (mk_matched pos p s st1)
  | None =>
    match s with
    | String c s' => search_from r (Some c) s' (S pos)
    | EmptyString => None
    end
  end.

(** [pattern.search(s)]: the leftmost match. *)
Definition search (r : regex) (s : string) : option matched :=
  search_from r None s 0.

Definition found (r : regex) (s : string) : bool :=
  match search r s with Some _ => true | None => false end.

(** [pattern.sub(f, s)]: every non-overlapping match, left to right, is
    replaced by [f m].  [skip] counts the characters of the last match
    still to pass over; an empty match is followed by one more attempt
    at the same position that must advance. *)
Fixpoint sub_loop (r : regex) (f : matched -> string) (p : option ascii)
    (s : string) (pos skip : nat) : string :=
  match skip with
  | S k =>
    match s with
    | String c s' => sub_loop r f (Some c) s' (S pos) k
    | EmptyString => EmptyString
    end
  | O =>
    match attempt r false p s with
    | Some st1 =>
      let m := mk_matched pos p s st1 in
      match String.length (m_text m) with
      | S k =>
        f m ++ match s with
               | String c s' => sub_loop r f (Some c) s' (S pos) k
               | EmptyString => EmptyString
               end
      | O =>
        f m ++
        match attempt r true p s with
        | Some st2 =>
          let m2 := mk_matched pos p s st2 in
          f m2 ++ match s with
                  | String c s' =>
                    sub_loop r f (Some c) s' (S pos)
                      (String.length (m_text m2) - 1)
                  | EmptyString => EmptyString
                  end
        | None =>
          match s with
          | String c s' => String c (sub_loop r f (Some c) s' (S pos) 0)
          | EmptyString => EmptyString
          end
        end
      end
    | None =>
      match s with
      | String c s' => String c (sub_loop r f (Some c) s' (S pos) 0)
      | EmptyString => EmptyString
      end
    end
  end.

Definition sub_with (r : regex) (f : matched -> string) (s : string) : string :=
  sub_loop r f None s 0 0.

(** [re.sub(pattern, repl, s)] for a replacement text without group
    references. *)
Definition sub (r : regex) (repl : string) (s : string) : string :=
  sub_with r (fun _ => repl) s.

(** [pattern.split(s)[0]]: the text before the first match. *)
Definition split_head (r : regex) (s : string) : string :=
  match search r s with
  | Some m => Str.take (m_start m) s
  | None => s
  end.

(** *** Pattern combinators *)

Definition lit_with (eq : ascii -> ascii -> bool) : string -> regex :=
  fix go (s : string) : regex :=
    match s with
    | EmptyString => Eps
    | String c EmptyString => Chr (eq c)
    | String c s' => Seq (Chr (eq c)) (go s')
    end.

(** A literal text, and a literal text under [re.I]. *)
Definition lit : string -> regex := lit_with eqc.
Definition liti : string -> regex := lit_with eqc_i.

Definition chr (c : ascii) : regex := Chr (eqc c).
Definition star (a : regex) : regex := Rep true 0 None a.
Definition plus (a : regex) : regex := Rep true 1 None a.
Definition opt (a : regex) : regex := Rep true 0 (Some 1%nat) a.
Definition rep (lo hi : nat) (a : regex) : regex := Rep true lo (Some hi) a.
Definition rep_lazy (lo hi : nat) (a : regex) : regex := Rep false lo (Some hi) a.
Definition plus_lazy (a : regex) : regex := Rep false 1 None a.
Definition at_least (lo : nat) (a : regex) : regex := Rep true lo None a.

(** Character classes. *)
Definition space : regex := Chr is_space.            (* \s *)
Definition nonspace : regex := Chr (fun c => negb (is_space c)).  (* \S *)
Definition digit : regex := Chr is_digit.            (* \d *)
Definition alpha : regex := Chr is_alpha.            (* [A-Za-z] *)
Definition dot : regex := Chr (fun c => negb (eqc c newline)).  (* . *)
Definition one_of (cs : string) : regex := Chr (fun c => Str.any (eqc c) cs).
Definition none_of (cs : string) : regex :=
  Chr (fun c => negb (Str.any (eqc c) cs)).

End Re.

Declare Scope re_scope.
Delimit Scope re_scope with re.
Bind Scope re_scope with Re.regex.
Infix ">>" := Re.Seq (at level 60, right associativity) : re_scope.
Infix "</>" := Re.Alt (at level 65, right associativity) : re_scope.

(** ** Numbers *)

Module Num.

(** Binary64. *)
Definition prec : Z := 53.
Definition emax : Z := 1024.

Abbreviation float := spec_float.

Definition of_Z (n : Z) : float := binary_normalize prec emax n 0 false.
Definition add : float -> float -> float := SFadd prec emax.
Definition div : float -> float -> float := SFdiv prec emax.
Definition opp : float -> float := SFopp.
Definition leb : float -> float -> bool := SFleb.

(** [lo <= x <= hi] for integer bounds. *)
Definition within (lo hi : Z) (x : float) : bool :=
  leb (of_Z lo) x && leb x (of_Z hi).

(** The correctly rounded quotient of two positive integers (they need
    not fit the format themselves). *)
Definition of_ratio (neg : bool) (n d : positive) : float :=
  SFdiv prec emax (S754_finite neg n 0) (S754_finite false d 0).

Definition digit_val (c : ascii) : Z := Z.of_nat (code c) - 48.

Fixpoint digits_val (acc : Z) (s : string) : Z :=
  match s with
  | EmptyString => acc
  | String c s' => digits_val (10 * acc + digit_val c) s'
  end.

(** The interpreter's limit on the digits of a text that [int] converts
    ([sys.get_int_max_str_digits()], 4300 unless it is configured
    otherwise). *)
Definition max_str_digits : nat := 4300.

(** [int(s)] for a text of decimal digits, which is all the call sites
    pass; any other text is reported as [ValueError], and so is a text of
    more than [max_str_digits] digits, its leading zeros counted. *)
Definition int_of (s : string) : result Z :=
  if Str.truthy s && Str.all is_digit s
     && (String.length s <=? max_str_digits)%nat
  then Ok (digits_val 0 s)
  else Raise ValueError.

Definition pow10 (k : nat) : positive := Nat.iter k (Pos.mul 10) 1%positive.

(** Splits [s] at its first full stop. *)
Fixpoint split_dot (s : string) : string * option string :=
  match s with
  | EmptyString => (EmptyString, None)
  | String c s' =>
    if eqc c "." then (EmptyString, Some s')
    else let '(a, b) := split_dot s' in (String c a, b)
  end.

(** [float(s)] for a text of decimal digits with at most one full stop,
    which is all the call sites pass: the binary64 number nearest to the
    decimal number, ties to even.  Any other text (no digit at all, a
    second full stop, another character) is reported as [ValueError]. *)
Definition float_of (s : string) : result float :=
  let '(ip, fo) := split_dot s in
  let fp := default EmptyString fo in
  if Str.all is_digit ip && Str.all is_digit fp
     && (Str.truthy ip || Str.truthy fp) then
    match digits_val 0 (ip ++ fp) with
    | Zpos n => Ok (of_ratio false n (pow10 (String.length fp)))
    | _ => Ok (S754_zero false)
    end
  else Raise ValueError.

(** Nearest integer to [n / d], ties to even ([d > 0]). *)
Definition round_half_even (n d : Z) : Z :=
  let q := n / d in
  let r := n mod d in
  match 2 * r ?= d with
  | Lt => q
  | Gt => q + 1
  | Eq => if Z.even q then q else q + 1
  end.

(** [round(x, 7)]: the decimal expansion of [x] is rounded to seven
    places, ties to even, and the decimal is read back as a binary64
    number.  Infinities, NaN and zeros are returned as they are. *)
Definition round7 (x : float) : float :=
  match x with
  | S754_finite s m e =>
    let q :=
      if 0 <=? e then Zpos m * 2 ^ e * 10 ^ 7
      else round_half_even (Zpos m * 10 ^ 7) (2 ^ (- e)) in
    match q with
    | Zpos n => of_ratio s n (pow10 7)
    | _ => S754_zero s
    end
  | _ => x
  end.

End Num.

(** ** The pattern tables of the module

    Each pattern is given with its source text.  The patterns compiled
    with [re.I] use [liti] for their literal texts; their character
    classes already list both cases. *)

Import Re.
Open Scope re_scope.

Definition colon_or_space : regex := Chr (fun c => eqc c ":" || is_space c).

(** [[0-9][\d\s\-]{8,19}] and [[0-9][\d\-]{8,18}] *)
Definition api_digits_sp : regex :=
  digit >> rep 8 19 (Chr (fun c => is_digit c || is_space c || eqc c "-")).
Definition api_digits : regex :=
  digit >> rep 8 18 (Chr (fun c => is_digit c || eqc c "-")).

(** [API\s*[#Nn][Oo\.]*\s*[:\s]+([0-9][\d\s\-]{8,19})],
    [API\s*:\s*([0-9][\d\s\-]{8,19})],
    [\bAPI\b\s*([0-9][\d\-]{8,18})], all with [re.I]. *)
Definition _API_PATS : list regex :=
  [ liti "API" >> star space >> one_of "#Nn" >> star (one_of "Oo.")
      >> star space >> plus colon_or_space >> Grp 1 api_digits_sp;
    liti "API" >> star space >> chr ":" >> star space >> Grp 1 api_digits_sp;
    WordB >> liti "API" >> WordB >> star space >> Grp 1 api_digits ].

(** [NDIC\s+File\s+Number\s*:\s*(\d+)],
    [ND\s+Well\s+File\s*#\s*[:\s]+(\d+)],
    [Well\s+File\s+No\.?\s*[:\s]+(\d+)],
    [Well\s+or\s+Facility\s+No\.?\s*[:\s]+(\d+)], all with [re.I]. *)
Definition _WNUM_PATS : list regex :=
  [ liti "NDIC" >> plus space >> liti "File" >> plus space >> liti "Number"
      >> star space >> chr ":" >> star space >> Grp 1 (plus digit);
    liti "ND" >> plus space >> liti "Well" >> plus space >> liti "File"
      >> star space >> chr "#" >> star space >> plus colon_or_space
      >> Grp 1 (plus digit);
    liti "Well" >> plus space >> liti "File" >> plus space >> liti "No"
      >> opt (chr ".") >> star space >> plus colon_or_space
      >> Grp 1 (plus digit);
    liti "Well" >> plus space >> liti "or" >> plus space >> liti "Facility"
      >> plus space >> liti "No" >> opt (chr ".") >> star space
      >> plus colon_or_space >> Grp 1 (plus digit) ].

Definition to_eol : regex := plus (none_of (String newline "")).  (* [^\n]+ *)

(** [Well\s+Operator\s*:\s*([^\n]+)] with [re.I],
    [^Operator\s*:\s*([^\n]+)] with [re.I | re.M]. *)
Definition _OP_PATS : list regex :=
  [ liti "Well" >> plus space >> liti "Operator" >> star space >> chr ":"
      >> star space >> Grp 1 to_eol;
    Bol true >> liti "Operator" >> star space >> chr ":" >> star space
      >> Grp 1 to_eol ].

Definition alpha_sp : regex := Chr (fun c => is_alpha c || eqc c " ").

(** [^County\s*:\s*([A-Za-z ]+?)$] with [re.I | re.M],
    [County,\s*State\s*:\s*([A-Za-z ]+?)\s+County] with [re.I]. *)
Definition _CO_PATS : list regex :=
  [ Bol true >> liti "County" >> star space >> chr ":" >> star space
      >> Grp 1 (plus_lazy alpha_sp) >> Eol true;
    liti "County," >> star space >> liti "State" >> star space >> chr ":"
      >> star space >> Grp 1 (plus_lazy alpha_sp) >> plus space
      >> liti "County" ].

(** [Well\s+Surface\s+Hole\s+Location\s*\(SHL\)\s*:\s*([^\n]+)],
    [Surface\s+(?:Hole\s+)?Location\s*:\s*([^\n]+)],
    [\bSHL\s*:\s*([^\n]+)], all with [re.I]. *)
Definition _SHL_PATS : list regex :=
  [ liti "Well" >> plus space >> liti "Surface" >> plus space >> liti "Hole"
      >> plus space >> liti "Location" >> star space >> liti "(SHL)"
      >> star space >> chr ":" >> star space >> Grp 1 to_eol;
    liti "Surface" >> plus space >> opt (liti "Hole" >> plus space)
      >> liti "Location" >> star space >> chr ":" >> star space
      >> Grp 1 to_eol;
    WordB >> liti "SHL" >> star space >> chr ":" >> star space
      >> Grp 1 to_eol ].

Definition digit_or_dot : regex := Chr (fun c => is_digit c || eqc c ".").
Definition digit_or_comma : regex := Chr (fun c => is_digit c || eqc c ",").

(** [\d{1,n}°\s*\d{1,2}'\s*[\d.]+\s*[hH]] *)
Definition dms_text (n : nat) (hemi : string) : regex :=
  rep 1 n digit >> chr degree >> star space >> rep 1 2 digit >> chr "'"
    >> star space >> plus digit_or_dot >> star space >> one_of hemi.

(** [\d{1,3}\.\d+] *)
Definition decimal_text : regex := rep 1 3 digit >> chr "." >> plus digit.

(** [Lat(?:itude)?\s*[:\s]+(\d{1,2}°\s*\d{1,2}'\s*[\d.]+\s*[Nn])],
    [Lat(?:itude)?\s*[:\s]+(\d{1,3}\.\d+)], both with [re.I]. *)
Definition _LAT_PATS : list regex :=
  [ liti "Lat" >> opt (liti "itude") >> star space >> plus colon_or_space
      >> Grp 1 (dms_text 2 "Nn");
    liti "Lat" >> opt (liti "itude") >> star space >> plus colon_or_space
      >> Grp 1 decimal_text ].

(** [Lon(?:gitude)?\s*[:\s]+(\d{1,3}°\s*\d{1,2}'\s*[\d.]+\s*[Ww])],
    [Lon(?:gitude)?\s*[:\s]+(\d{1,3}\.\d+)], both with [re.I]. *)
Definition _LON_PATS : list regex :=
  [ liti "Lon" >> opt (liti "gitude") >> star space >> plus colon_or_space
      >> Grp 1 (dms_text 3 "Ww");
    liti "Lon" >> opt (liti "gitude") >> star space >> plus colon_or_space
      >> Grp 1 decimal_text ].

(** [Datum\s*:\s*([^\n:]{2,30})], [(NAD\s*\d+|WGS\s*\d+)], both with
    [re.I]. *)
Definition _DATUM_PATS : list regex :=
  [ liti "Datum" >> star space >> chr ":" >> star space
      >> Grp 1 (rep 2 30 (none_of (String newline ":")));
    Grp 1 ((liti "NAD" >> star space >> plus digit)
           </> (liti "WGS" >> star space >> plus digit)) ].

(** [(\d{1,3})\s*°\s*(\d{1,2})'\s*([\d.]+)\s*([NSEWnsew])] *)
Definition _DMS : regex :=
  Grp 1 (rep 1 3 digit) >> star space >> chr degree >> star space
    >> Grp 2 (rep 1 2 digit) >> chr "'" >> star space
    >> Grp 3 (plus digit_or_dot) >> star space >> Grp 4 (one_of "NSEWnsew").

(** [Date\s+Stimulat], [Type\s+Treatment] with [re.I];
    [^Details\s*$] with [re.I | re.M]. *)
Definition _STIM_HDR : regex := liti "Date" >> plus space >> liti "Stimulat".
Definition _TREAT_HDR : regex := liti "Type" >> plus space >> liti "Treatment".
Definition _DETAILS : regex :=
  Bol true >> liti "Details" >> star space >> Eol true.

(** [[A-Za-z][A-Za-z ]{1,30}?] *)
Definition label : regex := alpha >> rep_lazy 1 30 alpha_sp.

(** [(\d{1,2}/\d{1,2}/\d{4})\s+([A-Za-z][A-Za-z ]{1,30}?)\s+(\d+)\s+(\d+)\s+(\d+)\s+([\d,]+)\s+([A-Za-z]+)] *)
Definition _STIM_ROW : regex :=
  Grp 1 (rep 1 2 digit >> chr "/" >> rep 1 2 digit >> chr "/" >> rep 4 4 digit)
    >> plus space >> Grp 2 label
    >> plus space >> Grp 3 (plus digit)
    >> plus space >> Grp 4 (plus digit)
    >> plus space >> Grp 5 (plus digit)
    >> plus space >> Grp 6 (plus digit_or_comma)
    >> plus space >> Grp 7 (plus alpha).

(** [^([A-Za-z][A-Za-z ]{1,30}?)\s+([\d,]+)\s+([\d,]+)(?:\s+([\d.]+))?(?:\s+([\d.]+))?]
    with [re.M]. *)
Definition _TREAT_ROW : regex :=
  Bol true >> Grp 1 label
    >> plus space >> Grp 2 (plus digit_or_comma)
    >> plus space >> Grp 3 (plus digit_or_comma)
    >> opt (plus space >> Grp 4 (plus digit_or_dot))
    >> opt (plus space >> Grp 5 (plus digit_or_dot)).

(** The patterns of the well-name cleaner, all with [re.I]:
    [[\s\u00a0]+], [\s+API\s*:.*$], [\s+Well\s+File\s+No\.?:?.*$],
    [\s+(?:Directional\s+Drillers|Field|Pad\s+OD|Company\s+Man)(?:\s*:|)\s*\S.*$]
    and
    [(?:^|^.{0,5})(Location|Field\s*/\s*Prospect|Directional\s+Drillers|Mud\s+Record)\s*:?$]. *)
Definition _NAME_WS : regex := plus (Chr (fun c => is_space c || eqc c nbsp)).
Definition _NAME_API : regex :=
  plus space >> liti "API" >> star space >> chr ":" >> star dot >> Eol false.
Definition _NAME_FILE_NO : regex :=
  plus space >> liti "Well" >> plus space >> liti "File" >> plus space
    >> liti "No" >> opt (chr ".") >> opt (chr ":") >> star dot >> Eol false.
Definition _NAME_TRAILER : regex :=
  plus space
    >> ((liti "Directional" >> plus space >> liti "Drillers")
        </> liti "Field"
        </> (liti "Pad" >> plus space >> liti "OD")
        </> (liti "Company" >> plus space >> liti "Man"))
    >> ((star space >> chr ":") </> Eps)
    >> star space >> nonspace >> star dot >> Eol false.
Definition _JUNK_NAME : regex :=
  (Bol false </> (Bol false >> rep 0 5 dot))
    >> Grp 1 (liti "Location"
              </> (liti "Field" >> star space >> chr "/" >> star space
                   >> liti "Prospect")
              </> (liti "Directional" >> plus space >> liti "Drillers")
              </> (liti "Mud" >> plus space >> liti "Record"))
    >> star space >> opt (chr ":") >> Eol false.

(** The patterns of the operator cleaner:
    [\s+(?:Kick-off|Rig|API|Telephone|Well\s+Name|Job\s+Type|Enseco)\s*[#:]]
    and
    [^(?:Kick-off|Rig\b|Job\s+Type|Enseco|Well\s+Name|Telephone)\s*[#:\d]]
    with [re.I]; [\s{3,}], [\s+], [^[a-z]\s+] and [^([a-z])([A-Z])]
    without flags; [^(?:Well|Lease|Field|County|State|None)$] with [re.I]. *)
Definition _OP_STOP : regex :=
  plus space
    >> (liti "Kick-off" </> liti "Rig" </> liti "API" </> liti "Telephone"
        </> (liti "Well" >> plus space >> liti "Name")
        </> (liti "Job" >> plus space >> liti "Type")
        </> liti "Enseco")
    >> star space >> one_of "#:".
Definition _OP_JUNK_START : regex :=
  Bol false
    >> (liti "Kick-off" </> (liti "Rig" >> WordB)
        </> (liti "Job" >> plus space >> liti "Type")
        </> liti "Enseco"
        </> (liti "Well" >> plus space >> liti "Name")
        </> liti "Telephone")
    >> star space >> Chr (fun c => eqc c "#" || eqc c ":" || is_digit c).
Definition _WIDE_GAP : regex := at_least 3 space.
Definition _WS : regex := plus space.
Definition _STRAY_LOWER : regex := Bol false >> Chr is_lower >> plus space.
Definition _MERGED_LOWER : regex :=
  Bol false >> Grp 1 (Chr is_lower) >> Grp 2 (Chr is_upper).
Definition _NOT_OPERATOR : regex :=
  Bol false
    >> (liti "Well" </> liti "Lease" </> liti "Field" </> liti "County"
        </> liti "State" </> liti "None")
    >> Eol false.

(** The patterns of the county cleaner, without flags:
    [\s*(?:State|Section|Township|Directional|:)] and [^[A-Za-z ]{2,30}$]. *)
Definition _COUNTY_STOP : regex :=
  star space
    >> (lit "State" </> lit "Section" </> lit "Township"
        </> lit "Directional" </> lit ":").
Definition _COUNTY_SHAPE : regex := Bol false >> rep 2 30 alpha_sp >> Eol false.

(** The patterns of the datum cleaner, all with [re.I]:
    [North\s+American\s+Datum\s+1983], [North\s+American\s+Datum\s+1927],
    [\d.*(?:ft|usft|RKB|WELL|@)], [^((?:NAD|WGS|NAO)\s*\d{2,4})], [NAO],
    [NAD|WGS|North\s+American|GRS|NAVD] and [[()@\\]]. *)
Definition _NA_DATUM (year : string) : regex :=
  liti "North" >> plus space >> liti "American" >> plus space
    >> liti "Datum" >> plus space >> lit year.
Definition _DATUM_UNITS : regex :=
  digit >> star dot
    >> (liti "ft" </> liti "usft" </> liti "RKB" </> liti "WELL" </> chr "@").
Definition _DATUM_CODE : regex :=
  Bol false
    >> Grp 1 ((liti "NAD" </> liti "WGS" </> liti "NAO") >> star space
              >> rep 2 4 digit).
Definition _NAO : regex := liti "NAO".
Definition _DATUM_WORD : regex :=
  liti "NAD" </> liti "WGS"
    </> (liti "North" >> plus space >> liti "American")
    </> liti "GRS" </> liti "NAVD".
Definition _DATUM_NOISE : regex := one_of "()@\".

(** [\s+] and [[^\d]] of the API and well-number normalizers, and
    [[A-Za-z]]. *)
Definition _NON_DIGIT : regex := Chr (fun c => negb (is_digit c)).
Definition _LETTER : regex := alpha.

Close Scope re_scope.

(** ** More of [str] and [pathlib] *)

Module Py.

(** [str.isdigit()]: non-empty, every character a digit (the decimal
    digits and the superscripts one, two, three). *)
Definition isdigit (s : string) : bool :=
  Str.truthy s
  && Str.all (fun c => is_digit c || between 178 179 c || (code c =? 185)%nat) s.

(** The line boundaries of [str.splitlines()]. *)
Definition is_linebreak (c : ascii) : bool :=
  between 10 13 c || between 28 30 c || (code c =? 133)%nat.

Fixpoint lines_from (s : string) (cur : string) : list string :=
  match s with
  | EmptyString => if Str.truthy cur then [Str.rev cur] else []
  | String c s' =>
    if is_linebreak c then
      Str.rev cur ::
        match s' with
        | String d s'' =>
          if eqc c "013" && eqc d "010" then lines_from s'' EmptyString
          else lines_from s' EmptyString
        | EmptyString => lines_from s' EmptyString
        end
    else lines_from s' (String c cur)
  end.

(** [str.splitlines()]. *)
Definition splitlines (s : string) : list string := lines_from s EmptyString.

(** [str.title()].  A character is cased when it is a letter with a case;
    the sharp s has the two-letter title form; the two letters whose
    capital lies beyond U+00FF (micro sign, y with diaeresis) are kept. *)
Definition is_cased (c : ascii) : bool :=
  is_alpha c || (code c =? 170)%nat || (code c =? 181)%nat || (code c =? 186)%nat
  || between 192 214 c || between 216 246 c || between 248 255 c.

Definition lower_char (c : ascii) : ascii :=
  if is_upper c || between 192 214 c || between 216 222 c
  then ascii_of_nat (code c + 32) else c.

Definition title_char (c : ascii) : string :=
  if is_lower c || between 224 246 c || between 248 254 c
  then String (ascii_of_nat (code c - 32)) EmptyString
  else if (code c =? 223)%nat then "Ss"
  else String c EmptyString.

Fixpoint title_from (previous_is_cased : bool) (s : string) : string :=
  match s with
  | EmptyString => EmptyString
  | String c s' =>
    (if previous_is_cased then String (lower_char c) EmptyString
     else title_char c) ++ title_from (is_cased c) s'
  end.

Definition title (s : string) : string := title_from false s.

(** [str.upper()] on the letters a to z. *)
Definition upper (s : string) : string := Str.map to_upper s.

(** The components of a POSIX path: split at [/], empty and [.] parts
    dropped. *)
Fixpoint parts_from (s : string) (cur : string) : list string :=
  let close (cur : string) : list string :=
    let part := Str.rev cur in
    if Str.truthy part && negb (String.eqb part ".") then [part] else [] in
  match s with
  | EmptyString => close cur
  | String c s' =>
    if eqc c "/" then (close cur ++ parts_from s' EmptyString)%list
    else parts_from s' (String c cur)
  end.

(** [Path(p).name]. *)
Definition path_name (p : string) : string :=
  List.last (parts_from p EmptyString) EmptyString.

(** Index of the last full stop of [s], counted from the left. *)
Fixpoint rfind_dot (s : string) (i : nat) : option nat :=
  match s with
  | EmptyString => None
  | String c s' =>
    match rfind_dot s' (S i) with
    | Some j => Some j
    | None => if eqc c "." then Some i else None
    end
  end.

(** [Path(p).stem]: the name without its last suffix; a leading or a
    trailing full stop starts no suffix. *)
Definition path_stem (p : string) : string :=
  let name := path_name p in
  match rfind_dot name 0 with
  | Some i =>
    if (0 <? i)%nat && (i <? String.length name - 1)%nat
    then Str.take i name else name
  | None => name
  end.

End Py.

(** ** The data model *)

(** One page of an input document; an absent key reads as its default
    ([''] for the text, [{}] for the fields). *)
Record page := Page {
  page_text : string;
  page_fields : gmap string string
}.

(** An input document; an absent key reads as its default. *)
Record doc := Doc {
  doc_pdf_filename : string;
  doc_well_name : string;
  doc_pages : list page
}.

(** A row of [wells]: the dictionary [extract_well_row] returns and the
    row the table stores.  [None] is [None] and SQL [NULL]. *)
Record well := Well {
  api_number : string;
  well_name : option string;
  well_number : option string;
  operator : option string;
  county : option string;
  state : option string;
  shl_desc : option string;
  latitude : option Num.float;
  longitude : option Num.float;
  datum : option string;
  pdf_filename : option string
}.

(** A record of [parse_stimulation]. *)
Record stim := Stim {
  date_stimulated : string;
  formation : string;
  top_ft : option Num.float;
  bottom_ft : option Num.float;
  stages : Z;
  volume : option Num.float;
  volume_units : string;
  treatment_type : option string;
  acid_percent : option Num.float;
  lbs_proppant : option Num.float;
  max_pressure : option Num.float;
  max_rate : option Num.float;
  details : option string
}.

(** A row of [stimulation]; the rows are kept in insertion order, which
    is the order of their [stimulation_id]. *)
Record stimulation_row := StimRow {
  stim_api_number : string;
  stim_rec : stim
}.

(** The database: [wells] keyed by its primary key, and [stimulation]. *)
Record db := Db {
  wells : gmap string well;
  stimulation : list stimulation_row
}.

(** ** collect_page_data and _search *)

Definition collect_page_data (pages : list page)
    : gmap string string * list string :=
  foldl (fun '(merged_fields, all_texts) p =>
           (page_fields p ∪ merged_fields,
            if Str.truthy (Str.strip (page_text p))
            then (all_texts ++ [page_text p])%list else all_texts))
        (∅, []) pages.

(** The inner loop of [_search]: the patterns in order on one text.
    Group 1 takes part in every match of the patterns of the tables. *)
Fixpoint search_text (patterns : list regex) (text : string) : option string :=
  match patterns with
  | [] => None
  | pat :: pats =>
    match Re.search pat text with
    | Some m =>
      let val := Str.strip (Re.sub _WS " " (group_text 1 m)) in
      if Str.truthy val then Some val else search_text pats text
    | None => search_text pats text
    end
  end.

Fixpoint _search (patterns : list regex) (texts : list string) : option string :=
  match texts with
  | [] => None
  | text :: texts' =>
    match search_text patterns text with
    | Some val => Some val
    | None => _search patterns texts'
    end
  end.

(** ** _dms_to_decimal and _normalize_api *)

Definition _dms_to_decimal (dms_str : string) : result (option Num.float) :=
  match Re.rmatch _DMS (Str.strip dms_str) with
  | None => Ok None
  | Some m =>
    deg ← Num.float_of (group_text 1 m);
    mins ← Num.float_of (group_text 2 m);
    secs ← Num.float_of (group_text 3 m);
    let direction := group_text 4 m in
    let dd := Num.add (Num.add deg (Num.div mins (Num.of_Z 60)))
                      (Num.div secs (Num.of_Z 3600)) in
    let dd := if String.eqb (Py.upper direction) "S"
                 || String.eqb (Py.upper direction) "W"
              then Num.opp dd else dd in
    Ok (Some (Num.round7 dd))
  end.

Definition dashed (parts : list string) : string := Str.join "-" parts.

Definition _normalize_api (raw : string) : option string :=
  let candidate := Str.strip (Re.sub _WS "" raw) in
  if Re.found _LETTER candidate then None
  else
    let digits := Re.sub _NON_DIGIT "" raw in
    let n := String.length digits in
    if (n <? 8)%nat then None
    else if (n =? 14)%nat then
      Some (dashed [Str.slice 0 2 digits; Str.slice 2 5 digits;
                    Str.slice 5 10 digits; Str.slice 10 12 digits;
                    Str.drop 12 digits])
    else if (n =? 10)%nat then
      Some (dashed [Str.slice 0 2 digits; Str.slice 2 5 digits;
                    Str.slice 5 10 digits])
    else Some candidate.

(** ** extract_well_row *)

(** Lazy [a or b] where both sides may raise. *)
Definition por_m (a b : result (option string)) : result (option string) :=
  x ← a; if is_truthy x then Ok x else b.

(** The nested [_valid_well_num]: the digits of [val] when their value
    lies in [1000, 199999]. *)
Definition _valid_well_num (val : option string) : result (option string) :=
  if negb (is_truthy val) then Ok None
  else
    let digits := Re.sub _NON_DIGIT "" (default EmptyString val) in
    if Py.isdigit digits then
      n ← Num.int_of digits;
      Ok (if (1000 <=? n) && (n <=? 199999) then Some digits else None)
    else Ok None.

(** The well number: the field labels in order, then the pattern search,
    then the digits of the stem of the file name. *)
Definition resolve_well_number (merged_fields : gmap string string)
    (all_texts : list string) (pdf : string) : result string :=
  well_number ←
    por_m (_valid_well_num (merged_fields !! "NDIC File Number"))
      (por_m (_valid_well_num (merged_fields !! "ND Well File #"))
        (por_m (_valid_well_num (merged_fields !! "Well or Facility No"))
          (_valid_well_num (_search _WNUM_PATS all_texts))));
  Ok (if negb (is_truthy well_number)
      then Re.sub _NON_DIGIT "" (Py.path_stem pdf)
      else default EmptyString well_number).

(** [raw_api] and [api]: the field labels in order, then the pattern
    search; a falsy candidate is not normalized. *)
Definition resolve_api (merged_fields : gmap string string)
    (all_texts : list string) : option string :=
  let raw_api :=
    por (merged_fields !! "API #")
      (por (merged_fields !! "API Number")
        (por (merged_fields !! "API") (_search _API_PATS all_texts))) in
  if is_truthy raw_api then _normalize_api (default EmptyString raw_api)
  else None.

(** [api_key = api if api else f'NDIC-{well_number}' if well_number else 'UNKNOWN'] *)
Definition api_key_of (api : option string) (well_number : string) : string :=
  if is_truthy api then default EmptyString api
  else if Str.truthy well_number then "NDIC-" ++ well_number
  else "UNKNOWN".

(** [re.sub('^[a-z]\s+', '', s)] followed by
    [re.sub('^([a-z])([A-Z])', lambda m: m.group(1).upper() + m.group(2), s)]. *)
Definition repair_case (s : string) : string :=
  Re.sub_with _MERGED_LOWER
    (fun m => Py.upper (group_text 1 m) ++ group_text 2 m)
    (Re.sub _STRAY_LOWER "" s).

(** [_OP_JUNK_START.match(val.strip())] *)
Definition junk_start (val : string) : bool :=
  match Re.rmatch _OP_JUNK_START (Str.strip val) with
  | Some _ => true
  | None => false
  end.

(** [re.match('^(?:Well|Lease|Field|County|State|None)$', s, re.I)] *)
Definition not_operator (s : string) : bool :=
  match Re.rmatch _NOT_OPERATOR s with Some _ => true | None => false end.

(** One field value of the scan of [_first_valid_operator]: the cleaned
    operator, or [None] where the loop continues. *)
Definition operator_of_field (val : string) : option string :=
  if negb (Str.truthy val) then None
  else if junk_start val then None
  else
    let cleaned := Re.split_head _OP_STOP val in
    let cleaned := Re.split_head _WIDE_GAP cleaned in
    let cleaned := Str.strip (Re.sub _WS " " cleaned) in
    let cleaned := repair_case cleaned in
    if Str.truthy cleaned && negb (Str.endswith ":" cleaned)
       && (5 <=? String.length cleaned)%nat
    then if not_operator cleaned then None else Some cleaned
    else None.

(** The loop over the pages and over the keys [Well Operator],
    [Operator]. *)
Fixpoint operator_of_pages (pages : list page) : option string :=
  match pages with
  | [] => None
  | p :: pages' =>
    let flds := page_fields p in
    match operator_of_field (default EmptyString (flds !! "Well Operator")) with
    | Some v => Some v
    | None =>
      match operator_of_field (default EmptyString (flds !! "Operator")) with
      | Some v => Some v
      | None => operator_of_pages pages'
      end
    end
  end.

(** The nested [_first_valid_operator]: the field scan, then the pattern
    search under the same rejection rules. *)
Definition _first_valid_operator (pages : list page) (all_texts : list string)
    : option string :=
  match operator_of_pages pages with
  | Some v => Some v
  | None =>
    match _search _OP_PATS all_texts with
    | Some val =>
      if Str.truthy val && negb (Str.endswith ":" val) && negb (junk_start val)
      then
        let val := repair_case val in
        if (5 <=? String.length val)%nat && negb (not_operator val)
        then Some val else None
      else None
    | None => None
    end
  end.

(** The [if county:] block: cut at the first boundary keyword, collapse
    whitespace, title-case, and keep only a text of the county shape. *)
Definition clean_county (county : option string) : option string :=
  if is_truthy county then
    let c := Re.split_head _COUNTY_STOP (default EmptyString county) in
    let c := Py.title (Str.strip (Re.sub _WS " " c)) in
    match Re.rmatch _COUNTY_SHAPE c with
    | Some _ => Some c
    | None => None
    end
  else county.

(** The nested [_to_coord]; only the [float(s)] branch catches
    [ValueError]. *)
Definition _to_coord (s : option string) : result (option Num.float) :=
  match s with
  | None => Ok None
  | Some s =>
    if negb (Str.truthy s) then Ok None
    else if Str.any (eqc degree) s then _dms_to_decimal s
    else match Num.float_of s with
         | Ok x => Ok (Some x)
         | Raise _ => Ok None
         end
  end.

(** [if latitude is not None and (not 45.0 <= latitude <= 50.0): latitude = None] *)
Definition latitude_band (latitude : option Num.float) : option Num.float :=
  match latitude with
  | Some x =>
    if negb (Num.within 45 50 x) then None else Some x
  | None => None
  end.

(** [if longitude is not None: if 96.0 <= longitude <= 105.0: longitude = -longitude
    elif not -105.0 <= longitude <= -96.0: longitude = None] *)
Definition longitude_band (longitude : option Num.float) : option Num.float :=
  match longitude with
  | Some x =>
    if Num.within 96 105 x then Some (Num.opp x)
    else if negb (Num.within (-105) (-96) x) then None
    else Some x
  | None => None
  end.

(** The nested [_clean_datum]. *)
Definition _clean_datum (d : option string) : option string :=
  if negb (is_truthy d) then None
  else
    let d := Str.strip (Re.sub _WS " " (default EmptyString d)) in
    if Re.found (_NA_DATUM "1983") d then Some "NAD83"
    else if Re.found (_NA_DATUM "1927") d then Some "NAD27"
    else if Re.found _DATUM_UNITS d then None
    else
      match Re.rmatch _DATUM_CODE (Str.strip d) with
      | Some m => Some (Re.sub _NAO "NAD" (Str.strip (group_text 1 m)))
      | None =>
        if Re.found _DATUM_WORD d
           && (String.length d <=? 25)%nat && negb (Re.found _DATUM_NOISE d)
        then Some d else None
      end.

(** The cleaning of [data.get('well_name', '')]: whitespace collapsed,
    trailing metadata cut, a label-only residue replaced by ['']. *)
Definition clean_well_name (well_name : string) : string :=
  let well_name := Str.strip (Re.sub _NAME_WS " " well_name) in
  let well_name := Re.sub _NAME_API "" well_name in
  let well_name := Re.sub _NAME_FILE_NO "" well_name in
  let well_name := Re.sub _NAME_TRAILER "" well_name in
  let well_name := Str.strip well_name in
  if Str.endswith ":" well_name
     || match Re.rmatch _JUNK_NAME well_name with Some _ => true | None => false end
  then EmptyString else well_name.

Definition extract_well_row (data : doc) : result well :=
  let pages := doc_pages data in
  let '(merged_fields, all_texts) := collect_page_data pages in
  let api := resolve_api merged_fields all_texts in
  well_number ← resolve_well_number merged_fields all_texts (doc_pdf_filename data);
  let api_key := api_key_of api well_number in
  let operator := _first_valid_operator pages all_texts in
  let county :=
    clean_county (por (merged_fields !! "County") (_search _CO_PATS all_texts)) in
  let shl :=
    por (merged_fields !! "Well Surface Hole Location (SHL)")
      (por (merged_fields !! "Surface Location")
        (por (merged_fields !! "SHL") (_search _SHL_PATS all_texts))) in
  let lat_field_val := default EmptyString (merged_fields !! "Latitude") in
  let lat_s := _search _LAT_PATS (lat_field_val :: all_texts) in
  let lon_s := _search _LON_PATS (lat_field_val :: all_texts) in
  latitude ← _to_coord lat_s;
  longitude ← _to_coord lon_s;
  let latitude := latitude_band latitude in
  let longitude := longitude_band longitude in
  let datum_raw :=
    por (merged_fields !! "Datum")
        (_search _DATUM_PATS (lat_field_val :: all_texts)) in
  let datum := _clean_datum datum_raw in
  let well_name := clean_well_name (doc_well_name data) in
  Ok {| api_number := api_key;
        well_name := Some well_name;
        well_number := Some well_number;
        operator := operator;
        county := county;
        state := Some "ND";
        shl_desc := shl;
        latitude := latitude;
        longitude := longitude;
        datum := datum;
        pdf_filename := Some (doc_pdf_filename data) |}.

(** ** parse_stimulation *)

(** [_to_float]: [float(s.replace(',', ''))], [None] on [ValueError]. *)
Definition _to_float (s : option string) : option Num.float :=
  match s with
  | None => None
  | Some s =>
    if negb (Str.truthy s) then None
    else match Num.float_of (Str.remove "," s) with
         | Ok x => Some x
         | Raise _ => None
         end
  end.

(** [not line.strip()] *)
Definition is_blank (line : string) : bool := negb (Str.truthy (Str.strip line)).

(** [while i < n and (not lines[i].strip() or _STIM_HDR.search(lines[i])): i += 1] *)
Fixpoint skip_blank_or_header (lines : list string) : list string :=
  match lines with
  | l :: lines' =>
    if is_blank l || Re.found _STIM_HDR l then skip_blank_or_header lines'
    else lines
  | [] => []
  end.

(** [while i < n and (not lines[i].strip()): i += 1] *)
Fixpoint skip_blank (lines : list string) : list string :=
  match lines with
  | l :: lines' => if is_blank l then skip_blank lines' else lines
  | [] => []
  end.

(** The draft record of a matched data row. *)
Definition draft (sm : matched) : result stim :=
  n ← Num.int_of (group_text 5 sm);
  Ok {| date_stimulated := group_text 1 sm;
        formation := Str.strip (group_text 2 sm);
        top_ft := _to_float (group 3 sm);
        bottom_ft := _to_float (group 4 sm);
        stages := n;
        volume := _to_float (group 6 sm);
        volume_units := group_text 7 sm;
        treatment_type := None;
        acid_percent := None;
        lbs_proppant := None;
        max_pressure := None;
        max_rate := None;
        details := None |}.

Definition set_treatment (rec : stim) (ty : option string)
    (acid lbs pressure rate : option Num.float) : stim :=
  {| date_stimulated := date_stimulated rec;
     formation := formation rec;
     top_ft := top_ft rec;
     bottom_ft := bottom_ft rec;
     stages := stages rec;
     volume := volume rec;
     volume_units := volume_units rec;
     treatment_type := ty;
     acid_percent := acid;
     lbs_proppant := lbs;
     max_pressure := pressure;
     max_rate := rate;
     details := details rec |}.

Definition set_details (rec : stim) (d : option string) : stim :=
  {| date_stimulated := date_stimulated rec;
     formation := formation rec;
     top_ft := top_ft rec;
     bottom_ft := bottom_ft rec;
     stages := stages rec;
     volume := volume rec;
     volume_units := volume_units rec;
     treatment_type := treatment_type rec;
     acid_percent := acid_percent rec;
     lbs_proppant := lbs_proppant rec;
     max_pressure := max_pressure rec;
     max_rate := max_rate rec;
     details := d |}.

(** [nums] and [non_none] of a matched treatment row. *)
Definition treatment_nums (tm : matched) : list (option Num.float) :=
  List.map (fun g => _to_float (group g tm)) [2; 3; 4; 5]%nat.

Definition non_none (nums : list (option Num.float)) : list Num.float :=
  omap id nums.

(** The assignments made for a matched treatment row. *)
Definition apply_treatment (rec : stim) (tm : matched) : stim :=
  let ty := Some (Str.strip (group_text 1 tm)) in
  match non_none (treatment_nums tm) with
  | [a; b; c; d] => set_treatment rec ty (Some a) (Some b) (Some c) (Some d)
  | [a; b; c] => set_treatment rec ty (acid_percent rec) (Some a) (Some b) (Some c)
  | a :: _ =>
    set_treatment rec ty (acid_percent rec) (Some a) (max_pressure rec) (max_rate rec)
  | [] =>
    set_treatment rec ty (acid_percent rec) (lbs_proppant rec)
      (max_pressure rec) (max_rate rec)
  end.

(** The line after a treatment header and its blank lines. *)
Definition treatment_line (rec : stim) (line : string) : stim :=
  match Re.rmatch _TREAT_ROW (Str.strip line) with
  | Some tm => apply_treatment rec tm
  | None => rec
  end.

(** The inner [while i < n] loop that fills one record.  It returns the
    record, the detail lines and the lines not yet consumed.  [fuel]
    bounds the iterations; the loop leaves with [LoopBound] only when the
    bound is used up. *)
Fixpoint body (fuel : nat) (lines : list string) (rec : stim)
    (detail_parts : list string) (in_details : bool)
    : result (stim * list string * list string) :=
  match fuel with
  | O => Raise LoopBound
  | S fuel' =>
    match lines with
    | [] => Ok (rec, detail_parts, [])
    | ln :: lines' =>
      if Re.found _STIM_HDR ln then Ok (rec, detail_parts, lines)
      else if Re.found _TREAT_HDR ln then
        match skip_blank lines' with
        | [] => body fuel' [] rec detail_parts in_details
        | tl :: lines'' =>
          body fuel' lines'' (treatment_line rec tl) detail_parts in_details
        end
      else if Re.found _DETAILS ln then body fuel' lines' rec detail_parts true
      else
        body fuel' lines' rec
          (if in_details && Str.truthy (Str.strip ln)
           then (detail_parts ++ [Str.strip ln])%list else detail_parts)
          in_details
    end
  end.

Definition finish (rec : stim) (detail_parts : list string) : stim :=
  match detail_parts with
  | [] => rec
  | _ => set_details rec (Some (Str.join (String newline "") detail_parts))
  end.

(** The outer [while i < n] loop. *)
Fixpoint scan (fuel : nat) (lines : list string) (records : list stim)
    : result (list stim) :=
  match fuel with
  | O => Raise LoopBound
  | S fuel' =>
    match lines with
    | [] => Ok records
    | line :: lines' =>
      if negb (Re.found _STIM_HDR line) then scan fuel' lines' records
      else
        match skip_blank_or_header lines' with
        | [] => Ok records
        | data_line :: lines'' =>
          match Re.search _STIM_ROW data_line with
          | None => scan fuel' lines'' records
          | Some sm =>
            rec ← draft sm;
            '(rec, detail_parts, lines3) ← body fuel' lines'' rec [] false;
            scan fuel' lines3 (records ++ [finish rec detail_parts])%list
          end
        end
    end
  end.

Definition parse_lines (lines : list string) : result (list stim) :=
  scan (S (List.length lines)) lines [].

Definition parse_stimulation (page_text : string) : result (list stim) :=
  parse_lines (Py.splitlines page_text).

(** ** process_json *)

Definition coalesce {A : Type} (a b : option A) : option A :=
  match a with Some _ => a | None => b end.

(** SQL [LENGTH] of a text: the characters before the first NUL. *)
Fixpoint sql_length (s : string) : nat :=
  match s with
  | EmptyString => O
  | String c s' => if (code c =? 0)%nat then O else S (sql_length s')
  end.

(** [CASE WHEN LENGTH(excluded.well_name) > LENGTH(COALESCE(wells.well_name,''))
    THEN excluded.well_name ELSE wells.well_name END]; the comparison
    with a [NULL] length is not true. *)
Definition longer_name (stored excluded : option string) : option string :=
  match excluded with
  | Some new =>
    if (sql_length (default EmptyString stored) <? sql_length new)%nat
    then excluded else stored
  | None => stored
  end.

(** The [DO UPDATE SET] clause: the columns it does not name keep the
    stored value. *)
Definition on_conflict (stored excluded : well) : well :=
  {| api_number := api_number stored;
     well_name := longer_name (well_name stored) (well_name excluded);
     well_number := coalesce (well_number stored) (well_number excluded);
     operator := coalesce (operator stored) (operator excluded);
     county := coalesce (county stored) (county excluded);
     state := state stored;
     shl_desc := coalesce (shl_desc stored) (shl_desc excluded);
     latitude := coalesce (latitude stored) (latitude excluded);
     longitude := coalesce (longitude stored) (longitude excluded);
     datum := coalesce (datum stored) (datum excluded);
     pdf_filename := pdf_filename stored |}.

(** [INSERT INTO wells ... ON CONFLICT(api_number) DO UPDATE SET ...] *)
Definition upsert_well (w : well) (tbl : gmap string well) : gmap string well :=
  match tbl !! api_number w with
  | Some stored => <[api_number w := on_conflict stored w]> tbl
  | None => <[api_number w := w]> tbl
  end.

(** [INSERT INTO stimulation ...]: an integer beyond 64 bits cannot be
    bound. *)
Definition insert_stimulation (api_key : string) (rec : stim)
    (rows : list stimulation_row) : result (list stimulation_row) :=
  if (- 2 ^ 63 <=? stages rec) && (stages rec <? 2 ^ 63)
  then Ok (rows ++ [StimRow api_key rec])%list
  else Raise OverflowError.

Fixpoint insert_all (api_key : string) (recs : list stim)
    (rows : list stimulation_row) : result (list stimulation_row) :=
  match recs with
  | [] => Ok rows
  | rec :: recs' =>
    rows' ← insert_stimulation api_key rec rows;
    insert_all api_key recs' rows'
  end.

Fixpoint insert_pages (api_key : string) (pages : list page)
    (rows : list stimulation_row) : result (list stimulation_row) :=
  match pages with
  | [] => Ok rows
  | p :: pages' =>
    let text := page_text p in
    if negb (Str.truthy text) || negb (Str.contains "Date Stimulat" text)
    then insert_pages api_key pages' rows
    else
      recs ← parse_stimulation text;
      rows' ← insert_all api_key recs rows;
      insert_pages api_key pages' rows'
  end.

Definition process_json (data : doc) (conn : db) : result db :=
  well ← extract_well_row data;
  let api_key := api_number well in
  let wells' := upsert_well well (wells conn) in
  rows ← insert_pages api_key (doc_pages data) (stimulation conn);
  Ok (Db wells' rows).

(** ** create_tables and main *)

(** The database file between two runs: a table may not exist yet. *)
Record store := Store {
  wells_table : option (gmap string well);
  stimulation_table : option (list stimulation_row)
}.

(** [create_tables]: [CREATE TABLE IF NOT EXISTS] for both tables, then
    the commit; a table that exists is kept with its rows.  The result is
    the state of the connection [process_json] works on. *)
Definition create_tables (file : store) : db :=
  Db (default ∅ (wells_table file)) (default [] (stimulation_table file)).

(** [conn.commit()]: the tables of the connection become the file. *)
Definition commit (conn : db) : store :=
  Store (Some (wells conn)) (Some (stimulation conn)).

(** [for path in json_files: process_json(path, conn)], on the documents
    of the paths in their sorted order; an exception leaves the loop. *)
Fixpoint process_all (json_files : list doc) (conn : db) : result db :=
  match json_files with
  | [] => Ok conn
  | data :: json_files' =>
    conn' ← process_json data conn;
    process_all json_files' conn'
  end.

(** How a run of [main] ends: with the message that there are no files,
    with the two row counts it prints, or with the exception that leaves
    it. *)
Inductive report :=
| NoFiles
| Done (w_count s_count : nat)
| Failed (e : exn).

(** [main], from the documents of the sorted paths and the database file
    to the file the run leaves and its report.  The only commit after
    [create_tables] follows the loop, so an exception leaves the file as
    [create_tables] committed it. *)
Definition main (json_files : list doc) (file : store) : store * report :=
  match json_files with
  | [] => (file, NoFiles)
  | _ =>
    let conn := create_tables file in
    match process_all json_files conn with
    | Ok conn' =>
      (commit conn', Done (size (wells conn')) (List.length (stimulation conn')))
    | Raise e => (commit conn, Failed e)
    end
  end.

(** * Vocabulary of the properties *)

(** ** The merge policy *)

(** The incoming name is present and strictly longer, by SQL [LENGTH],
    than the stored one (a stored [NULL] counts as the empty text). *)
Definition strictly_longer (excluded stored : option string) : Prop :=
  exists new, excluded = Some new
    /\ (sql_length (default EmptyString stored) < sql_length new)%nat.

(** Keep the stored value unless it is null, then take the incoming one. *)
Definition keeps_or_takes {A : Type} (stored excluded merged : option A) : Prop :=
  match stored with
  | Some _ => merged = stored
  | None => merged = excluded
  end.

Definition no_nul (s : string) : bool :=
  Str.all (fun c => negb (code c =? 0)%nat) s.

(** A stored row with null columns and an incoming record for the same
    key. *)
Definition acme_stored : well :=
  {| api_number := "33-105-02729"; well_name := Some "WELL A";
     well_number := Some "20197"; operator := Some "Acme Oil";
     county := None; state := None; shl_desc := None;
     latitude := None; longitude := None; datum := None;
     pdf_filename := None |}.

Definition acme_incoming : well :=
  {| api_number := "33-105-02729"; well_name := Some "WELL A UNIT 2";
     well_number := Some "20197"; operator := None;
     county := Some "Williams"; state := Some "ND"; shl_desc := None;
     latitude := None; longitude := None; datum := Some "NAD83";
     pdf_filename := Some "W20197.pdf" |}.

Definition acme_table : gmap string well :=
  {[ "33-105-02729" := acme_stored ]}.

(** ** Coordinates *)




(** ** API normalization *)

Definition nonspace_c (c : ascii) : bool := negb (is_space c).

(** The raw text with every whitespace character removed, and its
    digits. *)
Definition stripped (raw : string) : string := Str.filter nonspace_c raw.
Definition digits_of (raw : string) : string := Str.filter is_digit raw.

(** The dashed forms [D[0:2]-D[2:5]-D[5:10]] and
    [D[0:2]-D[2:5]-D[5:10]-D[10:12]-D[12:14]]. *)
Definition canonical3 (D : string) : string :=
  Str.slice 0 2 D ++ "-" ++ Str.slice 2 5 D ++ "-" ++ Str.slice 5 10 D.

Definition canonical5 (D : string) : string :=
  Str.slice 0 2 D ++ "-" ++ Str.slice 2 5 D ++ "-" ++ Str.slice 5 10 D
    ++ "-" ++ Str.slice 10 12 D ++ "-" ++ Str.slice 12 14 D.

(** The longest prefix of [s] in the class [p] is passed over. *)
Fixpoint eat (p : ascii -> bool) (prev : option ascii) (s : string)
    : option ascii * string :=
  match s with
  | String c s' => if p c then eat p (Some c) s' else (prev, s)
  | EmptyString => (prev, s)
  end.

(** ** The meaning of a pattern

    [sem r st st']: the pattern [r] can match from the position [st] to
    the position [st'], with the captures recorded. *)

Fixpoint iter (n : nat) (step : mstate -> mstate -> Prop) (st st' : mstate) : Prop :=
  match n with
  | O => st' = st
  | S n' => exists st1, step st st1 /\ iter n' step st1 st'
  end.

Fixpoint sem (r : regex) (st st' : mstate) {struct r} : Prop :=
  match r with
  | Eps => st' = st
  | Chr p =>
    exists c, rest st = String c (rest st') /\ p c = true
      /\ prev st' = Some c /\ caps st' = caps st
  | Seq a b => exists st1, sem a st st1 /\ sem b st1 st'
  | Alt a b => sem a st st' \/ sem b st st'
  | Rep _ lo _ a => exists n, (lo <= n)%nat /\ iter n (sem a) st st'
  | Grp n a =>
    exists st1, sem a st st1
      /\ st' = MState (prev st1) (rest st1) ((n, consumed st st1) :: caps st1)
  | Bol m => st' = st /\ at_bol m st = true
  | Eol m => st' = st /\ at_eol m st = true
  | WordB => st' = st /\ at_wordb st = true
  end.

(** A matcher in continuation style is sound for a relation between
    positions: whenever it answers, the continuation was entered at a
    related position. *)
Definition sound {R : Type}
    (one : mstate -> (mstate -> option R) -> option R)
    (step : mstate -> mstate -> Prop) : Prop :=
  forall st k x, one st k = Some x -> exists st', step st st' /\ k st' = Some x.

(** The pattern has no capturing group. *)
Fixpoint groupless (r : regex) : bool :=
  match r with
  | Seq a b | Alt a b => groupless a && groupless b
  | Rep _ _ _ a => groupless a
  | Grp _ _ => false
  | _ => true
  end.

(** What a match passes over: [rest st = t ++ rest st']. *)
Definition passes (t : string) (st st' : mstate) : Prop := rest st = t ++ rest st'.

(** ** The stimulation parser *)

(** A line the parser passes over when it looks for the data row of a
    header: a blank line or another header. *)
Definition blank_or_header (l : string) : Prop :=
  is_blank l = true \/ Re.found _STIM_HDR l = true.

(** No header of the page is followed by a row: the first line after a
    header that is neither blank nor a header fails the row grammar. *)
Definition no_row_follows (lines : list string) : Prop :=
  forall pre hdr skipped d post,
    lines = (pre ++ hdr :: skipped ++ d :: post)%list ->
    Re.found _STIM_HDR hdr = true ->
    Forall blank_or_header skipped ->
    is_blank d = false -> Re.found _STIM_HDR d = false ->
    Re.search _STIM_ROW d = None.

(** The stage count of the row found in a line, if there is one, is a
    text that [int] converts. *)
Definition stages_convert (l : string) : Prop :=
  forall sm, Re.search _STIM_ROW l = Some sm ->
    (String.length (group_text 5 sm) <= Num.max_str_digits)%nat.

(** A page with a header whose data line is no row. *)
Definition headed_page : string :=
  "Date Stimulated  Formation" ++ String newline "" ++ "not a row".




(** The page of the specification's example: a header, one data row, a
    treatment header with a row of three numbers, and two detail lines. *)
Definition section8_header : string :=
  "Date Stimulated Stimulated Formation Top (Ft) Bottom (Ft) Stimulation Stages Volume Volume Units".
Definition section8_data : string :=
  "06/15/2014 Bakken 11230 20890 30 65432 Barrels".
Definition section8_treat_header : string :=
  "Type Treatment Acid % Lbs Proppant Maximum Treatment Pressure (PSI) Maximum Treatment Rate (BBLS/Min)".
Definition section8_treat : string := "Sand Frac 3500000 9000 40.5".
Definition section8_detail1 : string := "100 mesh: 200000".
Definition section8_detail2 : string := "40/70 white: 3300000".

Definition section8_tail : list string :=
  ["Details"; section8_detail1; section8_detail2].

Definition section8_lines : list string :=
  section8_header :: section8_data :: section8_treat_header
    :: section8_treat :: section8_tail.

Definition section8_page : string :=
  Str.join (String newline "") section8_lines.

Definition section8_record : stim :=
  {| date_stimulated := "06/15/2014";
     formation := "Bakken";
     top_ft := Some (Num.of_Z 11230);
     bottom_ft := Some (Num.of_Z 20890);
     stages := 30;
     volume := Some (Num.of_Z 65432);
     volume_units := "Barrels";
     treatment_type := Some "Sand Frac";
     acid_percent := None;
     lbs_proppant := Some (Num.of_Z 3500000);
     max_pressure := Some (Num.of_Z 9000);
     max_rate := Some (Num.of_ratio false 405 10);
     details :=
       Some (section8_detail1 ++ String newline "" ++ section8_detail2) |}.




(** A text of [n] digits. *)
Fixpoint ones (n : nat) : string :=
  match n with
  | O => EmptyString
  | S n' => String "1" (ones n')
  end.

(** A page whose data row has a stage count of 4301 digits. *)
Definition long_stages_page : string :=
  section8_header ++ String newline ""
    ++ "06/15/2014 Bakken 11230 20890 " ++ ones 4301 ++ " 65432 Barrels".

(** ** Degree-minute-second texts *)

Definition degree_sign : string := String degree "".

(** [47° 30' 0 N] and [101° 15' 0 W], and the first with a seconds mark
    (the double quote, character 34) after the seconds. *)
Definition dms_lat : string := "47" ++ degree_sign ++ " 30' 0 N".
Definition dms_lon : string := "101" ++ degree_sign ++ " 15' 0 W".
Definition dms_lat_marked : string :=
  "47" ++ degree_sign ++ " 30' 0" ++ String "034" " N".

(** A seconds field that is no number. *)
Definition dms_bad_seconds : string := "47" ++ degree_sign ++ "30'1.2.3 N".

(** The binary64 numbers 47.5 and 101.25. *)
Definition f47_5 : Num.float := S754_finite false 6685030696878080 (-47).
Definition f101_25 : Num.float := S754_finite false 7124835347988480 (-46).

(** The hemisphere letter of a match, in upper case. *)
Definition hemisphere (m : matched) : string := Py.upper (group_text 4 m).

(** [degrees + minutes/60 + seconds/3600], negated for S and W, rounded
    to seven places. *)
Definition dms_value (hemi : string) (deg mins secs : Num.float) : Num.float :=
  let dd := Num.add (Num.add deg (Num.div mins (Num.of_Z 60)))
                    (Num.div secs (Num.of_Z 3600)) in
  Num.round7 (if String.eqb hemi "S" || String.eqb hemi "W"
              then Num.opp dd else dd).

(** ** The identity fallback *)

(** A well-number candidate is accepted when the value of its digits lies
    in [1000, 199999]; the accepted number is the digit text. *)
Definition accept (c : option string) : option string :=
  match c with
  | Some v =>
    let d := digits_of v in
    if (1000 <=? Num.digits_val 0 d) && (Num.digits_val 0 d <=? 199999)
    then Some d else None
  | None => None
  end.

Fixpoint first_accepted (cands : list (option string)) : option string :=
  match cands with
  | [] => None
  | c :: cands' =>
    match accept c with
    | Some d => Some d
    | None => first_accepted cands'
    end
  end.

(** The candidate has more digits than [int] converts. *)
Definition over_limit (c : option string) : Prop :=
  exists v, c = Some v
    /\ (Num.max_str_digits < String.length (digits_of v))%nat.

Definition over_limitb (c : option string) : bool :=
  match c with
  | Some v => (Num.max_str_digits <? String.length (digits_of v))%nat
  | None => false
  end.

(** A candidate the code passes by: [int] converts its digits, and it is
    not accepted. *)
Definition passed_by (c : option string) : Prop :=
  ~ over_limit c /\ accept c = None.

(** The code reaches a candidate that [int] refuses: every candidate
    before it is passed by. *)
Definition reaches_over_limit (cands : list (option string)) : Prop :=
  exists pre c post,
    cands = (pre ++ c :: post)%list /\ Forall passed_by pre /\ over_limit c.

(** The candidates tried in order, as far as the code gets. *)
Fixpoint first_valid (cands : list (option string)) : result (option string) :=
  match cands with
  | [] => Ok None
  | c :: cands' =>
    if over_limitb c then Raise ValueError
    else match accept c with
         | Some d => Ok (Some d)
         | None => first_valid cands'
         end
  end.

(** The candidates in the order the code tries them. *)
Definition well_number_candidates (merged_fields : gmap string string)
    (all_texts : list string) : list (option string) :=
  [ merged_fields !! "NDIC File Number";
    merged_fields !! "ND Well File #";
    merged_fields !! "Well or Facility No";
    _search _WNUM_PATS all_texts ].

(** The records parsed from the pages of a document, in page order; only
    a page whose text contains [Date Stimulat] is parsed. *)
Fixpoint document_records (pages : list page) : result (list stim) :=
  match pages with
  | [] => Ok []
  | p :: pages' =>
    let text := page_text p in
    if negb (Str.truthy text) || negb (Str.contains "Date Stimulat" text)
    then document_records pages'
    else
      recs ← parse_stimulation text;
      recs' ← document_records pages';
      Ok (recs ++ recs')%list
  end.

(** The key of a document without an API number. *)
Definition fallback_key (well_number : string) : string :=
  if Str.truthy well_number then "NDIC-" ++ well_number else "UNKNOWN".

(** A document with no API number whose file name carries the number, and
    one with nothing to go by. *)
Definition doc_number_in_filename : doc :=
  Doc "W20197.pdf" "Location:" [Page "no identifiers on this page" ∅].

Definition doc_nothing : doc := Doc "" "Location:" [].

(** ** Absent fields *)

(** The value is not the empty text. *)
Definition no_empty (o : option string) : Prop := o <> Some EmptyString.

(** ** The tables across documents *)

(** A stage count SQLite can bind: a signed 64-bit integer. *)
Definition fits (r : stim) : bool :=
  (- 2 ^ 63 <=? stages r) && (stages r <? 2 ^ 63).

(** Every row of [wells] is stored under its own [api_number]. *)
Definition keyed (tbl : gmap string well) : Prop :=
  forall k r, tbl !! k = Some r -> api_number r = k.

(** Every row of [stimulation] refers to a row of [wells]. *)
Definition referenced (conn : db) : Prop :=
  forall row, In row (stimulation conn) ->
    is_Some (wells conn !! stim_api_number row).

(** A column that holds a value holds the same value later. *)
Definition settled {A : Type} (before after : option A) : Prop :=
  match before with Some _ => after = before | None => True end.

(** The SQL [LENGTH] of a stored name, [NULL] counting as empty. *)
Definition name_length (o : option string) : nat :=
  sql_length (default EmptyString o).

(** What a later state of a row of [wells] keeps of an earlier one. *)
Definition row_kept (r r' : well) : Prop :=
  api_number r' = api_number r
  /\ state r' = state r
  /\ pdf_filename r' = pdf_filename r
  /\ (name_length (well_name r) <= name_length (well_name r'))%nat
  /\ settled (well_number r) (well_number r')
  /\ settled (operator r) (operator r')
  /\ settled (county r) (county r')
  /\ settled (shl_desc r) (shl_desc r')
  /\ settled (latitude r) (latitude r')
  /\ settled (longitude r) (longitude r')
  /\ settled (datum r) (datum r').

(** What a later state of the database keeps of an earlier one: every
    row of [wells], and the rows of [stimulation] as a prefix. *)
Definition extends (conn conn' : db) : Prop :=
  (forall k r, wells conn !! k = Some r ->
     exists r', wells conn' !! k = Some r' /\ row_kept r r')
  /\ exists rows, stimulation conn' = (stimulation conn ++ rows)%list.

(** The key under which a document is stored. *)
Definition key_of (data : doc) : option string :=
  match extract_well_row data with
  | Ok w => Some (api_number w)
  | Raise _ => None
  end.

(** A longitude whose seconds field is no number, and a document that
    carries it. *)
Definition bad_seconds_text : string := "103" ++ degree_sign ++ " 15' 1.2.3 W".

Definition doc_bad_seconds : doc :=
  Doc "W1.pdf" "BAD 1" [Page ("Longitude: " ++ bad_seconds_text) ∅].

(** A database file without tables. *)
Definition no_tables : store := Store None None.

(** ** Texts *)

(** The text has no whitespace at either end. *)
Definition trimmed (s : string) : Prop := Str.strip s = s.

(** The only whitespace in the text is the space character, and no two
    spaces are adjacent. *)
Definition single_spaced (s : string) : Prop :=
  Str.all (fun c => negb (is_space c) || eqc c " ") s = true
  /\ Str.contains "  " s = false.

(** [re.sub] of the runs of a class by a fixed text, read from left to
    right: [in_run] tells that the character before was of the class. *)
Fixpoint squeeze (p : ascii -> bool) (repl : string) (in_run : bool) (s : string)
    : string :=
  match s with
  | EmptyString => EmptyString
  | String c s' =>
    if p c then (if in_run then EmptyString else repl) ++ squeeze p repl true s'
    else String c (squeeze p repl false s')
  end.

Definition letter_or_space (c : ascii) : bool := is_alpha c || eqc c " ".

(** ** The meaning of a pattern, with the bounds of its repetitions *)

(** The number of rounds of [{lo,hi}]. *)
Definition within_bound (lo : nat) (hi : option nat) (n : nat) : Prop :=
  (lo <= n)%nat
  /\ match hi with Some h => (n <= Nat.max lo h)%nat | None => True end.

(** [semb r st st']: as [sem], and no repetition makes more rounds than
    its upper bound. *)
Fixpoint semb (r : regex) (st st' : mstate) {struct r} : Prop :=
  match r with
  | Eps => st' = st
  | Chr p =>
    exists c, rest st = String c (rest st') /\ p c = true
      /\ prev st' = Some c /\ caps st' = caps st
  | Seq a b => exists st1, semb a st st1 /\ semb b st1 st'
  | Alt a b => semb a st st' \/ semb b st st'
  | Rep _ lo hi a => exists n, within_bound lo hi n /\ iter n (semb a) st st'
  | Grp n a =>
    exists st1, semb a st st1
      /\ st' = MState (prev st1) (rest st1) ((n, consumed st st1) :: caps st1)
  | Bol m => st' = st /\ at_bol m st = true
  | Eol m => st' = st /\ at_eol m st = true
  | WordB => st' = st /\ at_wordb st = true
  end.

(** ** The records of the parser *)

(** A date text [D/M/YYYY]: one or two digits for the day and for the
    month, four for the year (the calendar is not consulted). *)
Definition date_shaped (s : string) : Prop :=
  exists d m y, s = d ++ "/" ++ m ++ "/" ++ y
    /\ Str.all is_digit d = true /\ (1 <= String.length d <= 2)%nat
    /\ Str.all is_digit m = true /\ (1 <= String.length m <= 2)%nat
    /\ Str.all is_digit y = true /\ String.length y = 4%nat.

(** What the row grammar guarantees of a record. *)
Definition row_shaped (r : stim) : Prop :=
  date_shaped (date_stimulated r)
  /\ Str.truthy (formation r) = true
  /\ Str.all letter_or_space (formation r) = true
  /\ (String.length (formation r) <= 31)%nat
  /\ is_Some (top_ft r) /\ is_Some (bottom_ft r)
  /\ 0 <= stages r
  /\ Str.truthy (volume_units r) = true
  /\ Str.all is_alpha (volume_units r) = true.

(** The number of header lines. *)
Definition headers (lines : list string) : nat :=
  List.length (List.filter (Re.found _STIM_HDR) lines).

(** What every record of the parser carries: the fields of the data row,
    and no empty text where a field is optional. *)
Definition record_shaped (r : stim) : Prop :=
  row_shaped r /\ no_empty (treatment_type r) /\ no_empty (details r).

(** The pattern has a group numbered [n]. *)
Fixpoint mentions (n : nat) (r : regex) : bool :=
  match r with
  | Seq a b | Alt a b => mentions n a || mentions n b
  | Rep _ _ _ a => mentions n a
  | Grp i a => (i =? n)%nat || mentions n a
  | _ => false
  end.

(** ** Documents for the runs *)

(** A document with the stimulation page of the specification's example. *)
Definition doc_section8 : doc :=
  Doc "W20197.pdf" "ATLANTA 1-6H" [Page section8_page ∅].

(** A stage count of 2^63 in the data row. *)
Definition many_stages_page : string :=
  Str.join (String newline "")
    [section8_header; "06/15/2014 Bakken 11230 20890 9223372036854775808 65432 Barrels"].

Definition doc_many_stages : doc := Doc "W20197.pdf" "ATLANTA 1-6H" [Page many_stages_page ∅].

(** The header in capitals: the parser knows it, the page filter of
    [process_json] does not. *)
Definition capitals_page : string :=
  Str.join (String newline "") ["DATE STIMULATED  FORMATION"; section8_data].

Definition doc_capitals : doc := Doc "W20197.pdf" "ATLANTA 1-6H" [Page capitals_page ∅].

Definition no_rows : db := Db ∅ [].

(** ** Pages and candidates *)

(** The value of a field label in the last page that has it. *)
Fixpoint last_field (k : string) (pages : list page) : option string :=
  match pages with
  | [] => None
  | p :: pages' =>
    match last_field k pages' with
    | Some v => Some v
    | None => page_fields p !! k
    end
  end.

(** The page has a text that is not blank. *)
Definition has_text (p : page) : bool := Str.truthy (Str.strip (page_text p)).

(** The number of full stops of a text. *)
Definition dots (s : string) : nat := String.length (Str.filter (eqc ".") s).

(** The text [float] cannot read, among the texts of digits and full
    stops: two full stops or more, or no digit. *)
Definition no_number (s : string) : Prop :=
  (2 <= dots s)%nat \/ digits_of s = EmptyString.

(** The coordinate texts [extract_well_row] converts. *)
Definition coordinate_texts (data : doc) : option string * option string :=
  let '(merged_fields, all_texts) := collect_page_data (doc_pages data) in
  let lat_field_val := default EmptyString (merged_fields !! "Latitude") in
  (_search _LAT_PATS (lat_field_val :: all_texts),
   _search _LON_PATS (lat_field_val :: all_texts)).

(** A document whose county field runs into the next label. *)
Definition doc_county : doc :=
  Doc "W20197.pdf" "ATLANTA 1-6H"
    [Page "" (<["County" := "mc kenzie  State: ND"]> ∅)].

Definition digit_or_comma_c (c : ascii) : bool := is_digit c || eqc c ",".

(** The binary64 number nearest to a natural number, ties to even. *)
Definition integer_float (n : Z) : Num.float :=
  match n with
  | Zpos p => Num.of_ratio false p 1
  | _ => S754_zero false
  end.

(** The stage counts of the rows found in the lines of the pages are
    texts that [int] converts. *)
Definition pages_convert (pages : list page) : Prop :=
  Forall (fun p => Forall stages_convert (Py.splitlines (page_text p))) pages.

(** A document whose data row has a stage count of 4301 digits, and one
    whose well-number field has 4301 digits. *)
Definition doc_long_stages : doc :=
  Doc "W20197.pdf" "ATLANTA 1-6H" [Page long_stages_page ∅].

Definition doc_long_number : doc :=
  Doc "W20197.pdf" "ATLANTA 1-6H"
    [Page "" (<["NDIC File Number" := ones 4301]> ∅)].

(** * Properties *)

(** ** The merge policy of the well upsert (C1, C10) *)

Lemma sql_length_no_nul (s : string) :
  no_nul s = true -> sql_length s = String.length s.
Proof.
  induction s as [|c s IH]; simpl; [reflexivity|].
  unfold no_nul; simpl. intros H.
  apply andb_prop in H as [Hc Hs].
  destruct (code c =? 0)%nat; [discriminate|].
  f_equal. apply IH, Hs.
Qed.

Lemma longer_name_spec (stored excluded : option string) :
  (strictly_longer excluded stored -> longer_name stored excluded = excluded)
  /\ (~ strictly_longer excluded stored -> longer_name stored excluded = stored).
Proof.
  unfold strictly_longer, longer_name. split.
  - intros (new & -> & Hlt).
    apply Nat.ltb_lt in Hlt. now rewrite Hlt.
  - intros Hn. destruct excluded as [new|]; [|reflexivity].
    destruct (Nat.ltb_spec (sql_length (default EmptyString stored)) (sql_length new));
      [|reflexivity].
    exfalso. apply Hn. eauto.
Qed.

Lemma coalesce_spec {A : Type} (stored excluded : option A) :
  keeps_or_takes stored excluded (coalesce stored excluded).
Proof. destruct stored; reflexivity. Qed.

Lemma upsert_well_conflict (tbl : gmap string well) (w stored : well) :
  tbl !! api_number w = Some stored ->
  upsert_well w tbl !! api_number w = Some (on_conflict stored w).
Proof.
  intros H. unfold upsert_well. rewrite H. apply lookup_insert_eq.
Qed.

Lemma upsert_well_other (tbl : gmap string well) (w : well) (k : string) :
  k <> api_number w -> upsert_well w tbl !! k = tbl !! k.
Proof.
  intros H. unfold upsert_well.
  destruct (tbl !! api_number w); now rewrite lookup_insert_ne.
Qed.

(** C1, as amended: on a conflict the stored [well_name] is replaced by
    the incoming one exactly when the incoming one is present and strictly
    longer; [well_number], [operator], [county], [shl_desc], [latitude],
    [longitude] and [datum] keep a stored non-null value and otherwise take
    the incoming one; [pdf_filename] keeps the stored value, null or not. *)
Theorem C1_upsert_merge_policy (tbl : gmap string well) (w stored : well) :
  tbl !! api_number w = Some stored ->
  exists r, upsert_well w tbl !! api_number w = Some r
    /\ (strictly_longer (well_name w) (well_name stored) ->
        well_name r = well_name w)
    /\ (~ strictly_longer (well_name w) (well_name stored) ->
        well_name r = well_name stored)
    /\ keeps_or_takes (well_number stored) (well_number w) (well_number r)
    /\ keeps_or_takes (operator stored) (operator w) (operator r)
    /\ keeps_or_takes (county stored) (county w) (county r)
    /\ keeps_or_takes (shl_desc stored) (shl_desc w) (shl_desc r)
    /\ keeps_or_takes (latitude stored) (latitude w) (latitude r)
    /\ keeps_or_takes (longitude stored) (longitude w) (longitude r)
    /\ keeps_or_takes (datum stored) (datum w) (datum r)
    /\ pdf_filename r = pdf_filename stored.
Proof.
  intros H. exists (on_conflict stored w).
  split; [now apply upsert_well_conflict|].
  destruct (longer_name_spec (well_name stored) (well_name w)) as [Hl Hs].
  simpl. repeat split; auto using coalesce_spec.
Qed.

(** The merge example of the specification: the operator stays, the
    longer name replaces the stored one. *)
Lemma C1_upsert_merge_policy_witness :
  acme_table !! api_number acme_incoming = Some acme_stored
  /\ exists r, upsert_well acme_incoming acme_table !! api_number acme_incoming = Some r
    /\ well_name r = Some "WELL A UNIT 2"
    /\ operator r = Some "Acme Oil"
    /\ county r = Some "Williams".
Proof.
  assert (Hk : acme_table !! api_number acme_incoming = Some acme_stored)
    by reflexivity.
  split; [exact Hk|].
  destruct (C1_upsert_merge_policy acme_table acme_incoming acme_stored Hk)
    as (r & Hr & Hlong & _ & _ & Hop & Hco & _).
  exists r. split; [exact Hr|]. split.
  - apply Hlong. exists "WELL A UNIT 2". split; [reflexivity|]. simpl. lia.
  - split; [exact Hop | exact Hco].
Defined.

(** C1 as stated fails for [pdf_filename]: a stored null is not replaced
    by the incoming file name. *)
Lemma C1_counterexample_pdf_filename :
  exists r, upsert_well acme_incoming acme_table !! api_number acme_incoming = Some r
    /\ pdf_filename acme_stored = None
    /\ pdf_filename acme_incoming = Some "W20197.pdf"
    /\ pdf_filename r = None
    /\ ~ keeps_or_takes (pdf_filename acme_stored) (pdf_filename acme_incoming)
           (pdf_filename r).
Proof.
  exists (on_conflict acme_stored acme_incoming).
  split; [apply upsert_well_conflict; reflexivity|].
  repeat split. simpl. discriminate.
Qed.

(** C10: on a conflict the stored [api_number], [state] and
    [pdf_filename] are kept whatever the incoming record holds, also when
    the stored value is null; every other row is untouched. *)
Theorem C10_upsert_frame (tbl : gmap string well) (w stored : well) :
  tbl !! api_number w = Some stored ->
  (exists r, upsert_well w tbl !! api_number w = Some r
     /\ api_number r = api_number stored
     /\ state r = state stored
     /\ pdf_filename r = pdf_filename stored)
  /\ forall k, k <> api_number w -> upsert_well w tbl !! k = tbl !! k.
Proof.
  intros H. split.
  - exists (on_conflict stored w).
    split; [now apply upsert_well_conflict|]. repeat split.
  - intros k Hk. now apply upsert_well_other.
Qed.

Lemma C10_upsert_frame_witness :
  acme_table !! api_number acme_incoming = Some acme_stored
  /\ exists r, upsert_well acme_incoming acme_table !! api_number acme_incoming = Some r
    /\ api_number r = "33-105-02729"
    /\ state r = None
    /\ pdf_filename r = None.
Proof.
  assert (Hk : acme_table !! api_number acme_incoming = Some acme_stored)
    by reflexivity.
  split; [exact Hk|].
  destruct (C10_upsert_frame acme_table acme_incoming acme_stored Hk)
    as [(r & Hr & Ha & Hs & Hp) _].
  exists r. repeat split; assumption.
Defined.

(** ** The coordinate bands (C6) *)

Lemma leb_opp_finite (m1 m2 : positive) (e1 e2 : Z) :
  Num.leb (S754_finite true m2 e2) (S754_finite true m1 e1)
  = Num.leb (S754_finite false m1 e1) (S754_finite false m2 e2).
Proof.
  unfold Num.leb, SFleb, SFcompare.
  rewrite (Z.compare_antisym e1 e2).
  destruct (e1 ?= e2); simpl; try reflexivity.
  rewrite !Pos.compare_cont_spec. simpl.
  rewrite (Pos.compare_antisym m1 m2).
  destruct (m1 ?= m2)%positive; reflexivity.
Qed.

Lemma within_west_opp (x : Num.float) :
  Num.within 96 105 x = true -> Num.within (-105) (-96) (Num.opp x) = true.
Proof.
  unfold Num.within. intros H.
  apply andb_prop in H as [H1 H2].
  destruct x as [s|s| |s m e]; try (destruct s); try discriminate.
  change (Num.of_Z (-105)) with (Num.opp (Num.of_Z 105)).
  change (Num.of_Z (-96)) with (Num.opp (Num.of_Z 96)).
  change (Num.of_Z 105) with (S754_finite false 7388718138654720 (-46)) in *.
  change (Num.of_Z 96) with (S754_finite false 6755399441055744 (-46)) in *.
  simpl Num.opp. rewrite !leb_opp_finite, H1, H2. reflexivity.
Qed.

Lemma bands_of (x : Num.float) :
  latitude_band (Some x) = (if Num.within 45 50 x then Some x else None)
  /\ longitude_band (Some x)
     = (if Num.within 96 105 x then Some (Num.opp x)
        else if Num.within (-105) (-96) x then Some x else None)
  /\ (forall y, latitude_band (Some x) = Some y -> y = x /\ Num.within 45 50 y = true)
  /\ (forall y, longitude_band (Some x) = Some y -> Num.within (-105) (-96) y = true).
Proof.
  assert (Hlat : latitude_band (Some x)
                 = if Num.within 45 50 x then Some x else None).
  { unfold latitude_band. now destruct (Num.within 45 50 x). }
  assert (Hlon : longitude_band (Some x)
                 = if Num.within 96 105 x then Some (Num.opp x)
                   else if Num.within (-105) (-96) x then Some x else None).
  { unfold longitude_band.
    destruct (Num.within 96 105 x); [reflexivity|].
    now destruct (Num.within (-105) (-96) x). }
  split; [exact Hlat|]. split; [exact Hlon|]. split.
  - intros y. rewrite Hlat.
    destruct (Num.within 45 50 x) eqn:E; [|discriminate].
    intros [= <-]. now split.
  - intros y. rewrite Hlon.
    destruct (Num.within 96 105 x) eqn:E.
    + intros [= <-]. now apply within_west_opp.
    + destruct (Num.within (-105) (-96) x) eqn:E'; [|discriminate].
      now intros [= <-].
Qed.



(** ** Strings and the matcher on character classes *)

Lemma append_nil (t : string) : "" ++ t = t.
Proof. reflexivity. Qed.

Lemma append_cons (c : ascii) (s t : string) : String c s ++ t = String c (s ++ t).
Proof. reflexivity. Qed.

Lemma append_empty_r (s : string) : s ++ "" = s.
Proof. induction s as [|c s IH]; [reflexivity|]. now rewrite append_cons, IH. Qed.

Lemma rev_onto_rev_onto (s a b : string) :
  Str.rev_onto (Str.rev_onto s a) b = Str.rev_onto a (s ++ b).
Proof.
  revert a b. induction s as [|c s IH]; intros a b; simpl; [reflexivity|].
  rewrite IH, append_cons. reflexivity.
Qed.

Lemma rev_rev (s : string) : Str.rev (Str.rev s) = s.
Proof. unfold Str.rev. rewrite rev_onto_rev_onto. simpl. apply append_empty_r. Qed.

Lemma all_rev_onto p (s acc : string) :
  Str.all p (Str.rev_onto s acc) = Str.all p s && Str.all p acc.
Proof.
  revert acc. induction s as [|c s IH]; intros acc; simpl; [reflexivity|].
  rewrite IH. simpl. destruct (p c), (Str.all p s); reflexivity.
Qed.

Lemma all_rev p (s : string) : Str.all p (Str.rev s) = Str.all p s.
Proof. unfold Str.rev. rewrite all_rev_onto. simpl. apply andb_true_r. Qed.

Lemma lstrip_nonspace (s : string) :
  Str.all nonspace_c s = true -> Str.lstrip s = s.
Proof.
  destruct s as [|c s]; simpl; [reflexivity|].
  unfold nonspace_c. destruct (is_space c); [discriminate|reflexivity].
Qed.

Lemma strip_nonspace (s : string) :
  Str.all nonspace_c s = true -> Str.strip s = s.
Proof.
  intros H. unfold Str.strip, Str.rstrip.
  rewrite (lstrip_nonspace s H).
  rewrite lstrip_nonspace by now rewrite all_rev.
  apply rev_rev.
Qed.

Lemma all_filter p (s : string) : Str.all p (Str.filter p s) = true.
Proof.
  induction s as [|c s IH]; simpl; [reflexivity|].
  destruct (p c) eqn:E; simpl; [rewrite E|]; exact IH.
Qed.

(* attempts *)
Lemma length_sub1 (c : ascii) (s : string) :
  (String.length (String c s) - String.length s = 1)%nat.
Proof. simpl. lia. Qed.

Lemma attempt_chr q p c s :
  attempt (Chr q) false p (String c s)
  = if q c then Some (MState (Some c) s []) else None.
Proof. unfold attempt. simpl. destruct (q c); reflexivity. Qed.

Lemma sub_chr_delete q (s : string) p pos :
  sub_loop (Chr q) (fun _ => "") p s pos 0 = Str.filter (fun c => negb (q c)) s.
Proof.
  revert p pos. induction s as [|c s IH]; intros p pos.
  - reflexivity.
  - cbn [sub_loop]. rewrite attempt_chr.
    destruct (q c) eqn:E; cbn [Str.filter negb]; rewrite ?E; cbn [negb].
    + unfold mk_matched, consumed. cbn [rest m_text].
      rewrite length_sub1. cbn [Str.take String.length]. 
      rewrite IH. reflexivity.
    + rewrite IH. reflexivity.
Qed.

Lemma eat_length p prev s : (String.length (snd (eat p prev s)) <= String.length s)%nat.
Proof.
  revert prev. induction s as [|c s IH]; intros prev; simpl; [lia|].
  destruct (p c); simpl; [specialize (IH (Some c)); lia | lia].
Qed.

Lemma rep_may_chr_greedy p (n : nat) prev s cs :
  (String.length s <= n)%nat ->
  rep_may (run (Chr p)) true n (MState prev s cs) (fun st1 => Some st1)
  = Some (MState (fst (eat p prev s)) (snd (eat p prev s)) cs).
Proof.
  revert prev s. induction n as [|n IH]; intros prev s Hn.
  - destruct s; [reflexivity | simpl in Hn; lia].
  - cbn [rep_may run rest caps].
    destruct s as [|c s]; [reflexivity|].
    cbn [eat]. destruct (p c); [|reflexivity].
    unfold advanced. cbn [rest String.length].
    replace (String.length s <? S (String.length s))%nat with true
      by (symmetry; apply Nat.ltb_lt; lia).
    rewrite IH by (simpl in Hn; lia). reflexivity.
Qed.

Lemma attempt_plus_chr p prev s :
  attempt (plus (Chr p)) false prev s
  = match s with
    | String c s' =>
      if p c then Some (MState (fst (eat p (Some c) s')) (snd (eat p (Some c) s')) [])
      else None
    | EmptyString => None
    end.
Proof.
  unfold attempt, plus. cbn [run rep_must rest caps andb].
  destruct s as [|c s]; [reflexivity|].
  destruct (p c); [|reflexivity].
  cbn [rest]. apply rep_may_chr_greedy. lia.
Qed.

Lemma sub_loop_skip r f (k : nat) : forall s prev pos,
  (k <= String.length s)%nat ->
  exists prev', sub_loop r f prev s pos k
                = sub_loop r f prev' (Str.drop k s) (pos + k) 0.
Proof.
  induction k as [|k IH]; intros s prev pos Hk.
  - exists prev. now rewrite Nat.add_0_r.
  - destruct s as [|c s]; [simpl in Hk; lia|].
    destruct (IH s (Some c) (S pos)) as [prev' E]; [simpl in Hk; lia|].
    exists prev'. cbn [sub_loop Str.drop]. rewrite E. f_equal. lia.
Qed.

Lemma eat_drop p prev s :
  snd (eat p prev s) = Str.drop (String.length s - String.length (snd (eat p prev s))) s.
Proof.
  revert prev. induction s as [|c s IH]; intros prev; [reflexivity|].
  cbn [eat]. destruct (p c).
  - pose proof (eat_length p (Some c) s).
    replace (String.length (String c s) - String.length (snd (eat p (Some c) s)))%nat
      with (S (String.length s - String.length (snd (eat p (Some c) s))))
      by (simpl; lia).
    cbn [Str.drop]. apply IH.
  - cbn [snd]. rewrite Nat.sub_diag. reflexivity.
Qed.

Lemma filter_eat p prev s :
  Str.filter (fun c => negb (p c)) (snd (eat p prev s)) = Str.filter (fun c => negb (p c)) s.
Proof.
  revert prev. induction s as [|c s IH]; intros prev; [reflexivity|].
  cbn [eat Str.filter]. destruct (p c) eqn:E; cbn [negb]; [apply IH|].
  cbn [snd Str.filter]. now rewrite E.
Qed.

Lemma length_take (k : nat) : forall s,
  (k <= String.length s)%nat -> String.length (Str.take k s) = k.
Proof.
  induction k as [|k IH]; intros s Hk; [reflexivity|].
  destruct s as [|c s]; [simpl in Hk; lia|].
  cbn [Str.take String.length]. rewrite IH; [reflexivity | simpl in Hk; lia].
Qed.

Lemma sub_plus_chr_delete_n p (n : nat) : forall s prev pos,
  (String.length s <= n)%nat ->
  sub_loop (plus (Chr p)) (fun _ => "") prev s pos 0
  = Str.filter (fun c => negb (p c)) s.
Proof.
  induction n as [|n IH]; intros s prev pos Hn.
  - destruct s; [reflexivity | simpl in Hn; lia].
  - destruct s as [|c s]; [reflexivity|].
    cbn [sub_loop]. rewrite attempt_plus_chr.
    destruct (p c) eqn:E.
    + unfold mk_matched, consumed. cbn [rest m_text].
      pose proof (eat_length p (Some c) s) as Hl.
      pose proof (eat_drop p (Some c) s) as Hd.
      pose proof (filter_eat p (Some c) s) as Hf.
      set (t := snd (eat p (Some c) s)) in *.
      rewrite length_take by (simpl; lia).
      replace (String.length (String c s) - String.length t)%nat
        with (S (String.length s - String.length t)) by (simpl; lia).
      destruct (sub_loop_skip (plus (Chr p)) (fun _ => "")
                  (String.length s - String.length t) s (Some c) (S pos))
        as [prev' Hs]; [lia|].
      rewrite Hs, <- Hd, IH by (simpl in Hn; lia).
      cbn [Str.filter]. rewrite E. cbn [negb]. rewrite Hf. reflexivity.
    + rewrite IH by (simpl in Hn; lia).
      cbn [Str.filter]. rewrite E. reflexivity.
Qed.

Lemma sub_plus_chr_delete p (s : string) :
  Re.sub (plus (Chr p)) "" s = Str.filter (fun c => negb (p c)) s.
Proof. apply (sub_plus_chr_delete_n p (String.length s)). lia. Qed.

Lemma sub_class_delete q (s : string) :
  Re.sub (Chr q) "" s = Str.filter (fun c => negb (q c)) s.
Proof. apply sub_chr_delete. Qed.

Lemma search_from_chr p (s : string) prev pos :
  (match search_from (Chr p) prev s pos with Some _ => true | None => false end)
  = Str.any p s.
Proof.
  revert prev pos. induction s as [|c s IH]; intros prev pos; [reflexivity|].
  cbn [search_from Str.any]. rewrite attempt_chr.
  destruct (p c); [reflexivity|]. apply IH.
Qed.

Lemma found_chr p (s : string) : Re.found (Chr p) s = Str.any p s.
Proof. apply search_from_chr. Qed.

Lemma filter_ext p q (s : string) :
  (forall c, p c = q c) -> Str.filter p s = Str.filter q s.
Proof.
  intros H. induction s as [|c s IH]; [reflexivity|].
  cbn [Str.filter]. now rewrite H, IH.
Qed.

Lemma normalize_api_unfold (raw : string) :
  _normalize_api raw
  = if Str.any is_alpha (stripped raw) then None
    else
      let digits := digits_of raw in
      let n := String.length digits in
      if (n <? 8)%nat then None
      else if (n =? 14)%nat then
        Some (dashed [Str.slice 0 2 digits; Str.slice 2 5 digits;
                      Str.slice 5 10 digits; Str.slice 10 12 digits;
                      Str.drop 12 digits])
      else if (n =? 10)%nat then
        Some (dashed [Str.slice 0 2 digits; Str.slice 2 5 digits;
                      Str.slice 5 10 digits])
      else Some (stripped raw).
Proof.
  unfold _normalize_api, _WS, _NON_DIGIT, _LETTER, alpha, space.
  rewrite sub_plus_chr_delete, sub_class_delete, found_chr.
  fold nonspace_c. fold (stripped raw).
  rewrite (strip_nonspace (stripped raw)) by apply all_filter.
  rewrite (filter_ext _ is_digit) by (intros c; apply negb_involutive).
  reflexivity.
Qed.

Lemma digit_class (c : ascii) :
  is_digit c = true -> nonspace_c c = true /\ is_alpha c = false.
Proof.
  destruct c as [[] [] [] [] [] [] [] []]; vm_compute; intros H;
    try discriminate H; repeat split.
Qed.

Lemma filter_app p (a b : string) :
  Str.filter p (a ++ b) = Str.filter p a ++ Str.filter p b.
Proof.
  induction a as [|c a IH]; [reflexivity|].
  rewrite append_cons. cbn [Str.filter]. rewrite IH.
  destruct (p c); reflexivity.
Qed.

Lemma any_app p (a b : string) :
  Str.any p (a ++ b) = Str.any p a || Str.any p b.
Proof.
  induction a as [|c a IH]; [reflexivity|].
  rewrite append_cons. cbn [Str.any]. rewrite IH. apply orb_assoc.
Qed.

Lemma all_app p (a b : string) :
  Str.all p (a ++ b) = Str.all p a && Str.all p b.
Proof.
  induction a as [|c a IH]; [reflexivity|].
  rewrite append_cons. cbn [Str.all]. rewrite IH. apply andb_assoc.
Qed.

Lemma filter_all p (s : string) : Str.all p s = true -> Str.filter p s = s.
Proof.
  induction s as [|c s IH]; [reflexivity|]. cbn [Str.all Str.filter].
  intros H. apply andb_prop in H as [-> H]. now rewrite IH.
Qed.

Lemma all_impl (p q : ascii -> bool) (s : string) :
  (forall c, p c = true -> q c = true) ->
  Str.all p s = true -> Str.all q s = true.
Proof.
  intros Hpq. induction s as [|c s IH]; [reflexivity|]. cbn [Str.all].
  intros H. apply andb_prop in H as [Hc H]. now rewrite (Hpq c Hc), IH.
Qed.

Lemma any_none (p q : ascii -> bool) (s : string) :
  (forall c, p c = true -> q c = false) ->
  Str.all p s = true -> Str.any q s = false.
Proof.
  intros Hpq. induction s as [|c s IH]; [reflexivity|]. cbn [Str.all Str.any].
  intros H. apply andb_prop in H as [Hc H]. now rewrite (Hpq c Hc), IH.
Qed.

Lemma all_take p (k : nat) : forall s,
  Str.all p s = true -> Str.all p (Str.take k s) = true.
Proof.
  induction k as [|k IH]; intros s H; [reflexivity|].
  destruct s as [|c s]; [reflexivity|]. cbn [Str.all Str.take] in *.
  apply andb_prop in H as [-> H]. now rewrite IH.
Qed.

Lemma all_drop p (k : nat) : forall s,
  Str.all p s = true -> Str.all p (Str.drop k s) = true.
Proof.
  induction k as [|k IH]; intros s H; [exact H|].
  destruct s as [|c s]; [reflexivity|]. cbn [Str.all Str.drop] in *.
  apply andb_prop in H as [_ H]. now apply IH.
Qed.

Lemma take_drop (k : nat) : forall s, Str.take k s ++ Str.drop k s = s.
Proof.
  induction k as [|k IH]; intros s; [reflexivity|].
  destruct s as [|c s]; [reflexivity|].
  cbn [Str.take Str.drop]. now rewrite append_cons, IH.
Qed.

Lemma drop_drop (j k : nat) : forall s,
  Str.drop j (Str.drop k s) = Str.drop (k + j) s.
Proof.
  induction k as [|k IH]; intros s; [reflexivity|].
  destruct s as [|c s]; [now destruct j|]. cbn [Str.drop Nat.add]. apply IH.
Qed.

Lemma length_drop (k : nat) : forall s,
  String.length (Str.drop k s) = (String.length s - k)%nat.
Proof.
  induction k as [|k IH]; intros s; [simpl; lia|].
  destruct s as [|c s]; [reflexivity|]. cbn [Str.drop String.length]. 
  rewrite IH. lia.
Qed.

Lemma take_all (k : nat) : forall s,
  (String.length s <= k)%nat -> Str.take k s = s.
Proof.
  induction k as [|k IH]; intros s H.
  - destruct s; [reflexivity | simpl in H; lia].
  - destruct s as [|c s]; [reflexivity|]. cbn [Str.take].
    rewrite IH; [reflexivity | simpl in H; lia].
Qed.

Lemma length_append (a b : string) :
  String.length (a ++ b) = (String.length a + String.length b)%nat.
Proof.
  induction a as [|c a IH]; [reflexivity|].
  rewrite append_cons. cbn [String.length]. now rewrite IH.
Qed.

(** The digits recomposed from the dashed groups. *)
Lemma regroup3 (D : string) :
  String.length D = 10%nat ->
  Str.slice 0 2 D ++ Str.slice 2 5 D ++ Str.slice 5 10 D = D.
Proof.
  intros H. unfold Str.slice. cbn [Nat.sub].
  change (Str.drop 0 D) with D.
  rewrite <- (take_drop 2 D) at 4.
  rewrite <- (take_drop 3 (Str.drop 2 D)) at 2.
  rewrite drop_drop. cbn [Nat.add].
  rewrite (take_all 5 (Str.drop 5 D)) by (rewrite length_drop; lia).
  reflexivity.
Qed.

Lemma drop12_slice (D : string) :
  String.length D = 14%nat -> Str.drop 12 D = Str.slice 12 14 D.
Proof.
  intros H. unfold Str.slice. cbn [Nat.sub].
  now rewrite take_all by (rewrite length_drop; lia).
Qed.

Lemma regroup5 (D : string) :
  String.length D = 14%nat ->
  Str.slice 0 2 D ++ Str.slice 2 5 D ++ Str.slice 5 10 D
    ++ Str.slice 10 12 D ++ Str.slice 12 14 D = D.
Proof.
  intros H. rewrite <- (drop12_slice D H).
  unfold Str.slice. cbn [Nat.sub].
  change (Str.drop 0 D) with D.
  rewrite <- (take_drop 2 D) at 6.
  rewrite <- (take_drop 3 (Str.drop 2 D)) at 2.
  rewrite drop_drop. cbn [Nat.add].
  rewrite <- (take_drop 5 (Str.drop 5 D)) at 2.
  rewrite drop_drop. cbn [Nat.add].
  rewrite <- (take_drop 2 (Str.drop 10 D)) at 2.
  rewrite drop_drop. cbn [Nat.add].
  reflexivity.
Qed.

Lemma all_slice p i j s : Str.all p s = true -> Str.all p (Str.slice i j s) = true.
Proof. intros H. unfold Str.slice. now apply all_take, all_drop. Qed.

Lemma digits_nonspace s : Str.all is_digit s = true -> Str.all nonspace_c s = true.
Proof. apply all_impl. intros c H. apply (digit_class c H). Qed.

Lemma digits_no_alpha s : Str.all is_digit s = true -> Str.any is_alpha s = false.
Proof. apply any_none. intros c H. apply (digit_class c H). Qed.

Ltac digit_groups Hd :=
  cbn [Str.all Str.any Str.filter];
  change (nonspace_c "-") with true;
  change (is_alpha "-") with false;
  change (is_digit "-") with false;
  cbn [andb orb];
  repeat first
    [ rewrite all_slice by exact Hd
    | rewrite all_drop by exact Hd
    | rewrite digits_nonspace by (first [apply all_slice | apply all_drop]; exact Hd)
    | rewrite digits_no_alpha by (first [apply all_slice | apply all_drop]; exact Hd)
    | rewrite (filter_all is_digit) by (first [apply all_slice | apply all_drop]; exact Hd) ].

Lemma canonical3_facts (D : string) :
  Str.all is_digit D = true ->
  stripped (canonical3 D) = canonical3 D
  /\ Str.any is_alpha (canonical3 D) = false
  /\ digits_of (canonical3 D)
     = Str.slice 0 2 D ++ Str.slice 2 5 D ++ Str.slice 5 10 D.
Proof.
  intros Hd. unfold canonical3, stripped, digits_of. repeat split.
  - apply filter_all. rewrite !all_app. digit_groups Hd. reflexivity.
  - rewrite !any_app. digit_groups Hd. reflexivity.
  - rewrite !filter_app. digit_groups Hd. reflexivity.
Qed.

Lemma canonical5_facts (D : string) :
  Str.all is_digit D = true ->
  stripped (canonical5 D) = canonical5 D
  /\ Str.any is_alpha (canonical5 D) = false
  /\ digits_of (canonical5 D)
     = Str.slice 0 2 D ++ Str.slice 2 5 D ++ Str.slice 5 10 D
         ++ Str.slice 10 12 D ++ Str.slice 12 14 D.
Proof.
  intros Hd. unfold canonical5, stripped, digits_of. repeat split.
  - apply filter_all. rewrite !all_app. digit_groups Hd. reflexivity.
  - rewrite !any_app. digit_groups Hd. reflexivity.
  - rewrite !filter_app. digit_groups Hd. reflexivity.
Qed.

Lemma dashed3 (a b c : string) : dashed [a; b; c] = a ++ "-" ++ b ++ "-" ++ c.
Proof. reflexivity. Qed.

Lemma dashed5 (a b c d e : string) :
  dashed [a; b; c; d; e] = a ++ "-" ++ b ++ "-" ++ c ++ "-" ++ d ++ "-" ++ e.
Proof. reflexivity. Qed.

Lemma normalize_api_10 (raw : string) :
  Str.any is_alpha (stripped raw) = false ->
  String.length (digits_of raw) = 10%nat ->
  _normalize_api raw = Some (canonical3 (digits_of raw)).
Proof.
  intros Ha Hl. rewrite normalize_api_unfold, Ha. cbv zeta. rewrite Hl.
  cbn [Nat.ltb Nat.leb Nat.eqb]. now rewrite dashed3.
Qed.

Lemma normalize_api_14 (raw : string) :
  Str.any is_alpha (stripped raw) = false ->
  String.length (digits_of raw) = 14%nat ->
  _normalize_api raw = Some (canonical5 (digits_of raw)).
Proof.
  intros Ha Hl. rewrite normalize_api_unfold, Ha. cbv zeta. rewrite Hl.
  cbn [Nat.ltb Nat.leb Nat.eqb]. now rewrite dashed5, (drop12_slice _ Hl).
Qed.

Lemma normalize_canonical3 (D : string) :
  Str.all is_digit D = true -> String.length D = 10%nat ->
  _normalize_api (canonical3 D) = Some (canonical3 D).
Proof.
  intros Hd Hl. destruct (canonical3_facts D Hd) as (Hs & Ha & Hg).
  rewrite regroup3 in Hg by exact Hl.
  rewrite normalize_api_10; rewrite ?Hs, ?Hg; auto.
Qed.

Lemma normalize_canonical5 (D : string) :
  Str.all is_digit D = true -> String.length D = 14%nat ->
  _normalize_api (canonical5 D) = Some (canonical5 D).
Proof.
  intros Hd Hl. destruct (canonical5_facts D Hd) as (Hs & Ha & Hg).
  rewrite regroup5 in Hg by exact Hl.
  rewrite normalize_api_14; rewrite ?Hs, ?Hg; auto.
Qed.

(** ** API normalization (C2, C7) *)

(** C2, as amended: for a candidate without letters whose digit count is
    neither 10 nor 14, normalization returns the whitespace-stripped text
    unchanged when it has at least 8 digits, and nothing when it has fewer
    than 8. *)
Theorem C2_other_digit_counts (raw : string) :
  Str.any is_alpha (stripped raw) = false ->
  String.length (digits_of raw) <> 10%nat ->
  String.length (digits_of raw) <> 14%nat ->
  ((8 <= String.length (digits_of raw))%nat ->
     _normalize_api raw = Some (stripped raw))
  /\ ((String.length (digits_of raw) < 8)%nat -> _normalize_api raw = None).
Proof.
  intros Ha H10 H14. rewrite normalize_api_unfold, Ha. cbv zeta.
  apply Nat.eqb_neq in H10, H14. rewrite H10, H14. split; intros H.
  - now replace (String.length (digits_of raw) <? 8)%nat with false
      by (symmetry; apply Nat.ltb_ge; exact H).
  - now replace (String.length (digits_of raw) <? 8)%nat with true
      by (symmetry; apply Nat.ltb_lt; exact H).
Qed.

Lemma C2_other_digit_counts_witness :
  _normalize_api "33 05 301 23" = Some "330530123"
  /\ _normalize_api " 12 345 " = None.
Proof.
  split.
  - apply (C2_other_digit_counts "33 05 301 23");
      [reflexivity | vm_compute; lia | vm_compute; lia | vm_compute; lia].
  - apply (C2_other_digit_counts " 12 345 ");
      [reflexivity | vm_compute; lia | vm_compute; lia | vm_compute; lia].
Defined.

(** C2 as stated fails below 8 digits: seven digits and no letter, yet
    the stripped text is not returned. *)
Lemma C2_counterexample_seven_digits :
  Str.any is_alpha (stripped "1234567") = false
  /\ String.length (digits_of "1234567") = 7%nat
  /\ stripped "1234567" = "1234567"
  /\ _normalize_api "1234567" = None
  /\ _normalize_api "1234567" <> Some (stripped "1234567").
Proof. repeat split; discriminate. Qed.

(** C7: a candidate without letters and with exactly 10 digits [D] is
    normalized to [D[0:2]-D[2:5]-D[5:10]], one with exactly 14 digits to
    [D[0:2]-D[2:5]-D[5:10]-D[10:12]-D[12:14]], and normalizing either
    result again returns it unchanged. *)
Theorem C7_canonical_form (raw : string) :
  Str.any is_alpha (stripped raw) = false ->
  let D := digits_of raw in
  (String.length D = 10%nat ->
     _normalize_api raw = Some (canonical3 D)
     /\ _normalize_api (canonical3 D) = Some (canonical3 D))
  /\ (String.length D = 14%nat ->
     _normalize_api raw = Some (canonical5 D)
     /\ _normalize_api (canonical5 D) = Some (canonical5 D)).
Proof.
  intros Ha D.
  assert (Hd : Str.all is_digit D = true) by apply all_filter.
  split; intros Hl; split.
  - now apply normalize_api_10.
  - now apply normalize_canonical3.
  - now apply normalize_api_14.
  - now apply normalize_canonical5.
Qed.

Lemma C7_canonical_form_witness :
  (_normalize_api "33 053 01234" = Some "33-053-01234"
   /\ _normalize_api "33-053-01234" = Some "33-053-01234")
  /\ (_normalize_api "3305301234 00 00" = Some "33-053-01234-00-00"
      /\ _normalize_api "33-053-01234-00-00" = Some "33-053-01234-00-00").
Proof.
  split.
  - apply (C7_canonical_form "33 053 01234"); reflexivity.
  - apply (C7_canonical_form "3305301234 00 00"); reflexivity.
Defined.

(** ** Soundness of the matcher *)

Section Soundness.
Context {R : Type}.

Lemma iter_app step (m n : nat) : forall st st1 st2,
  iter m step st st1 -> iter n step st1 st2 -> iter (m + n) step st st2.
Proof.
  induction m as [|m IH]; intros st st1 st2 H1 H2.
  - simpl in H1. now subst.
  - destruct H1 as (s & Hs & H1). exists s. split; [exact Hs|]. eauto.
Qed.

Lemma rep_must_sound (one : mstate -> (mstate -> option R) -> option R)
    step (n : nat) :
  sound one step ->
  forall st k x, rep_must one n st k = Some x ->
    exists st', iter n step st st' /\ k st' = Some x.
Proof.
  intros Hone. induction n as [|n IH]; intros st k x H.
  - exists st. split; [reflexivity | exact H].
  - cbn [rep_must] in H. apply Hone in H as (st1 & Hs & H).
    apply IH in H as (st' & Hi & H).
    exists st'. split; [|exact H]. exists st1. now split.
Qed.

Lemma rep_may_sound (one : mstate -> (mstate -> option R) -> option R)
    step greedy (n : nat) :
  sound one step ->
  forall st k x, rep_may one greedy n st k = Some x ->
    exists m st', iter m step st st' /\ k st' = Some x.
Proof.
  intros Hone. induction n as [|n IH]; intros st k x H.
  - exists O, st. split; [reflexivity | exact H].
  - cbn [rep_may] in H.
    assert (Hmore : forall y,
      one st (fun st1 => if advanced st st1 then rep_may one greedy n st1 k else None)
        = Some y ->
      exists m st', iter m step st st' /\ k st' = Some y).
    { intros y Hy. apply Hone in Hy as (st1 & Hs & Hy).
      destruct (advanced st st1); [|discriminate].
      apply IH in Hy as (m & st' & Hi & Hy).
      exists (S m), st'. split; [|exact Hy]. exists st1. now split. }
    destruct greedy.
    + destruct (one st _) as [y|] eqn:E.
      * injection H as <-. now apply Hmore.
      * exists O, st. split; [reflexivity | exact H].
    + destruct (k st) as [y|] eqn:E.
      * injection H as <-. exists O, st. split; [reflexivity | exact E].
      * now apply Hmore.
Qed.

Lemma run_sound (r : regex) : sound (R := R) (run r) (sem r).
Proof.
  induction r as [|p|a IHa b IHb|a IHa b IHb|g lo hi a IHa|n a IHa|m|m|];
    intros st k x H; cbn [run] in H.
  - exists st. now split.
  - destruct st as [pv rs cs]. cbn [rest caps] in H.
    destruct rs as [|c s']; [discriminate|].
    destruct (p c) eqn:E; [|discriminate].
    eexists. split; [|exact H]. exists c. cbn. auto.
  - apply IHa in H as (st1 & Ha & H). apply IHb in H as (st' & Hb & H).
    exists st'. split; [|exact H]. exists st1. now split.
  - destruct (run a st k) as [y|] eqn:E.
    + injection H as <-. apply IHa in E as (st' & Ha & E).
      exists st'. split; [now left | exact E].
    + apply IHb in H as (st' & Hb & H).
      exists st'. split; [now right | exact H].
  - apply (rep_must_sound _ _ _ IHa) in H as (st1 & H1 & H).
    apply (rep_may_sound _ _ _ _ IHa) in H as (m & st' & H2 & H).
    exists st'. split; [|exact H].
    exists (lo + m)%nat. split; [lia|]. eapply iter_app; eassumption.
  - apply IHa in H as (st1 & Ha & H).
    eexists. split; [|exact H]. exists st1. now split.
  - destruct (at_bol m st) eqn:E; [|discriminate]. exists st. now split.
  - destruct (at_eol m st) eqn:E; [|discriminate]. exists st. now split.
  - destruct (at_wordb st) eqn:E; [|discriminate]. exists st. now split.
Qed.
End Soundness.

Lemma attempt_sound r must p s st1 :
  attempt r must p s = Some st1 -> sem r (MState p s []) st1.
Proof.
  unfold attempt. intros H. apply run_sound in H as (st' & Hs & H).
  destruct (must && _); [discriminate|]. now injection H as <-.
Qed.

Lemma search_from_sound r (s : string) : forall p pos m,
  search_from r p s pos = Some m ->
  exists p' s' st1, sem r (MState p' s' []) st1 /\ m_caps m = caps st1.
Proof.
  induction s as [|c s IH]; intros p pos m H; cbn [search_from] in H.
  - destruct (attempt r false p "") as [st1|] eqn:E; [|discriminate].
    injection H as <-. apply attempt_sound in E. eauto.
  - destruct (attempt r false p (String c s)) as [st1|] eqn:E.
    + injection H as <-. apply attempt_sound in E. eauto.
    + eapply IH, H.
Qed.

Lemma search_sound r s m :
  Re.search r s = Some m ->
  exists p' s' st1, sem r (MState p' s' []) st1 /\ m_caps m = caps st1.
Proof. apply search_from_sound. Qed.

Lemma rmatch_sound r s m :
  Re.rmatch r s = Some m ->
  exists st1, sem r (MState None s []) st1 /\ m_caps m = caps st1.
Proof.
  unfold rmatch. destruct (attempt r false None s) as [st1|] eqn:E; [|discriminate].
  intros [= <-]. apply attempt_sound in E. eauto.
Qed.

(* the text passed over *)
Lemma iter_groupless_aux step (n : nat) :
  (forall st st', step st st' -> caps st' = caps st) ->
  forall st st', iter n step st st' -> caps st' = caps st.
Proof.
  intros Hs. induction n as [|n IH]; intros st st' H.
  - simpl in H. now subst.
  - destruct H as (st1 & H1 & H). rewrite (IH _ _ H). now apply Hs.
Qed.

Lemma sem_groupless (r : regex) :
  groupless r = true -> forall st st', sem r st st' -> caps st' = caps st.
Proof.
  induction r as [|p|a IHa b IHb|a IHa b IHb|g lo hi a IHa|n a IHa|m|m|];
    cbn [groupless sem]; intros Hg st st' H.
  - now subst.
  - now destruct H as (c & _ & _ & _ & H).
  - apply andb_prop in Hg as [Ha Hb]. destruct H as (st1 & H1 & H2).
    rewrite (IHb Hb _ _ H2). now apply IHa.
  - apply andb_prop in Hg as [Ha Hb]. destruct H as [H|H]; auto.
  - destruct H as (n & _ & H). eapply iter_groupless_aux; [|exact H]. auto.
  - discriminate.
  - now destruct H as [-> _].
  - now destruct H as [-> _].
  - now destruct H as [-> _].
Qed.

Lemma append_assoc (a b c : string) : (a ++ b) ++ c = a ++ b ++ c.
Proof.
  induction a as [|x a IH]; [reflexivity|].
  change (String x ((a ++ b) ++ c) = String x (a ++ b ++ c)). now rewrite IH.
Qed.

Lemma iter_passes step (n : nat) :
  (forall st st', step st st' -> exists t, passes t st st') ->
  forall st st', iter n step st st' -> exists t, passes t st st'.
Proof.
  intros Hs. induction n as [|n IH]; intros st st' H.
  - simpl in H. subst. now exists "".
  - destruct H as (st1 & H1 & H). apply Hs in H1 as (t1 & H1).
    apply IH in H as (t2 & H2). exists (t1 ++ t2).
    unfold passes in *. now rewrite H1, H2, append_assoc.
Qed.

Lemma sem_passes (r : regex) :
  forall st st', sem r st st' -> exists t, passes t st st'.
Proof.
  induction r as [|p|a IHa b IHb|a IHa b IHb|g lo hi a IHa|n a IHa|m|m|];
    cbn [sem]; intros st st' H.
  - subst. now exists "".
  - destruct H as (c & H & _). exists (String c ""). exact H.
  - destruct H as (st1 & H1 & H2).
    apply IHa in H1 as (t1 & H1). apply IHb in H2 as (t2 & H2).
    exists (t1 ++ t2). unfold passes in *. now rewrite H1, H2, append_assoc.
  - destruct H as [H|H]; auto.
  - destruct H as (n & _ & H). eapply iter_passes; [|exact H]. auto.
  - destruct H as (st1 & H1 & ->). apply IHa in H1 as (t & H1). now exists t.
  - destruct H as [-> _]. now exists "".
  - destruct H as [-> _]. now exists "".
  - destruct H as [-> _]. now exists "".
Qed.

Lemma take_append (t u : string) : Str.take (String.length t) (t ++ u) = t.
Proof.
  induction t as [|c t IH]; [now destruct u|].
  rewrite append_cons. cbn [String.length Str.take]. now rewrite IH.
Qed.

Lemma consumed_passes t st st' : passes t st st' -> consumed st st' = t.
Proof.
  unfold passes, consumed. intros ->. rewrite length_append.
  replace (String.length t + String.length (rest st') - String.length (rest st'))%nat
    with (String.length t) by lia.
  apply take_append.
Qed.

Lemma iter_class p (n : nat) : forall st st',
  iter n (sem (Chr p)) st st' ->
  exists t, passes t st st' /\ String.length t = n /\ Str.all p t = true.
Proof.
  induction n as [|n IH]; intros st st' H.
  - simpl in H. subst. now exists "".
  - destruct H as (st1 & (c & Hc & Hp & _) & H).
    apply IH in H as (t & Ht & Hl & Ha).
    exists (String c t). unfold passes in *. rewrite Hc, Ht.
    cbn [String.length Str.all]. rewrite Hp, Ha, Hl. auto.
Qed.

(** A group around a repetition of a class captures a text of the class,
    at least [lo] long. *)
Lemma sem_group_class n g lo hi p st st' :
  sem (Grp n (Rep g lo hi (Chr p))) st st' ->
  exists t, caps st' = (n, t) :: caps st
    /\ (lo <= String.length t)%nat /\ Str.all p t = true.
Proof.
  intros (st1 & (k & Hk & Hi) & ->).
  pose proof (sem_groupless (Rep g lo hi (Chr p)) eq_refl st st1) as Hc.
  rewrite Hc by (exists k; auto).
  apply iter_class in Hi as (t & Ht & Hl & Ha).
  exists t. cbn [caps]. rewrite (consumed_passes _ _ _ Ht). 
  repeat split; [lia | exact Ha].
Qed.

Lemma sem_group_caps n a st st' :
  sem (Grp n a) st st' -> groupless a = true ->
  exists t, caps st' = (n, t) :: caps st.
Proof.
  intros (st1 & H & ->) Hg. eexists. cbn [caps].
  now rewrite (sem_groupless a Hg _ _ H).
Qed.

Lemma stim_row_stages (line : string) (sm : matched) :
  Re.search _STIM_ROW line = Some sm ->
  exists t, group 5 sm = Some t
    /\ Str.truthy t = true /\ Str.all is_digit t = true.
Proof.
  intros H. apply search_sound in H as (p & s & st1 & H & Hc).
  unfold group. rewrite Hc. clear Hc sm. unfold _STIM_ROW in H.
  destruct H as (s1 & _ & s2 & _ & s3 & _ & s4 & _ & s5 & _
                 & s6 & _ & s7 & _ & s8 & _ & s9 & H5 & s10 & H5s
                 & s11 & H6 & s12 & H6s & H7).
  apply sem_group_class in H5 as (t & Ht & Hl & Ha).
  apply (sem_groupless (plus space) eq_refl) in H5s.
  apply sem_group_caps in H6 as (t6 & H6); [|reflexivity].
  apply (sem_groupless (plus space) eq_refl) in H6s.
  apply sem_group_caps in H7 as (t7 & H7); [|reflexivity].
  exists t. rewrite H7, H6s, H6, H5s, Ht. cbn [lookup_cap Nat.eqb].
  repeat split; [|exact Ha]. destruct t; [simpl in Hl; lia | reflexivity].
Qed.

Lemma draft_converts (line : string) (sm : matched) :
  Re.search _STIM_ROW line = Some sm ->
  (String.length (group_text 5 sm) <= Num.max_str_digits)%nat ->
  exists rec, draft sm = Ok rec.
Proof.
  intros H Hl. apply stim_row_stages in H as (t & Hg & Ht & Hd).
  unfold draft. unfold group_text in Hl |- *. rewrite Hg in Hl |- *.
  cbn [default from_option id] in Hl |- *.
  unfold Num.int_of. rewrite Ht, Hd. apply Nat.leb_le in Hl. rewrite Hl.
  cbn [andb mbind result_bind]. eauto.
Qed.

Lemma draft_over_limit (sm : matched) :
  (Num.max_str_digits < String.length (group_text 5 sm))%nat ->
  draft sm = Raise ValueError.
Proof.
  intros Hl. unfold draft, Num.int_of.
  apply Nat.leb_gt in Hl. rewrite Hl, !andb_false_r. reflexivity.
Qed.

Lemma draft_outcome (sm : matched) :
  (exists rec, draft sm = Ok rec) \/ draft sm = Raise ValueError.
Proof.
  unfold draft, Num.int_of.
  destruct (_ && _ && _); cbn [mbind result_bind]; eauto.
Qed.

(** ** The stimulation parser (C4, C5) *)

Lemma skip_blank_suffix (ls : list string) :
  exists skipped, ls = (skipped ++ skip_blank ls)%list
    /\ Forall (fun l => is_blank l = true) skipped.
Proof.
  induction ls as [|l ls (sk & E & F)]; [now exists []|].
  cbn [skip_blank]. destruct (is_blank l) eqn:B.
  - exists (l :: sk). split; [cbn; congruence | now constructor].
  - now exists [].
Qed.

Lemma skip_blank_or_header_spec (ls : list string) :
  exists skipped, ls = (skipped ++ skip_blank_or_header ls)%list
    /\ Forall blank_or_header skipped
    /\ match skip_blank_or_header ls with
       | d :: _ => is_blank d = false /\ Re.found _STIM_HDR d = false
       | [] => True
       end.
Proof.
  induction ls as [|l ls (sk & E & F & Hd)].
  - exists []. repeat split. constructor.
  - cbn [skip_blank_or_header]. destruct (is_blank l) eqn:B; cbn [orb].
    + exists (l :: sk). split; [cbn; congruence|].
      split; [constructor; [now left | exact F] | exact Hd].
    + destruct (Re.found _STIM_HDR l) eqn:H.
      * exists (l :: sk). split; [cbn; congruence|].
        split; [constructor; [now right | exact F] | exact Hd].
      * exists []. split; [reflexivity|]. split; [constructor | now split].
Qed.

Lemma skip_blank_or_header_suffix (ls : list string) :
  exists skipped, ls = (skipped ++ skip_blank_or_header ls)%list.
Proof.
  destruct (skip_blank_or_header_spec ls) as (sk & E & _). now exists sk.
Qed.


Lemma skip_blank_length (ls : list string) :
  (List.length (skip_blank ls) <= List.length ls)%nat.
Proof.
  destruct (skip_blank_suffix ls) as (sk & E & _).
  rewrite E at 2. rewrite length_app. lia.
Qed.

Lemma skip_blank_or_header_length (ls : list string) :
  (List.length (skip_blank_or_header ls) <= List.length ls)%nat.
Proof.
  destruct (skip_blank_or_header_suffix ls) as (sk & E).
  rewrite E at 2. rewrite length_app. lia.
Qed.

Lemma body_total (fuel : nat) : forall lines rec dp ind,
  (List.length lines < fuel)%nat ->
  exists rec' dp' rest,
    body fuel lines rec dp ind = Ok (rec', dp', rest)
    /\ (List.length rest <= List.length lines)%nat.
Proof.
  induction fuel as [|fuel IH]; intros lines rec dp ind Hf; [lia|].
  cbn [body]. destruct lines as [|ln lines]; [now eauto 6|].
  cbn [List.length] in Hf.
  destruct (Re.found _STIM_HDR ln); [now eauto 6|].
  destruct (Re.found _TREAT_HDR ln).
  - pose proof (skip_blank_length lines) as Hs.
    destruct (skip_blank lines) as [|tl lines'].
    + destruct (IH [] rec dp ind) as (r & d & rest & E & Hl); [cbn; lia|].
      rewrite E. exists r, d, rest. split; [reflexivity | cbn in *; lia].
    + cbn [List.length] in Hs.
      destruct (IH lines' (treatment_line rec tl) dp ind)
        as (r & d & rest & E & Hl); [lia|].
      rewrite E. exists r, d, rest. split; [reflexivity | cbn; lia].
  - destruct (Re.found _DETAILS ln).
    + destruct (IH lines rec dp true) as (r & d & rest & E & Hl); [lia|].
      rewrite E. exists r, d, rest. split; [reflexivity | cbn; lia].
    + match goal with |- context [body fuel lines rec ?dp' ind] =>
        destruct (IH lines rec dp' ind) as (r & d & rest & E & Hl); [lia|]
      end.
      rewrite E. exists r, d, rest. split; [reflexivity | cbn; lia].
Qed.

(** The lines the inner loop leaves are the last lines of its input. *)
Lemma body_rest (fuel : nat) : forall lines rec dp ind rec' dp' rest,
  body fuel lines rec dp ind = Ok (rec', dp', rest) ->
  exists used, lines = (used ++ rest)%list.
Proof.
  induction fuel as [|fuel IH]; intros lines rec dp ind rec' dp' rest;
    [discriminate|].
  cbn [body]. destruct lines as [|ln lines].
  { intros [= _ _ <-]. now exists []. }
  destruct (Re.found _STIM_HDR ln).
  { intros [= _ _ <-]. now exists []. }
  destruct (Re.found _TREAT_HDR ln).
  - destruct (skip_blank_suffix lines) as (sk & E & _).
    destruct (skip_blank lines) as [|tl lines'].
    + intros H. apply IH in H as (used & Hu).
      destruct used; [|discriminate]. cbn [app] in Hu. subst rest.
      exists (ln :: lines). now rewrite app_nil_r.
    + intros H. apply IH in H as (used & Hu).
      exists (ln :: sk ++ tl :: used)%list. rewrite E, Hu.
      cbn [app]. now rewrite <- app_assoc.
  - destruct (Re.found _DETAILS ln); intros H;
      apply IH in H as (used & ->); now exists (ln :: used).
Qed.

(** The loops end, and [int] is all that can raise. *)
Lemma scan_outcome (fuel : nat) : forall lines records,
  (List.length lines < fuel)%nat ->
  (exists recs, scan fuel lines records = Ok recs)
  \/ scan fuel lines records = Raise ValueError.
Proof.
  induction fuel as [|fuel IH]; intros lines records Hf; [lia|].
  cbn [scan]. destruct lines as [|line lines]; [now eauto|].
  cbn [List.length] in Hf.
  destruct (Re.found _STIM_HDR line); cbn [negb]; [|apply IH; lia].
  pose proof (skip_blank_or_header_length lines) as Hs.
  destruct (skip_blank_or_header lines) as [|data_line lines']; [now eauto|].
  cbn [List.length] in Hs.
  destruct (Re.search _STIM_ROW data_line) as [sm|] eqn:E; [|apply IH; lia].
  destruct (draft_outcome sm) as [(rec & ->)| ->]; cbn [mbind result_bind];
    [|now right].
  destruct (body_total fuel lines' rec [] false) as (r & d & rest & -> & Hl);
    [lia|].
  apply IH. lia.
Qed.

Lemma scan_converts (fuel : nat) : forall lines records,
  Forall stages_convert lines -> (List.length lines < fuel)%nat ->
  exists recs, scan fuel lines records = Ok recs.
Proof.
  induction fuel as [|fuel IH]; intros lines records Hc Hf; [lia|].
  cbn [scan]. destruct lines as [|line lines]; [now eauto|].
  cbn [List.length] in Hf. apply Forall_cons in Hc as [_ Hc].
  destruct (Re.found _STIM_HDR line); cbn [negb]; [|apply IH; [exact Hc | lia]].
  pose proof (skip_blank_or_header_length lines) as Hs.
  destruct (skip_blank_or_header_suffix lines) as (sk & Es).
  destruct (skip_blank_or_header lines) as [|data_line lines']; [now eauto|].
  cbn [List.length] in Hs.
  rewrite Es in Hc. apply Forall_app in Hc as [_ Hc].
  apply Forall_cons in Hc as [Hd Hc].
  destruct (Re.search _STIM_ROW data_line) as [sm|] eqn:E;
    [|apply IH; [exact Hc | lia]].
  destruct (draft_converts _ _ E (Hd _ E)) as (rec & ->).
  cbn [mbind result_bind].
  destruct (body_total fuel lines' rec [] false) as (r & d & rest & Hb & Hl);
    [lia|].
  rewrite Hb. destruct (body_rest _ _ _ _ _ _ _ _ Hb) as (used & Hu).
  apply IH; [|lia]. rewrite Hu in Hc. now apply Forall_app in Hc as [_ Hc].
Qed.

Lemma no_row_follows_suffix (used rest : list string) :
  no_row_follows (used ++ rest) -> no_row_follows rest.
Proof.
  intros H pre hdr skipped d post E.
  apply (H (used ++ pre)%list hdr skipped d post).
  rewrite E. apply app_assoc.
Qed.

Lemma scan_no_rows (fuel : nat) : forall lines records,
  no_row_follows lines -> (List.length lines < fuel)%nat ->
  scan fuel lines records = Ok records.
Proof.
  induction fuel as [|fuel IH]; intros lines records Hr Hf; [lia|].
  cbn [scan]. destruct lines as [|line lines]; [reflexivity|].
  cbn [List.length] in Hf.
  destruct (Re.found _STIM_HDR line) eqn:Hh; cbn [negb].
  2:{ apply IH; [|lia]. apply (no_row_follows_suffix [line]). exact Hr. }
  destruct (skip_blank_or_header_spec lines) as (sk & Es & Hsk & Hd).
  destruct (skip_blank_or_header lines) as [|d lines']; [reflexivity|].
  destruct Hd as [Hb Hn].
  rewrite (Hr [] line sk d lines');
    [| cbn [app]; now rewrite <- Es | exact Hh | exact Hsk | exact Hb | exact Hn].
  apply IH.
  - apply (no_row_follows_suffix (line :: sk ++ [d])).
    cbn [app]. rewrite <- app_assoc. cbn [app]. now rewrite <- Es.
  - rewrite Es, length_app in Hf. cbn [List.length] in Hf. lia.
Qed.

(** X22: [parse_stimulation] raises nothing but [ValueError], so its
    loops end on every page; it returns a record list when the stage
    count of the row found in any line is a text that [int] converts;
    and the list is empty when no header is followed by a row, that is,
    when the first line after a header that is neither blank nor a
    header fails the row grammar. *)
Theorem parse_stimulation_outcome (page_text : string) :
  ((exists recs, parse_stimulation page_text = Ok recs)
   \/ parse_stimulation page_text = Raise ValueError)
  /\ (Forall stages_convert (Py.splitlines page_text) ->
      exists recs, parse_stimulation page_text = Ok recs)
  /\ (no_row_follows (Py.splitlines page_text) ->
      parse_stimulation page_text = Ok []).
Proof.
  unfold parse_stimulation, parse_lines. split; [apply scan_outcome; lia|].
  split; intros H.
  - apply scan_converts; [exact H | lia].
  - apply scan_no_rows; [exact H | lia].
Qed.

Lemma parse_stimulation_outcome_witness :
  parse_stimulation headed_page = Ok [].
Proof.
  apply (parse_stimulation_outcome headed_page).
  assert (S : Py.splitlines headed_page = ["Date Stimulated  Formation"; "not a row"])
    by (vm_compute; reflexivity).
  assert (R : Re.search _STIM_ROW "not a row" = None) by (vm_compute; reflexivity).
  assert (N : Re.found _STIM_HDR "not a row" = false) by (vm_compute; reflexivity).
  rewrite S. intros pre hdr skipped d post E Hh Hsk Hb Hn.
  destruct pre as [|p0 pre]; cbn [app] in E.
  - injection E as <- E. destruct skipped as [|s0 skipped]; cbn [app] in E.
    + injection E as <- _. exact R.
    + injection E as _ E. destruct skipped; discriminate E.
  - injection E as _ E. destruct pre as [|p1 pre]; cbn [app] in E.
    + injection E as <- E. destruct skipped; discriminate E.
    + injection E as _ E. destruct pre; discriminate E.
Defined.

(** C5: on the page whose data row has a stage count of 4301 digits the
    row matches the grammar, [int] refuses the stage count, and the
    parser raises [ValueError]. *)
Theorem C5_stage_count_over_limit :
  parse_stimulation long_stages_page = Raise ValueError.
Proof. vm_compute. reflexivity. Qed.











Lemma section8_parsed : parse_stimulation section8_page = Ok [section8_record].
Proof. vm_compute. reflexivity. Qed.

(** One number is present when one of the two leading tokens is no
    number. *)
Example one_present_number :
  exists tm, Re.rmatch _TREAT_ROW "Sand Frac , 500" = Some tm
    /\ non_none (treatment_nums tm) = [Num.of_Z 500].
Proof.
  eexists. split; [vm_compute; reflexivity|]. vm_compute. reflexivity.
Qed.




(** ** The degree-minute-second conversion (C8) *)

Lemma digit_not_dot (c : ascii) : is_digit c = true -> eqc c "." = false.
Proof.
  destruct c as [[] [] [] [] [] [] [] []]; vm_compute; intros H;
    try discriminate H; reflexivity.
Qed.

Lemma split_dot_digits (t : string) :
  Str.all is_digit t = true -> Num.split_dot t = (t, None).
Proof.
  induction t as [|c t IH]; [reflexivity|]. cbn [Str.all Num.split_dot].
  intros H. apply andb_prop in H as [Hc Ht].
  now rewrite (digit_not_dot c Hc), (IH Ht).
Qed.

(** [float] accepts every non-empty text of digits. *)
Lemma float_of_digits (t : string) :
  Str.truthy t = true -> Str.all is_digit t = true ->
  exists x, Num.float_of t = Ok x.
Proof.
  intros Ht Hd. unfold Num.float_of.
  rewrite (split_dot_digits t Hd). cbn [default from_option id].
  rewrite Hd, Ht. cbn [Str.all andb orb].
  destruct (Num.digits_val 0 (t ++ "")); eauto.
Qed.

Lemma nonempty_truthy (t : string) :
  (1 <= String.length t)%nat -> Str.truthy t = true.
Proof. destruct t; [simpl; lia | reflexivity]. Qed.

(** The degrees and the minutes of a match are non-empty digit texts. *)
Lemma dms_groups (s : string) (m : matched) :
  Re.rmatch _DMS s = Some m ->
  exists t1 t2,
    group 1 m = Some t1 /\ group 2 m = Some t2
    /\ Str.truthy t1 = true /\ Str.all is_digit t1 = true
    /\ Str.truthy t2 = true /\ Str.all is_digit t2 = true.
Proof.
  intros H. apply rmatch_sound in H as (st1 & H & Hc).
  unfold group. rewrite Hc. clear Hc m. unfold _DMS in H.
  destruct H as (s1 & H1 & s2 & G1 & s3 & G2 & s4 & G3 & s5 & H2
                 & s6 & G4 & s7 & G5 & s8 & H3 & s9 & G6 & H4).
  apply sem_group_class in H1 as (t1 & E1 & L1 & A1).
  apply sem_group_class in H2 as (t2 & E2 & L2 & A2).
  apply (sem_groupless (star space) eq_refl) in G1, G3, G5, G6.
  apply (sem_groupless (chr degree) eq_refl) in G2.
  apply (sem_groupless (chr "'") eq_refl) in G4.
  apply sem_group_caps in H3 as (t3 & E3); [|reflexivity].
  apply sem_group_caps in H4 as (t4 & E4); [|reflexivity].
  exists t1, t2.
  rewrite E4, G6, E3, G5, G4, E2, G3, G2, G1, E1. cbn [lookup_cap Nat.eqb].
  repeat split; auto using nonempty_truthy.
Qed.

Lemma dms_examples :
  _dms_to_decimal dms_lat = Ok (Some f47_5)
  /\ _dms_to_decimal dms_lon = Ok (Some (Num.opp f101_25))
  /\ Num.float_of "47.5" = Ok f47_5
  /\ Num.float_of "101.25" = Ok f101_25.
Proof. repeat split; vm_compute; reflexivity. Qed.

(** The seconds of a matched text need not be a number; the conversion
    then raises. *)
Example dms_seconds_value_error :
  _dms_to_decimal dms_bad_seconds = Raise ValueError.
Proof. vm_compute. reflexivity. Qed.

(** C8, as amended: for every text the degree-minute-second grammar of
    the code matches (degrees, the degree sign, minutes, an apostrophe,
    seconds, then the hemisphere letter with no seconds mark before it)
    and whose seconds are a number, the degrees and minutes are numbers
    too and the conversion yields degrees + minutes/60 + seconds/3600,
    negated exactly for the letters S and W, rounded to seven places;
    [47° 30' 0 N] converts to 47.5 and [101° 15' 0 W] to -101.25. *)
Theorem C8_dms_conversion (dms_str : string) (m : matched) (secs : Num.float) :
  Re.rmatch _DMS (Str.strip dms_str) = Some m ->
  Num.float_of (group_text 3 m) = Ok secs ->
  (exists deg mins,
     Num.float_of (group_text 1 m) = Ok deg
     /\ Num.float_of (group_text 2 m) = Ok mins
     /\ _dms_to_decimal dms_str
        = Ok (Some (dms_value (hemisphere m) deg mins secs)))
  /\ _dms_to_decimal dms_lat = Ok (Some f47_5)
  /\ _dms_to_decimal dms_lon = Ok (Some (Num.opp f101_25))
  /\ Num.float_of "47.5" = Ok f47_5
  /\ Num.float_of "101.25" = Ok f101_25.
Proof.
  intros Hm Hs. split; [|exact dms_examples].
  destruct (dms_groups _ _ Hm) as (t1 & t2 & E1 & E2 & T1 & D1 & T2 & D2).
  destruct (float_of_digits t1 T1 D1) as (deg & Hdeg).
  destruct (float_of_digits t2 T2 D2) as (mins & Hmins).
  unfold group_text in *. rewrite E1, E2. cbn [default from_option id].
  exists deg, mins. split; [exact Hdeg|]. split; [exact Hmins|].
  unfold _dms_to_decimal. rewrite Hm. unfold group_text.
  rewrite E1, E2. cbn [default from_option id].
  rewrite Hdeg, Hmins. cbn [mbind result_bind]. rewrite Hs.
  reflexivity.
Qed.

Lemma C8_dms_conversion_witness :
  exists deg mins,
    Num.float_of "101" = Ok deg /\ Num.float_of "15" = Ok mins
    /\ _dms_to_decimal dms_lon
       = Ok (Some (dms_value "W" deg mins (S754_zero false))).
Proof.
  destruct (Re.rmatch _DMS (Str.strip dms_lon)) as [m|] eqn:Hm;
    [|vm_compute in Hm; discriminate Hm].
  assert (Hs : Num.float_of (group_text 3 m) = Ok (S754_zero false)).
  { vm_compute in Hm. injection Hm as <-. vm_compute. reflexivity. }
  destruct (proj1 (C8_dms_conversion dms_lon m (S754_zero false) Hm Hs))
    as (deg & mins & Hd & Hmi & Hr).
  exists deg, mins.
  vm_compute in Hm. injection Hm as <-.
  repeat split; assumption.
Defined.

(** C8 as stated fails on its own example: with the seconds mark the
    text does not match and nothing is returned. *)
Lemma C8_counterexample_seconds_mark :
  _dms_to_decimal dms_lat_marked = Ok None
  /\ _dms_to_decimal dms_lat_marked <> Ok (Some f47_5).
Proof.
  assert (H : _dms_to_decimal dms_lat_marked = Ok None)
    by (vm_compute; reflexivity).
  split; [exact H|]. rewrite H. discriminate.
Qed.

(** ** The identity fallback (C9) *)

Lemma non_digit_delete (v : string) : Re.sub _NON_DIGIT "" v = digits_of v.
Proof.
  unfold _NON_DIGIT. rewrite sub_class_delete. unfold digits_of.
  apply filter_ext. intros c. apply negb_involutive.
Qed.

Lemma isdigit_digits (d : string) :
  Str.all is_digit d = true -> Py.isdigit d = Str.truthy d.
Proof.
  intros H. unfold Py.isdigit.
  rewrite (all_impl is_digit _ d); [apply andb_true_r | | exact H].
  intros c Hc. now rewrite Hc.
Qed.

Lemma over_limitb_spec (c : option string) :
  over_limitb c = true <-> over_limit c.
Proof.
  unfold over_limitb, over_limit. destruct c as [v|].
  - rewrite Nat.ltb_lt. split; [now exists v | now intros (w & [= <-] & H)].
  - split; [discriminate | now intros (w & [=] & _)].
Qed.

Lemma over_limitb_false (c : option string) :
  over_limitb c = false <-> ~ over_limit c.
Proof.
  rewrite <- over_limitb_spec. now destruct (over_limitb c).
Qed.

Lemma valid_well_num_run (c : option string) :
  _valid_well_num c
  = if over_limitb c then Raise ValueError else Ok (accept c).
Proof.
  unfold _valid_well_num, accept, over_limitb. destruct c as [v|]; [|reflexivity].
  cbn [is_truthy default from_option id]. rewrite non_digit_delete.
  pose proof (all_filter is_digit v) as Hd. fold (digits_of v) in Hd.
  rewrite (isdigit_digits _ Hd). unfold Num.int_of. rewrite Hd.
  rewrite (Nat.ltb_antisym (String.length (digits_of v)) Num.max_str_digits).
  destruct v as [|a v]; [reflexivity|]. cbn [Str.truthy negb].
  destruct (digits_of (String a v)) as [|b d]; [reflexivity|].
  cbn [Str.truthy andb].
  destruct (String.length (String b d) <=? Num.max_str_digits)%nat; reflexivity.
Qed.

Lemma accept_truthy (c : option string) (d : string) :
  accept c = Some d -> Str.truthy d = true.
Proof.
  unfold accept. destruct c as [v|]; [|discriminate].
  destruct (digits_of v) as [|b t]; [discriminate|].
  destruct (_ && _); [|discriminate]. now intros [= <-].
Qed.

Lemma por_m_run (c : option string) (b : result (option string)) :
  por_m (_valid_well_num c) b
  = if over_limitb c then Raise ValueError
    else match accept c with Some d => Ok (Some d) | None => b end.
Proof.
  unfold por_m. rewrite valid_well_num_run.
  destruct (over_limitb c); [reflexivity|]. cbn [mbind result_bind].
  destruct (accept c) as [d|] eqn:E; [|reflexivity].
  cbn [is_truthy]. now rewrite (accept_truthy _ _ E).
Qed.

Lemma resolve_well_number_run (merged_fields : gmap string string)
    (all_texts : list string) (pdf : string) :
  resolve_well_number merged_fields all_texts pdf
  = (wn ← first_valid (well_number_candidates merged_fields all_texts);
     Ok (default (digits_of (Py.path_stem pdf)) wn)).
Proof.
  unfold resolve_well_number, well_number_candidates.
  rewrite !por_m_run, valid_well_num_run. cbn [first_valid].
  repeat match goal with
  | |- context [over_limitb ?c] =>
    destruct (over_limitb c); [reflexivity|];
    let E := fresh "E" in
    destruct (accept c) as [?d|] eqn:E;
      [apply accept_truthy in E; cbn [mbind result_bind is_truthy negb];
       rewrite E; reflexivity |]
  end.
  cbn [mbind result_bind is_truthy negb default from_option].
  now rewrite non_digit_delete.
Qed.

(** Without an exception the number is the first accepted candidate. *)
Lemma first_valid_ok (cands : list (option string)) (o : option string) :
  first_valid cands = Ok o -> o = first_accepted cands.
Proof.
  induction cands as [|c cands IH]; cbn [first_valid first_accepted].
  - now intros [= <-].
  - destruct (over_limitb c); [discriminate|].
    destruct (accept c); [now intros [= <-] | exact IH].
Qed.

(** [int] is all that raises, on a candidate that is reached. *)
Lemma first_valid_raises (cands : list (option string)) (e : exn) :
  first_valid cands = Raise e <-> e = ValueError /\ reaches_over_limit cands.
Proof.
  induction cands as [|c cands IH]; cbn [first_valid].
  - split; [discriminate|]. intros (_ & pre & c & post & E & _).
    now destruct pre.
  - destruct (over_limitb c) eqn:Ho.
    + split.
      * intros [= <-]. split; [reflexivity|]. exists [], c, cands.
        split; [reflexivity|]. split; [constructor | now apply over_limitb_spec].
      * now intros (-> & _).
    + apply over_limitb_false in Ho. destruct (accept c) as [d|] eqn:Ea.
      * split; [discriminate|].
        intros (_ & pre & c' & post & E & Hpre & Hc').
        destruct pre as [|p pre]; cbn [app] in E; injection E as <- E.
        -- now destruct Ho.
        -- apply Forall_cons in Hpre as [[_ Hp] _]. congruence.
      * rewrite IH. split; intros (-> & pre & c' & post & E & Hpre & Hc');
          (split; [reflexivity|]).
        -- exists (c :: pre), c', post. rewrite E.
           split; [reflexivity|]. split; [|exact Hc'].
           constructor; [now split | exact Hpre].
        -- destruct pre as [|p pre]; cbn [app] in E; injection E as <- E.
           ++ now destruct Ho.
           ++ exists pre, c', post. apply Forall_cons in Hpre as [_ Hpre].
              now split.
Qed.

Lemma api_key_fallback (well_number : string) :
  api_key_of None well_number = fallback_key well_number.
Proof. reflexivity. Qed.

(** The identity part of the extracted record. *)
Lemma extract_well_row_identity (data : doc) (rec : well) :
  extract_well_row data = Ok rec ->
  let merged_fields := (collect_page_data (doc_pages data)).1 in
  let all_texts := (collect_page_data (doc_pages data)).2 in
  let wn := default (digits_of (Py.path_stem (doc_pdf_filename data)))
              (first_accepted (well_number_candidates merged_fields all_texts)) in
  well_number rec = Some wn
  /\ api_number rec = api_key_of (resolve_api merged_fields all_texts) wn.
Proof.
  unfold extract_well_row.
  destruct (collect_page_data (doc_pages data)) as [mf texts].
  rewrite resolve_well_number_run. cbn [fst snd].
  destruct (first_valid _) as [o|] eqn:Hv; [|discriminate].
  apply first_valid_ok in Hv as ->. cbn [mbind result_bind].
  destruct (_to_coord (_search _LAT_PATS _)) as [lat|]; [|discriminate].
  destruct (_to_coord (_search _LON_PATS _)) as [lon|]; [|discriminate].
  intros [= <-]. cbn. auto.
Qed.

Lemma insert_all_appends (api_key : string) (recs : list stim) :
  forall rows rows',
    insert_all api_key recs rows = Ok rows' ->
    rows' = (rows ++ List.map (StimRow api_key) recs)%list.
Proof.
  induction recs as [|rec recs IH]; intros rows rows'; cbn [insert_all].
  - intros [= <-]. now rewrite app_nil_r.
  - unfold insert_stimulation. destruct (_ && _); [|discriminate].
    cbn [mbind result_bind]. intros H. apply IH in H. rewrite H.
    now rewrite <- app_assoc.
Qed.

Lemma insert_pages_appends (api_key : string) (pages : list page) :
  forall rows rows',
    insert_pages api_key pages rows = Ok rows' ->
    exists recs,
      document_records pages = Ok recs
      /\ rows' = (rows ++ List.map (StimRow api_key) recs)%list.
Proof.
  induction pages as [|p pages IH]; intros rows rows';
    cbn [insert_pages document_records].
  - intros [= <-]. exists []. now rewrite app_nil_r.
  - destruct (_ || _); [apply IH|].
    destruct (parse_stimulation (page_text p)) as [recs|]; [|discriminate].
    cbn [mbind result_bind].
    destruct (insert_all api_key recs rows) as [rows1|] eqn:E; [|discriminate].
    cbn [mbind result_bind]. intros H.
    apply insert_all_appends in E. apply IH in H as (recs' & -> & ->).
    exists (recs ++ recs')%list. cbn [mbind result_bind].
    split; [reflexivity|]. rewrite E, List.map_app. now rewrite <- app_assoc.
Qed.

Lemma process_json_spec (data : doc) (conn conn' : db) :
  process_json data conn = Ok conn' ->
  exists w recs,
    extract_well_row data = Ok w
    /\ document_records (doc_pages data) = Ok recs
    /\ wells conn' = upsert_well w (wells conn)
    /\ stimulation conn'
       = (stimulation conn ++ List.map (StimRow (api_number w)) recs)%list.
Proof.
  unfold process_json.
  destruct (extract_well_row data) as [w|]; [|discriminate].
  cbn [mbind result_bind].
  destruct (insert_pages _ _ _) as [rows|] eqn:E; [|discriminate].
  cbn [mbind result_bind]. intros [= <-].
  apply insert_pages_appends in E as (recs & Hd & ->).
  exists w, recs. auto.
Qed.



Example unknown_key :
  exists rec, extract_well_row doc_nothing = Ok rec
    /\ api_number rec = "UNKNOWN" /\ well_number rec = Some "".
Proof. eexists. vm_compute. repeat split. Qed.

(** ** Absent fields of the extracted record (C3) *)

Lemma search_text_truthy (patterns : list regex) (text v : string) :
  search_text patterns text = Some v -> Str.truthy v = true.
Proof.
  induction patterns as [|pat pats IH]; cbn [search_text]; [discriminate|].
  destruct (Re.search pat text) as [m|]; [|exact IH].
  destruct (Str.truthy (Str.strip _)) eqn:E; [|exact IH].
  now intros [= <-].
Qed.

Lemma search_truthy (patterns : list regex) (texts : list string) (v : string) :
  _search patterns texts = Some v -> Str.truthy v = true.
Proof.
  induction texts as [|t texts IH]; cbn [_search]; [discriminate|].
  destruct (search_text patterns t) as [w|] eqn:E; [|exact IH].
  intros [= <-]. eapply search_text_truthy, E.
Qed.

Lemma search_no_empty (patterns : list regex) (texts : list string) :
  no_empty (_search patterns texts).
Proof.
  intros H. apply search_truthy in H. discriminate.
Qed.

Lemma por_no_empty (a b : option string) : no_empty b -> no_empty (por a b).
Proof.
  unfold por, no_empty. intros Hb.
  destruct a as [[|c s]|]; cbn [is_truthy Str.truthy]; auto.
Qed.

Lemma operator_of_field_no_empty (val : string) :
  no_empty (operator_of_field val).
Proof.
  unfold operator_of_field, no_empty.
  destruct (negb (Str.truthy val)); [discriminate|].
  destruct (junk_start val); [discriminate|].
  match goal with |- context [Str.truthy ?c && _ && _] =>
    destruct c as [|a s]; [discriminate|] end.
  destruct (_ && _ && _); [|discriminate].
  destruct (not_operator _); discriminate.
Qed.

Lemma operator_no_empty (pages : list page) (all_texts : list string) :
  no_empty (_first_valid_operator pages all_texts).
Proof.
  unfold _first_valid_operator.
  assert (Hp : no_empty (operator_of_pages pages)).
  { induction pages as [|p pages IH]; cbn [operator_of_pages]; [discriminate|].
    destruct (operator_of_field (default "" (page_fields p !! "Well Operator")))
      eqn:E1; [rewrite <- E1; apply operator_of_field_no_empty|].
    destruct (operator_of_field (default "" (page_fields p !! "Operator")))
      eqn:E2; [rewrite <- E2; apply operator_of_field_no_empty | exact IH]. }
  destruct (operator_of_pages pages) as [v|]; [exact Hp|].
  destruct (_search _OP_PATS all_texts) as [val|]; [|discriminate].
  destruct (_ && _ && _); [|discriminate].
  destruct (repair_case val) as [|a s]; [discriminate|].
  destruct (_ && _); discriminate.
Qed.

Lemma county_no_empty (o : option string) :
  no_empty o -> no_empty (clean_county o).
Proof.
  unfold clean_county. intros Ho.
  destruct (is_truthy o); [|exact Ho].
  match goal with |- context [Re.rmatch _COUNTY_SHAPE ?c] =>
    destruct c as [|a s]; [discriminate|] end.
  destruct (Re.rmatch _ _); discriminate.
Qed.

Lemma rev_onto_nonempty (t acc : string) :
  acc <> "" -> Str.rev_onto t acc <> "".
Proof.
  revert acc. induction t as [|d t IH]; intros acc H; [exact H|].
  cbn [Str.rev_onto]. apply IH. discriminate.
Qed.

Lemma lstrip_rev_onto (t acc : string) :
  Str.lstrip acc <> "" -> Str.lstrip (Str.rev_onto t acc) <> "".
Proof.
  revert acc. induction t as [|d t IH]; intros acc H; [exact H|].
  cbn [Str.rev_onto]. apply IH. cbn [Str.lstrip].
  destruct (is_space d); [exact H | discriminate].
Qed.

Lemma strip_head_nonspace (c : ascii) (t : string) :
  is_space c = false -> Str.strip (String c t) <> "".
Proof.
  intros Hc. unfold Str.strip, Str.rstrip. cbn [Str.lstrip]. rewrite Hc.
  unfold Str.rev at 1.
  destruct (Str.lstrip (Str.rev (String c t))) as [|a u] eqn:E.
  - exfalso. revert E. unfold Str.rev. cbn [Str.rev_onto].
    apply lstrip_rev_onto. cbn [Str.lstrip]. rewrite Hc. discriminate.
  - cbn [Str.rev_onto]. apply rev_onto_nonempty. discriminate.
Qed.

Lemma sub_nonempty (r : regex) (c : ascii) (s : string) :
  Re.sub r "NAD" (String c s) <> "".
Proof.
  unfold Re.sub, sub_with. cbn [sub_loop].
  destruct (attempt r false None (String c s)) as [st1|]; [|discriminate].
  destruct (String.length _); rewrite append_cons; discriminate.
Qed.

Lemma passes_seq (t1 t2 : string) (st st1 st2 : mstate) :
  passes t1 st st1 -> passes t2 st1 st2 -> passes (t1 ++ t2) st st2.
Proof. unfold passes. intros -> ->. now rewrite append_assoc. Qed.

(** A sequence that begins with a class consumes a text that begins with
    a character of the class. *)
Lemma sem_seq_chr_consumed p (r : regex) (st st' : mstate) :
  sem (Seq (Chr p) r) st st' ->
  exists c t, p c = true /\ consumed st st' = String c t.
Proof.
  intros (st1 & (c & Hc & Hp & _) & H).
  apply sem_passes in H as (t & Ht).
  exists c, t. split; [exact Hp|].
  apply consumed_passes. unfold passes in *. now rewrite Hc, Ht.
Qed.

Lemma datum_letter (c : ascii) :
  eqc_i "N" c = true \/ eqc_i "W" c = true -> is_space c = false.
Proof.
  destruct c as [[] [] [] [] [] [] [] []]; vm_compute; intros [H|H];
    try discriminate H; reflexivity.
Qed.

Lemma datum_code_group (s : string) (m : matched) :
  Re.rmatch _DATUM_CODE s = Some m ->
  exists c t, group 1 m = Some (String c t) /\ is_space c = false.
Proof.
  intros H. apply rmatch_sound in H as (st1 & H & Hc).
  unfold group. rewrite Hc. clear Hc m. unfold _DATUM_CODE in H.
  destruct H as (s1 & _ & s2 & (s3 & Halt & Hrest) & ->).
  cbn [caps lookup_cap Nat.eqb].
  assert (Hseq : exists p r, (forall c, p c = true -> is_space c = false)
                   /\ sem (Seq (Chr p) r) s1 s2).
  { destruct Halt as [Ha|[Ha|Ha]];
      destruct Ha as (s4 & Hc1 & Hc23);
      eexists _, (Seq _ _); (split;
        [|exists s4; split; [exact Hc1|]; exists s3; split; [exact Hc23 | exact Hrest]]);
      intros c Hc; apply datum_letter; auto. }
  destruct Hseq as (p & r & Hp & Hseq).
  apply sem_seq_chr_consumed in Hseq as (c & t & Hc & ->).
  exists c, t. split; [reflexivity | now apply Hp].
Qed.

Lemma datum_no_empty (o : option string) : no_empty (_clean_datum o).
Proof.
  unfold _clean_datum, no_empty.
  destruct (negb (is_truthy o)); [discriminate|].
  set (d := Str.strip _).
  destruct (Re.found (_NA_DATUM "1983") d); [discriminate|].
  destruct (Re.found (_NA_DATUM "1927") d); [discriminate|].
  destruct (Re.found _DATUM_UNITS d); [discriminate|].
  destruct (Re.rmatch _DATUM_CODE (Str.strip d)) as [m|] eqn:E.
  - apply datum_code_group in E as (c & t & Hg & Hc).
    unfold group_text. rewrite Hg. cbn [default from_option id].
    pose proof (strip_head_nonspace c t Hc) as Hs.
    destruct (Str.strip (String c t)) as [|a u]; [congruence|].
    intros [= H]. now apply sub_nonempty in H.
  - destruct d as [|a u]; [discriminate|].
    destruct (_ && _ && _); discriminate.
Qed.

(** The fields of the extracted record, one by one. *)
Lemma extract_well_row_fields (data : doc) (rec : well) :
  extract_well_row data = Ok rec ->
  let merged_fields := (collect_page_data (doc_pages data)).1 in
  let all_texts := (collect_page_data (doc_pages data)).2 in
  well_name rec = Some (clean_well_name (doc_well_name data))
  /\ pdf_filename rec = Some (doc_pdf_filename data)
  /\ state rec = Some "ND"
  /\ operator rec = _first_valid_operator (doc_pages data) all_texts
  /\ county rec
     = clean_county (por (merged_fields !! "County") (_search _CO_PATS all_texts))
  /\ shl_desc rec
     = por (merged_fields !! "Well Surface Hole Location (SHL)")
         (por (merged_fields !! "Surface Location")
            (por (merged_fields !! "SHL") (_search _SHL_PATS all_texts)))
  /\ (exists d, datum rec = _clean_datum d)
  /\ (exists x, latitude rec = latitude_band x)
  /\ (exists x, longitude rec = longitude_band x).
Proof.
  unfold extract_well_row.
  destruct (collect_page_data (doc_pages data)) as [mf texts].
  rewrite resolve_well_number_run. cbn [fst snd].
  destruct (first_valid _) as [o|]; [|discriminate]. cbn [mbind result_bind].
  destruct (_to_coord (_search _LAT_PATS _)) as [lat|]; [|discriminate].
  destruct (_to_coord (_search _LON_PATS _)) as [lon|]; [|discriminate].
  intros [= <-]. cbn. eauto 12.
Qed.

Lemma band_values (x : option Num.float) :
  (forall y, latitude_band x = Some y -> Num.within 45 50 y = true)
  /\ (forall y, longitude_band x = Some y -> Num.within (-105) (-96) y = true).
Proof.
  destruct x as [x|]; [|split; discriminate].
  destruct (bands_of x) as (_ & _ & Hlat & Hlon).
  split; [intros y H; now apply Hlat | exact Hlon].
Qed.

Lemma junk_names_cleared :
  clean_well_name "Location:" = ""
  /\ clean_well_name "Mud Record" = ""
  /\ clean_well_name "ATLANTA 1-6H  API: 33-105-02729" = "ATLANTA 1-6H".
Proof. repeat split; vm_compute; reflexivity. Qed.

(** C3, as amended: in the record extracted from any document the
    operator, county, surface-hole location and datum are absent or a
    non-empty text, a latitude or longitude is absent or lies in its band;
    the well name is always present as a text, the empty text standing
    for a name that was not recovered: a label-only well name such as
    [Location:] or [Mud Record] is stored as the empty text. *)
Theorem C3_absent_fields (data : doc) (rec : well) :
  extract_well_row data = Ok rec ->
  no_empty (operator rec) /\ no_empty (county rec)
  /\ no_empty (shl_desc rec) /\ no_empty (datum rec)
  /\ (forall y, latitude rec = Some y -> Num.within 45 50 y = true)
  /\ (forall y, longitude rec = Some y -> Num.within (-105) (-96) y = true)
  /\ well_name rec = Some (clean_well_name (doc_well_name data))
  /\ clean_well_name "Location:" = ""
  /\ clean_well_name "Mud Record" = "".
Proof.
  intros Hx.
  destruct (extract_well_row_fields data rec Hx)
    as (Hn & _ & _ & Ho & Hc & Hs & (d & Hd) & (x & Hlat) & (y & Hlon)).
  destruct junk_names_cleared as (J1 & J2 & _).
  rewrite Ho, Hc, Hs, Hd, Hlat, Hlon.
  repeat split; try assumption.
  - apply operator_no_empty.
  - apply county_no_empty, por_no_empty, search_no_empty.
  - repeat apply por_no_empty. apply search_no_empty.
  - apply datum_no_empty.
  - apply band_values.
  - apply band_values.
Qed.

Lemma C3_absent_fields_witness :
  exists rec,
    extract_well_row doc_number_in_filename = Ok rec
    /\ no_empty (operator rec)
    /\ well_name rec = Some "".
Proof.
  destruct (extract_well_row doc_number_in_filename) as [rec|] eqn:Hx;
    [|vm_compute in Hx; discriminate Hx].
  destruct (C3_absent_fields doc_number_in_filename rec Hx)
    as (Ho & _ & _ & _ & _ & _ & Hn & _).
  exists rec. split; [reflexivity|]. split; [exact Ho|].
  rewrite Hn. vm_compute. reflexivity.
Defined.

(** C3 as stated fails: for a document with a label-only well name the
    well name of the record is the empty text, not absent. *)
Lemma C3_counterexample_empty_texts :
  exists rec,
    extract_well_row doc_nothing = Ok rec
    /\ doc_well_name doc_nothing = "Location:"
    /\ well_name rec = Some ""
    /\ well_name rec <> None.
Proof. eexists. vm_compute. repeat split. discriminate. Qed.

(** ** The tables across documents *)

Lemma longer_name_self (n : option string) : longer_name n n = n.
Proof.
  destruct n as [s|]; [|reflexivity]. unfold longer_name.
  cbn [default from_option id]. now rewrite Nat.ltb_irrefl.
Qed.

Lemma longer_name_twice (s e : option string) :
  longer_name (longer_name s e) e = longer_name s e.
Proof.
  destruct e as [new|]; [|reflexivity]. unfold longer_name.
  destruct (sql_length (default EmptyString s) <? sql_length new)%nat eqn:E.
  - cbn [default from_option id]. now rewrite Nat.ltb_irrefl.
  - now rewrite E.
Qed.

Lemma coalesce_twice {A : Type} (a b : option A) :
  coalesce (coalesce a b) b = coalesce a b.
Proof. destruct a; [reflexivity|]. now destruct b. Qed.

Lemma on_conflict_self (w : well) : on_conflict w w = w.
Proof.
  destruct w as [k n wn op co st shl la lo da pdf]. unfold on_conflict.
  cbn. rewrite longer_name_self.
  now destruct wn, op, co, shl, la, lo, da.
Qed.

Lemma on_conflict_twice (stored w : well) :
  on_conflict (on_conflict stored w) w = on_conflict stored w.
Proof.
  unfold on_conflict. cbn. now rewrite longer_name_twice, !coalesce_twice.
Qed.

Lemma upsert_well_key (w : well) (tbl : gmap string well) :
  upsert_well w tbl !! api_number w
  = Some (match tbl !! api_number w with
          | Some stored => on_conflict stored w
          | None => w
          end).
Proof.
  unfold upsert_well. destruct (tbl !! api_number w); apply lookup_insert_eq.
Qed.

Lemma upsert_well_twice (w : well) (tbl : gmap string well) :
  upsert_well w (upsert_well w tbl) = upsert_well w tbl.
Proof.
  unfold upsert_well at 1. rewrite upsert_well_key.
  unfold upsert_well. destruct (tbl !! api_number w) as [stored|].
  - now rewrite insert_insert_eq, on_conflict_twice.
  - now rewrite insert_insert_eq, on_conflict_self.
Qed.

Lemma settled_refl {A : Type} (a : option A) : settled a a.
Proof. now destruct a. Qed.

Lemma settled_trans {A : Type} (a b c : option A) :
  settled a b -> settled b c -> settled a c.
Proof. destruct a; cbn; [|auto]. intros ->. cbn. auto. Qed.

Lemma settled_coalesce {A : Type} (a b : option A) : settled a (coalesce a b).
Proof. now destruct a. Qed.

Lemma row_kept_refl (r : well) : row_kept r r.
Proof. unfold row_kept. repeat split; auto using settled_refl. Qed.

Lemma row_kept_trans (a b c : well) : row_kept a b -> row_kept b c -> row_kept a c.
Proof.
  unfold row_kept.
  intros (A1 & A2 & A3 & A4 & A5 & A6 & A7 & A8 & A9 & A10 & A11)
         (B1 & B2 & B3 & B4 & B5 & B6 & B7 & B8 & B9 & B10 & B11).
  repeat split; try congruence; try lia; eauto using settled_trans.
Qed.

Lemma longer_name_length (s e : option string) :
  (name_length s <= name_length (longer_name s e))%nat.
Proof.
  unfold longer_name, name_length. destruct e as [new|]; [|lia].
  destruct (_ <? _)%nat eqn:E; [|lia].
  apply Nat.ltb_lt in E. cbn [default from_option id]. lia.
Qed.

Lemma on_conflict_kept (stored w : well) : row_kept stored (on_conflict stored w).
Proof.
  unfold row_kept, on_conflict. cbn.
  repeat split; try apply settled_coalesce. apply longer_name_length.
Qed.

Lemma upsert_well_kept (w : well) (tbl : gmap string well) (k : string) (r : well) :
  tbl !! k = Some r ->
  exists r', upsert_well w tbl !! k = Some r' /\ row_kept r r'.
Proof.
  intros H. destruct (decide (k = api_number w)) as [->|Hk].
  - rewrite upsert_well_key, H. eexists. split; [reflexivity|].
    apply on_conflict_kept.
  - rewrite upsert_well_other by exact Hk. exists r. split; [exact H|].
    apply row_kept_refl.
Qed.

Lemma extends_refl (conn : db) : extends conn conn.
Proof.
  split.
  - intros k r H. exists r. split; [exact H | apply row_kept_refl].
  - exists []. now rewrite app_nil_r.
Qed.

Lemma extends_trans (a b c : db) : extends a b -> extends b c -> extends a c.
Proof.
  intros [A1 [ra A2]] [B1 [rb B2]]. split.
  - intros k r H. apply A1 in H as (r1 & H1 & K1).
    apply B1 in H1 as (r2 & H2 & K2). exists r2. split; [exact H2|].
    eapply row_kept_trans; eassumption.
  - exists (ra ++ rb)%list. rewrite B2, A2. now rewrite <- app_assoc.
Qed.

Lemma process_json_extends (data : doc) (conn conn' : db) :
  process_json data conn = Ok conn' -> extends conn conn'.
Proof.
  intros H. apply process_json_spec in H as (w & recs & _ & _ & Hw & Hs).
  split.
  - intros k r Hk. rewrite Hw. now apply upsert_well_kept.
  - eexists. exact Hs.
Qed.

Lemma process_all_extends (json_files : list doc) :
  forall conn conn', process_all json_files conn = Ok conn' -> extends conn conn'.
Proof.
  induction json_files as [|data rest IH]; intros conn conn'; cbn [process_all].
  - intros [= <-]. apply extends_refl.
  - destruct (process_json data conn) as [c1|] eqn:E; [|discriminate].
    cbn [mbind result_bind]. intros H.
    eapply extends_trans; [eapply process_json_extends; exact E | now apply IH].
Qed.

Lemma process_all_app (a b : list doc) :
  forall conn,
    process_all (a ++ b) conn = (c ← process_all a conn; process_all b c).
Proof.
  induction a as [|d a IH]; intros conn; cbn [process_all app]; [reflexivity|].
  destruct (process_json d conn) as [c1|]; cbn [mbind result_bind]; [apply IH|reflexivity].
Qed.

(** ** Stripping and collapsing whitespace *)

Lemma rev_onto_append (s acc : string) : Str.rev_onto s acc = Str.rev s ++ acc.
Proof.
  unfold Str.rev. revert acc. induction s as [|c s IH]; intros acc; [reflexivity|].
  cbn [Str.rev_onto]. rewrite IH, (IH (String c "")), append_assoc.
  now rewrite append_cons, append_nil.
Qed.

Lemma rev_append (a b : string) : Str.rev (a ++ b) = Str.rev b ++ Str.rev a.
Proof.
  induction a as [|c a IH].
  - now rewrite append_nil, append_empty_r.
  - rewrite append_cons. unfold Str.rev. cbn [Str.rev_onto].
    rewrite !(rev_onto_append _ (String c "")). fold (Str.rev (a ++ b)).
    now rewrite IH, append_assoc.
Qed.

Lemma lstrip_suffix (s : string) :
  exists a, s = a ++ Str.lstrip s /\ Str.all is_space a = true.
Proof.
  induction s as [|c s (a & IH & Ha)]; [now exists ""|].
  cbn [Str.lstrip]. destruct (is_space c) eqn:E.
  - exists (String c a). rewrite append_cons, <- IH. cbn [Str.all].
    now rewrite E, Ha.
  - now exists "".
Qed.

Lemma rstrip_prefix (s : string) :
  exists b, s = Str.rstrip s ++ b /\ Str.all is_space b = true.
Proof.
  unfold Str.rstrip. destruct (lstrip_suffix (Str.rev s)) as (a & Ha & Hs).
  exists (Str.rev a). split; [|now rewrite all_rev].
  rewrite <- rev_append, <- Ha. symmetry. apply rev_rev.
Qed.

(** What [strip] returns lies inside its argument, between two runs of
    whitespace. *)
Lemma strip_infix (s : string) :
  exists a b, s = a ++ Str.strip s ++ b
    /\ Str.all is_space a = true /\ Str.all is_space b = true.
Proof.
  unfold Str.strip. destruct (lstrip_suffix s) as (a & Ha & Hsa).
  destruct (rstrip_prefix (Str.lstrip s)) as (b & Hb & Hsb).
  exists a, b. now rewrite <- Hb, <- Ha.
Qed.

Lemma lstrip_head (s : string) :
  match Str.lstrip s with
  | String c _ => is_space c = false
  | EmptyString => True
  end.
Proof.
  induction s as [|c s IH]; [exact I|]. cbn [Str.lstrip].
  destruct (is_space c) eqn:E; [exact IH | exact E].
Qed.

Lemma lstrip_fixed (s : string) :
  match s with String c _ => is_space c = false | EmptyString => True end ->
  Str.lstrip s = s.
Proof. destruct s as [|c s]; [reflexivity|]. cbn [Str.lstrip]. now intros ->. Qed.

Lemma rstrip_head (c : ascii) (t : string) :
  is_space c = false -> exists u, Str.rstrip (String c t) = String c u.
Proof.
  intros Hc. destruct (rstrip_prefix (String c t)) as (b & Hb & _).
  destruct (Str.rstrip (String c t)) as [|d u] eqn:E.
  - exfalso. revert E. unfold Str.rstrip, Str.rev at 1.
    destruct (Str.lstrip (Str.rev (String c t))) as [|a v] eqn:E.
    + exfalso. revert E. unfold Str.rev. cbn [Str.rev_onto].
      apply lstrip_rev_onto. cbn [Str.lstrip]. rewrite Hc. discriminate.
    + cbn [Str.rev_onto]. apply rev_onto_nonempty. discriminate.
  - rewrite append_cons in Hb. injection Hb as -> _. now exists u.
Qed.

Lemma strip_trimmed (s : string) : trimmed (Str.strip s).
Proof.
  unfold trimmed. unfold Str.strip at 1.
  pose proof (lstrip_head s) as Hh. unfold Str.strip.
  destruct (Str.lstrip s) as [|c t] eqn:E; [reflexivity|].
  destruct (rstrip_head c t Hh) as (u & Hu). rewrite Hu.
  cbn [Str.lstrip]. rewrite Hh, <- Hu.
  unfold Str.rstrip. rewrite rev_rev.
  rewrite (lstrip_fixed (Str.lstrip _)) by apply lstrip_head. reflexivity.
Qed.

Lemma all_strip p (s : string) : Str.all p s = true -> Str.all p (Str.strip s) = true.
Proof.
  destruct (strip_infix s) as (a & b & H & _). rewrite H at 1.
  rewrite !all_app. intros H1. apply andb_prop in H1 as [_ H1].
  now apply andb_prop in H1 as [H1 _].
Qed.

Lemma length_strip (s : string) : (String.length (Str.strip s) <= String.length s)%nat.
Proof.
  destruct (strip_infix s) as (a & b & H & _). rewrite H at 2.
  rewrite !length_append. lia.
Qed.

Lemma prefix_append (n a b : string) :
  String.prefix n a = true -> String.prefix n (a ++ b) = true.
Proof.
  revert a. induction n as [|c n IH]; intros a; [now destruct a, b|].
  destruct a as [|d a]; [discriminate|]. rewrite append_cons. cbn [String.prefix].
  destruct (ascii_dec c d); [apply IH | discriminate].
Qed.

Lemma contains_append_r (n a b : string) :
  Str.contains n a = true -> Str.contains n (a ++ b) = true.
Proof.
  induction a as [|c a IH]; cbn [Str.contains].
  - rewrite orb_false_r. intros H. destruct n; [|discriminate].
    now destruct b.
  - intros H. apply orb_prop in H as [H|H].
    + apply (prefix_append _ _ b) in H. rewrite append_cons in *.
      cbn [Str.contains]. now rewrite H.
    + rewrite append_cons. cbn [Str.contains]. rewrite (IH H). apply orb_true_r.
Qed.

Lemma contains_append_l (n a b : string) :
  Str.contains n b = true -> Str.contains n (a ++ b) = true.
Proof.
  intros H. induction a as [|c a IH]; [now rewrite append_nil|].
  rewrite append_cons. cbn [Str.contains]. rewrite IH. apply orb_true_r.
Qed.

Lemma single_spaced_strip (s : string) : single_spaced s -> single_spaced (Str.strip s).
Proof.
  intros [Ha Hc]. split; [now apply all_strip|].
  destruct (strip_infix s) as (a & b & H & _).
  destruct (Str.contains "  " (Str.strip s)) eqn:E; [|reflexivity].
  rewrite H in Hc. rewrite contains_append_l in Hc; [discriminate|].
  now apply contains_append_r.
Qed.

Lemma squeeze_eat p repl prev (s : string) :
  squeeze p repl true s = squeeze p repl false (snd (eat p prev s)).
Proof.
  revert prev. induction s as [|c s IH]; intros prev; [reflexivity|].
  cbn [squeeze eat]. destruct (p c) eqn:E.
  - rewrite append_nil. apply IH.
  - cbn [snd squeeze]. now rewrite E.
Qed.

Lemma sub_plus_chr_squeeze_n p repl (n : nat) : forall s prev pos,
  (String.length s <= n)%nat ->
  sub_loop (plus (Chr p)) (fun _ => repl) prev s pos 0 = squeeze p repl false s.
Proof.
  induction n as [|n IH]; intros s prev pos Hn.
  - destruct s; [reflexivity | simpl in Hn; lia].
  - destruct s as [|c s]; [reflexivity|].
    cbn [sub_loop]. rewrite attempt_plus_chr. cbn [squeeze].
    destruct (p c) eqn:E.
    + unfold mk_matched, consumed. cbn [rest m_text].
      pose proof (eat_length p (Some c) s) as Hl.
      pose proof (eat_drop p (Some c) s) as Hd.
      pose proof (squeeze_eat p repl (Some c) s) as Hf.
      set (t := snd (eat p (Some c) s)) in *.
      rewrite length_take by (simpl; lia).
      replace (String.length (String c s) - String.length t)%nat
        with (S (String.length s - String.length t)) by (simpl; lia).
      destruct (sub_loop_skip (plus (Chr p)) (fun _ => repl)
                  (String.length s - String.length t) s (Some c) (S pos))
        as [prev' Hs]; [lia|].
      rewrite Hs, <- Hd, IH by (simpl in Hn; lia).
      now rewrite Hf.
    + now rewrite IH by (simpl in Hn; lia).
Qed.

(** [re.sub('\s+', ' ', s)] and the like: every run of the class becomes
    the replacement text. *)
Lemma sub_plus_chr_squeeze p repl (s : string) :
  Re.sub (plus (Chr p)) repl s = squeeze p repl false s.
Proof. apply (sub_plus_chr_squeeze_n p repl (String.length s)). lia. Qed.

Lemma squeeze_space_class (s : string) : forall b,
  Str.all (fun c => negb (is_space c) || eqc c " ") (squeeze is_space " " b s) = true.
Proof.
  induction s as [|c s IH]; intros b; [reflexivity|].
  cbn [squeeze]. destruct (is_space c) eqn:E.
  - destruct b; [rewrite append_nil; apply IH|].
    rewrite append_cons, append_nil. cbn [Str.all]. now rewrite IH.
  - cbn [Str.all]. now rewrite E, IH.
Qed.

Lemma squeeze_space_head (s : string) :
  match squeeze is_space " " true s with
  | String c _ => is_space c = false
  | EmptyString => True
  end.
Proof.
  induction s as [|c s IH]; [exact I|]. cbn [squeeze].
  destruct (is_space c) eqn:E; [now rewrite append_nil | exact E].
Qed.

Lemma prefix_two_spaces (c : ascii) (t : string) :
  match t with String d _ => is_space d = false | EmptyString => True end ->
  String.prefix "  " (String c t) = false.
Proof.
  cbn [String.prefix]. destruct (ascii_dec " " c); [|reflexivity].
  destruct t as [|d t]; [reflexivity|]. intros Hd. cbn [String.prefix].
  destruct (ascii_dec " " d) as [<-|]; [discriminate | reflexivity].
Qed.

Lemma prefix_two_spaces_head (c : ascii) (t : string) :
  is_space c = false -> String.prefix "  " (String c t) = false.
Proof.
  intros Hc. cbn [String.prefix].
  destruct (ascii_dec " " c) as [<-|]; [discriminate | reflexivity].
Qed.

Lemma squeeze_space_single (s : string) : forall b,
  Str.contains "  " (squeeze is_space " " b s) = false.
Proof.
  induction s as [|c s IH]; intros b; [reflexivity|].
  cbn [squeeze]. destruct (is_space c) eqn:E.
  - destruct b; [rewrite append_nil; apply IH|].
    rewrite append_cons, append_nil. cbn [Str.contains].
    rewrite prefix_two_spaces by apply squeeze_space_head. apply IH.
  - cbn [Str.contains]. rewrite prefix_two_spaces_head by exact E. apply IH.
Qed.

Lemma collapse_single_spaced (s : string) : single_spaced (Re.sub _WS " " s).
Proof.
  unfold _WS, space. rewrite sub_plus_chr_squeeze.
  split; [apply squeeze_space_class | apply squeeze_space_single].
Qed.

Lemma search_text_normal (patterns : list regex) (text v : string) :
  search_text patterns text = Some v ->
  Str.truthy v = true /\ trimmed v /\ single_spaced v.
Proof.
  induction patterns as [|pat pats IH]; cbn [search_text]; [discriminate|].
  destruct (Re.search pat text) as [m|]; [|exact IH].
  destruct (Str.truthy (Str.strip _)) eqn:E; [|exact IH]. intros [= <-].
  split; [exact E|]. split; [apply strip_trimmed|].
  apply single_spaced_strip, collapse_single_spaced.
Qed.

Lemma search_normal (patterns : list regex) (texts : list string) (v : string) :
  _search patterns texts = Some v ->
  Str.truthy v = true /\ trimmed v /\ single_spaced v.
Proof.
  induction texts as [|t ts IH]; cbn [_search]; [discriminate|].
  destruct (search_text patterns t) as [w|] eqn:E; [|exact IH].
  intros [= <-]. eapply search_text_normal, E.
Qed.

(** ** Soundness of the matcher with the bounds of the repetitions *)

Section Bounds.
Context {R : Type}.

Lemma rep_may_bounded (one : mstate -> (mstate -> option R) -> option R)
    step greedy (n : nat) :
  sound one step ->
  forall st k x, rep_may one greedy n st k = Some x ->
    exists m st', (m <= n)%nat /\ iter m step st st' /\ k st' = Some x.
Proof.
  intros Hone. induction n as [|n IH]; intros st k x H.
  - exists O, st. repeat split; [lia | exact H].
  - cbn [rep_may] in H.
    assert (Hmore : forall y,
      one st (fun st1 => if advanced st st1 then rep_may one greedy n st1 k else None)
        = Some y ->
      exists m st', (m <= S n)%nat /\ iter m step st st' /\ k st' = Some y).
    { intros y Hy. apply Hone in Hy as (st1 & Hs & Hy).
      destruct (advanced st st1); [|discriminate].
      apply IH in Hy as (m & st' & Hm & Hi & Hy).
      exists (S m), st'. repeat split; [lia | | exact Hy]. exists st1. now split. }
    destruct greedy.
    + destruct (one st _) as [y|] eqn:E.
      * injection H as <-. now apply Hmore.
      * exists O, st. repeat split; [lia | exact H].
    + destruct (k st) as [y|] eqn:E.
      * injection H as <-. exists O, st. repeat split; [lia | exact E].
      * now apply Hmore.
Qed.

Lemma run_bounded (r : regex) : sound (R := R) (run r) (semb r).
Proof.
  induction r as [|p|a IHa b IHb|a IHa b IHb|g lo hi a IHa|n a IHa|m|m|];
    intros st k x H; cbn [run] in H.
  - exists st. now split.
  - destruct st as [pv rs cs]. cbn [rest caps] in H.
    destruct rs as [|c s']; [discriminate|].
    destruct (p c) eqn:E; [|discriminate].
    eexists. split; [|exact H]. exists c. cbn. auto.
  - apply IHa in H as (st1 & Ha & H). apply IHb in H as (st' & Hb & H).
    exists st'. split; [|exact H]. exists st1. now split.
  - destruct (run a st k) as [y|] eqn:E.
    + injection H as <-. apply IHa in E as (st' & Ha & E).
      exists st'. split; [now left | exact E].
    + apply IHb in H as (st' & Hb & H).
      exists st'. split; [now right | exact H].
  - apply (rep_must_sound _ _ _ IHa) in H as (st1 & H1 & H).
    apply (rep_may_bounded _ _ _ _ IHa) in H as (m & st' & Hm & H2 & H).
    exists st'. split; [|exact H].
    exists (lo + m)%nat. split; [|eapply iter_app; eassumption].
    split; [lia|]. destruct hi as [h|]; [lia | exact I].
  - apply IHa in H as (st1 & Ha & H).
    eexists. split; [|exact H]. exists st1. now split.
  - destruct (at_bol m st) eqn:E; [|discriminate]. exists st. now split.
  - destruct (at_eol m st) eqn:E; [|discriminate]. exists st. now split.
  - destruct (at_wordb st) eqn:E; [|discriminate]. exists st. now split.
Qed.
End Bounds.

Lemma iter_impl (P Q : mstate -> mstate -> Prop) (n : nat) :
  (forall st st', P st st' -> Q st st') ->
  forall st st', iter n P st st' -> iter n Q st st'.
Proof.
  intros H. induction n as [|n IH]; intros st st'; cbn [iter]; [auto|].
  intros (st1 & H1 & H2). exists st1. auto.
Qed.

Lemma semb_sem (r : regex) : forall st st', semb r st st' -> sem r st st'.
Proof.
  induction r as [|p|a IHa b IHb|a IHa b IHb|g lo hi a IHa|n a IHa|m|m|];
    cbn [semb sem]; intros st st' H; try exact H.
  - destruct H as (st1 & H1 & H2). exists st1. auto.
  - destruct H as [H|H]; auto.
  - destruct H as (n & [Hn _] & H). exists n. split; [exact Hn|].
    eapply iter_impl; [|exact H]. exact IHa.
  - destruct H as (st1 & H1 & ->). exists st1. auto.
Qed.

Lemma attempt_bounded r must p s st1 :
  attempt r must p s = Some st1 -> semb r (MState p s []) st1.
Proof.
  unfold attempt. intros H. apply run_bounded in H as (st' & Hs & H).
  destruct (must && _); [discriminate|]. now injection H as <-.
Qed.

Lemma search_from_bounded r (s : string) : forall p pos m,
  search_from r p s pos = Some m ->
  exists p' s' st1, semb r (MState p' s' []) st1 /\ m_caps m = caps st1.
Proof.
  induction s as [|c s IH]; intros p pos m H; cbn [search_from] in H.
  - destruct (attempt r false p "") as [st1|] eqn:E; [|discriminate].
    injection H as <-. apply attempt_bounded in E. eauto.
  - destruct (attempt r false p (String c s)) as [st1|] eqn:E.
    + injection H as <-. apply attempt_bounded in E. eauto.
    + eapply IH, H.
Qed.

Lemma search_bounded r s m :
  Re.search r s = Some m ->
  exists p' s' st1, semb r (MState p' s' []) st1 /\ m_caps m = caps st1.
Proof. apply search_from_bounded. Qed.

Lemma rmatch_bounded r s m :
  Re.rmatch r s = Some m ->
  exists st1, semb r (MState None s []) st1 /\ m_caps m = caps st1.
Proof.
  unfold rmatch. destruct (attempt r false None s) as [st1|] eqn:E; [|discriminate].
  intros [= <-]. apply attempt_bounded in E. eauto.
Qed.

Lemma semb_groupless (r : regex) :
  groupless r = true -> forall st st', semb r st st' -> caps st' = caps st.
Proof. intros Hg st st' H. eapply sem_groupless; [exact Hg | now apply semb_sem]. Qed.

(** A repetition of a class passes over a text of the class whose length
    is within the bounds. *)
Lemma semb_rep_class g lo hi p st st' :
  semb (Rep g lo hi (Chr p)) st st' ->
  exists t, passes t st st' /\ within_bound lo hi (String.length t)
    /\ Str.all p t = true /\ caps st' = caps st.
Proof.
  intros H. pose proof (semb_groupless (Rep g lo hi (Chr p)) eq_refl _ _ H) as Hc.
  destruct H as (n & Hn & H).
  apply (iter_class p n) in H as (t & Ht & Hl & Ha).
  exists t. now rewrite Hl.
Qed.

Lemma semb_chr p st st' :
  semb (Chr p) st st' ->
  exists c, passes (String c "") st st' /\ p c = true /\ caps st' = caps st.
Proof. intros (c & H & Hp & _ & Hc). exists c. now repeat split. Qed.

Lemma semb_group n a st st' :
  semb (Grp n a) st st' -> groupless a = true ->
  exists st1, semb a st st1 /\ caps st' = (n, consumed st st1) :: caps st.
Proof.
  intros (st1 & H & ->) Hg. exists st1. split; [exact H|].
  cbn [caps]. now rewrite (semb_groupless a Hg _ _ H).
Qed.

(** A group around a repetition of a class. *)
Lemma semb_group_class n g lo hi p st st' :
  semb (Grp n (Rep g lo hi (Chr p))) st st' ->
  exists t, caps st' = (n, t) :: caps st
    /\ within_bound lo hi (String.length t) /\ Str.all p t = true.
Proof.
  intros H. apply semb_group in H as (st1 & H & Hc); [|reflexivity].
  apply semb_rep_class in H as (t & Ht & Hb & Ha & _).
  exists t. now rewrite Hc, (consumed_passes _ _ _ Ht).
Qed.

(** ** The records of the stimulation parser *)

Lemma digits_val_nonneg (s : string) : forall acc,
  Str.all is_digit s = true -> 0 <= acc -> 0 <= Num.digits_val acc s.
Proof.
  induction s as [|c s IH]; intros acc Hd Ha; [exact Ha|].
  cbn [Str.all] in Hd. apply andb_prop in Hd as [Hc Hd].
  cbn [Num.digits_val]. apply IH; [exact Hd|].
  unfold is_digit, between in Hc. apply andb_prop in Hc as [Hc _].
  apply Nat.leb_le in Hc. unfold Num.digit_val. lia.
Qed.

Lemma to_float_digits (t : string) :
  Str.truthy t = true -> Str.all is_digit t = true ->
  is_Some (_to_float (Some t)).
Proof.
  intros Ht Hd. unfold _to_float. rewrite Ht. cbn [negb].
  assert (Hr : Str.remove "," t = t).
  { unfold Str.remove. apply filter_all. eapply all_impl; [|exact Hd].
    intros c Hc. destruct c as [[] [] [] [] [] [] [] []];
      try discriminate Hc; reflexivity. }
  rewrite Hr. destruct (float_of_digits t Ht Hd) as [x ->]. eauto.
Qed.

Lemma label_text (st st' : mstate) :
  semb label st st' ->
  exists c t, consumed st st' = String c t /\ is_alpha c = true
    /\ Str.all letter_or_space t = true /\ (String.length t <= 30)%nat.
Proof.
  intros (s1 & Hc & Hr). apply semb_chr in Hc as (c & Hc & Hp & _).
  apply semb_rep_class in Hr as (t & Ht & [_ Hb] & Ha & _).
  exists c, t. split; [|now repeat split].
  apply consumed_passes. apply (passes_seq _ _ _ _ _ Hc Ht).
Qed.

Lemma within_bound_positive lo hi (t : string) :
  (1 <= lo)%nat -> within_bound lo hi (String.length t) -> Str.truthy t = true.
Proof. intros Hlo [Hl _]. destruct t; [simpl in Hl; lia | reflexivity]. Qed.

(** The seven groups of a matched data row. *)
Lemma stim_row_groups (line : string) (sm : matched) :
  Re.search _STIM_ROW line = Some sm ->
  exists t1 c t2 t3 t4 t5 t6 t7,
    m_caps sm = [(7, t7); (6, t6); (5, t5); (4, t4); (3, t3);
                 (2, String c t2); (1, t1)]%nat
    /\ date_shaped t1
    /\ is_alpha c = true /\ Str.all letter_or_space t2 = true
    /\ (String.length t2 <= 30)%nat
    /\ Str.truthy t3 = true /\ Str.all is_digit t3 = true
    /\ Str.truthy t4 = true /\ Str.all is_digit t4 = true
    /\ Str.truthy t5 = true /\ Str.all is_digit t5 = true
    /\ Str.truthy t7 = true /\ Str.all is_alpha t7 = true.
Proof.
  intros H. apply search_bounded in H as (p & s & st1 & H & ->).
  unfold _STIM_ROW in H.
  destruct H as (s1 & H1 & s2 & H1s & s3 & H2 & s4 & H2s & s5 & H3 & s6 & H3s
                 & s7 & H4 & s8 & H4s & s9 & H5 & s10 & H5s
                 & s11 & H6 & s12 & H6s & H7).
  apply semb_group in H1 as (d1 & H1 & C1); [|reflexivity].
  destruct H1 as (e1 & Hd & e2 & Hx1 & e3 & Hm & e4 & Hx2 & Hy).
  apply semb_rep_class in Hd as (d & Pd & [Ld Ud] & Ad & _).
  apply semb_chr in Hx1 as (x1 & Px1 & Ex1 & _).
  apply semb_rep_class in Hm as (m & Pm & [Lm Um] & Am & _).
  apply semb_chr in Hx2 as (x2 & Px2 & Ex2 & _).
  apply semb_rep_class in Hy as (y & Py & [Ly Uy] & Ay & _).
  apply Ascii.eqb_eq in Ex1, Ex2. subst x1 x2.
  pose proof (passes_seq _ _ _ _ _ Pd
                (passes_seq _ _ _ _ _ Px1
                   (passes_seq _ _ _ _ _ Pm (passes_seq _ _ _ _ _ Px2 Py)))) as P1.
  apply consumed_passes in P1. rewrite P1 in C1. clear P1.
  apply (semb_groupless (plus space) eq_refl) in H1s.
  apply semb_group in H2 as (d2 & H2 & C2); [|reflexivity].
  apply label_text in H2 as (c & t2 & E2 & Hc & A2 & L2). rewrite E2 in C2.
  apply (semb_groupless (plus space) eq_refl) in H2s.
  apply semb_group_class in H3 as (t3 & C3 & B3 & A3).
  apply (semb_groupless (plus space) eq_refl) in H3s.
  apply semb_group_class in H4 as (t4 & C4 & B4 & A4).
  apply (semb_groupless (plus space) eq_refl) in H4s.
  apply semb_group_class in H5 as (t5 & C5 & B5 & A5).
  apply (semb_groupless (plus space) eq_refl) in H5s.
  apply semb_group_class in H6 as (t6 & C6 & B6 & A6).
  apply (semb_groupless (plus space) eq_refl) in H6s.
  apply semb_group_class in H7 as (t7 & C7 & B7 & A7).
  exists (d ++ "/" ++ m ++ "/" ++ y), c, t2, t3, t4, t5, t6, t7.
  split.
  { rewrite C7, H6s, C6, H5s, C5, H4s, C4, H3s, C3, H2s, C2, H1s, C1.
    rewrite !append_cons, !append_nil. reflexivity. }
  split.
  { exists d, m, y. cbn in Ud, Um, Uy. repeat split; auto; lia. }
  pose proof (within_bound_positive _ _ _ (le_n 1) B3).
  pose proof (within_bound_positive _ _ _ (le_n 1) B4).
  pose proof (within_bound_positive _ _ _ (le_n 1) B5).
  pose proof (within_bound_positive _ _ _ (le_n 1) B7).
  repeat split; assumption.
Qed.

Lemma iter_lookup_other step (k n : nat) :
  (forall st st', step st st' -> lookup_cap k (caps st') = lookup_cap k (caps st)) ->
  forall st st', iter n step st st' -> lookup_cap k (caps st') = lookup_cap k (caps st).
Proof.
  intros Hs. induction n as [|n IH]; intros st st' H.
  - simpl in H. now subst.
  - destruct H as (st1 & H1 & H). rewrite (IH _ _ H). now apply Hs.
Qed.

(** A pattern without the group [k] leaves what the group captured. *)
Lemma sem_lookup_other (k : nat) (r : regex) :
  mentions k r = false ->
  forall st st', sem r st st' -> lookup_cap k (caps st') = lookup_cap k (caps st).
Proof.
  induction r as [|p|a IHa b IHb|a IHa b IHb|g lo hi a IHa|n a IHa|m|m|];
    cbn [mentions sem]; intros Hm st st' H.
  - now subst.
  - destruct H as (c & _ & _ & _ & H). now rewrite H.
  - apply orb_false_elim in Hm as [Ha Hb]. destruct H as (st1 & H1 & H2).
    rewrite (IHb Hb _ _ H2). now apply IHa.
  - apply orb_false_elim in Hm as [Ha Hb]. destruct H as [H|H]; auto.
  - destruct H as (n & _ & H). eapply iter_lookup_other; [|exact H]. auto.
  - apply orb_false_elim in Hm as [Hn Ha]. destruct H as (st1 & H & ->).
    cbn [caps lookup_cap]. rewrite Hn. now apply IHa.
  - now destruct H as [-> _].
  - now destruct H as [-> _].
  - now destruct H as [-> _].
Qed.

Lemma alpha_nonspace (c : ascii) : is_alpha c = true -> is_space c = false.
Proof.
  destruct c as [[] [] [] [] [] [] [] []]; vm_compute; intros H;
    try discriminate H; reflexivity.
Qed.

Lemma strip_label (c : ascii) (t : string) :
  is_alpha c = true -> Str.all letter_or_space t = true ->
  (String.length t <= 30)%nat ->
  Str.truthy (Str.strip (String c t)) = true
  /\ Str.all letter_or_space (Str.strip (String c t)) = true
  /\ (String.length (Str.strip (String c t)) <= 31)%nat.
Proof.
  intros Hc Ht Hl. split; [|split].
  - pose proof (strip_head_nonspace c t (alpha_nonspace c Hc)) as H.
    now destruct (Str.strip (String c t)).
  - apply all_strip. cbn [Str.all]. unfold letter_or_space at 1.
    now rewrite Hc, Ht.
  - pose proof (length_strip (String c t)) as H. simpl in H. lia.
Qed.

(** The label group of a matched treatment row. *)
Lemma treat_row_label (s : string) (tm : matched) :
  Re.rmatch _TREAT_ROW s = Some tm ->
  exists c t, group 1 tm = Some (String c t) /\ is_alpha c = true
    /\ Str.all letter_or_space t = true /\ (String.length t <= 30)%nat.
Proof.
  intros H. apply rmatch_bounded in H as (st1 & H & Hc).
  unfold group. rewrite Hc. clear Hc tm. unfold _TREAT_ROW in H.
  destruct H as (s0 & _ & s1 & H1 & Hrest).
  apply semb_group in H1 as (d1 & H1 & C1); [|reflexivity].
  apply label_text in H1 as (c & t & E & Hc & Ha & Hl). rewrite E in C1.
  apply semb_sem, (sem_lookup_other 1) in Hrest; [|reflexivity].
  exists c, t. rewrite Hrest, C1. cbn [lookup_cap Nat.eqb]. auto.
Qed.

Lemma draft_shaped (line : string) (sm : matched) (rec : stim) :
  Re.search _STIM_ROW line = Some sm -> draft sm = Ok rec ->
  row_shaped rec /\ treatment_type rec = None /\ details rec = None.
Proof.
  intros H. apply stim_row_groups in H
    as (t1 & c & t2 & t3 & t4 & t5 & t6 & t7 & Hc & H1 & Hc2 & A2 & L2
        & T3 & A3 & T4 & A4 & T5 & A5 & T7 & A7).
  unfold draft, group_text, group. rewrite Hc.
  cbn [lookup_cap Nat.eqb default from_option id].
  unfold Num.int_of. rewrite T5, A5. cbn [andb].
  destruct (String.length t5 <=? Num.max_str_digits)%nat;
    cbn [mbind result_bind]; [|discriminate].
  intros [= <-]. split; [|auto].
  destruct (strip_label c t2 Hc2 A2 L2) as (F1 & F2 & F3).
  unfold row_shaped.
  cbn [date_stimulated formation top_ft bottom_ft stages volume_units].
  split; [exact H1|]. split; [exact F1|]. split; [exact F2|].
  split; [exact F3|]. split; [now apply to_float_digits|].
  split; [now apply to_float_digits|].
  split; [apply digits_val_nonneg; [exact A5 | lia] | now split].
Qed.

Lemma apply_treatment_row (rec : stim) (tm : matched) :
  date_stimulated (apply_treatment rec tm) = date_stimulated rec
  /\ formation (apply_treatment rec tm) = formation rec
  /\ top_ft (apply_treatment rec tm) = top_ft rec
  /\ bottom_ft (apply_treatment rec tm) = bottom_ft rec
  /\ stages (apply_treatment rec tm) = stages rec
  /\ volume (apply_treatment rec tm) = volume rec
  /\ volume_units (apply_treatment rec tm) = volume_units rec
  /\ details (apply_treatment rec tm) = details rec
  /\ treatment_type (apply_treatment rec tm) = Some (Str.strip (group_text 1 tm)).
Proof.
  unfold apply_treatment.
  destruct (non_none (treatment_nums tm)) as [|a [|b [|c [|d [|e l]]]]];
    cbn; auto 10.
Qed.

Lemma treatment_line_shaped (rec : stim) (line : string) :
  row_shaped rec -> no_empty (treatment_type rec) -> details rec = None ->
  row_shaped (treatment_line rec line)
  /\ no_empty (treatment_type (treatment_line rec line))
  /\ details (treatment_line rec line) = None.
Proof.
  intros Hr Ht Hd. unfold treatment_line.
  destruct (Re.rmatch _TREAT_ROW (Str.strip line)) as [tm|] eqn:E; [|auto].
  destruct (apply_treatment_row rec tm)
    as (E1 & E2 & E3 & E4 & E5 & E6 & E7 & E8 & E9).
  unfold row_shaped. rewrite E1, E2, E3, E4, E5, E7, E8, E9.
  split; [exact Hr|]. split; [|exact Hd].
  apply treat_row_label in E as (c & t & Hg & Hc & Ha & Hl).
  unfold group_text. rewrite Hg. cbn [default from_option id].
  destruct (strip_label c t Hc Ha Hl) as (F & _). unfold no_empty.
  intros [= H]. now rewrite H in F.
Qed.

Lemma join_truthy (sep : string) (parts : list string) :
  parts <> [] -> Forall (fun l => Str.truthy l = true) parts ->
  Str.truthy (Str.join sep parts) = true.
Proof.
  destruct parts as [|p ps]; [congruence|]. intros _ H.
  apply Forall_cons in H as [Hp _]. cbn [Str.join].
  destruct p as [|c p]; [discriminate|]. destruct ps; [reflexivity|].
  now rewrite append_cons.
Qed.

Lemma finish_shaped (rec : stim) (dp : list string) :
  row_shaped rec -> no_empty (treatment_type rec) -> details rec = None ->
  Forall (fun l => Str.truthy l = true) dp ->
  record_shaped (finish rec dp).
Proof.
  intros Hr Ht Hd Hp. unfold finish, record_shaped.
  destruct dp as [|l dp].
  - rewrite Hd. split; [exact Hr|]. split; [exact Ht | discriminate].
  - split; [exact Hr|]. split; [exact Ht|].
    assert (J : Str.truthy (Str.join (String newline "") (l :: dp)) = true)
      by (apply join_truthy; [discriminate | exact Hp]).
    unfold no_empty. cbn [set_details details].
    destruct (Str.join (String newline "") (l :: dp)); [discriminate J | discriminate].
Qed.

Lemma body_shaped (fuel : nat) : forall lines rec dp ind rec' dp' rest,
  body fuel lines rec dp ind = Ok (rec', dp', rest) ->
  row_shaped rec -> no_empty (treatment_type rec) -> details rec = None ->
  Forall (fun l => Str.truthy l = true) dp ->
  (row_shaped rec' /\ no_empty (treatment_type rec') /\ details rec' = None
   /\ Forall (fun l => Str.truthy l = true) dp')
  /\ exists pre, lines = (pre ++ rest)%list.
Proof.
  induction fuel as [|fuel IH]; intros lines rec dp ind rec' dp' rest;
    cbn [body]; [discriminate|].
  destruct lines as [|ln lines].
  { intros [= <- <- <-] Hr Ht Hd Hp. split; [auto|]. now exists []. }
  destruct (Re.found _STIM_HDR ln).
  { intros [= <- <- <-] Hr Ht Hd Hp. split; [auto|]. now exists []. }
  destruct (Re.found _TREAT_HDR ln).
  { destruct (skip_blank_suffix lines) as (skipped & Hs & _).
    destruct (skip_blank lines) as [|tl lines'].
    - intros H Hr Ht Hd Hp.
      destruct (IH _ _ _ _ _ _ _ H Hr Ht Hd Hp) as (K & pre & Hpre).
      split; [exact K|]. destruct pre; [|discriminate].
      cbn [app] in Hpre. subst rest. exists (ln :: lines). now rewrite app_nil_r.
    - intros H Hr Ht Hd Hp.
      destruct (treatment_line_shaped rec tl Hr Ht Hd) as (Hr' & Ht' & Hd').
      destruct (IH _ _ _ _ _ _ _ H Hr' Ht' Hd' Hp) as (K & pre & Hpre).
      split; [exact K|]. exists (ln :: skipped ++ tl :: pre)%list.
      rewrite Hs, Hpre. cbn [app]. now rewrite <- app_assoc. }
  destruct (Re.found _DETAILS ln).
  { intros H Hr Ht Hd Hp.
    destruct (IH _ _ _ _ _ _ _ H Hr Ht Hd Hp) as (K & pre & Hpre).
    split; [exact K|]. exists (ln :: pre). now rewrite Hpre. }
  intros H Hr Ht Hd Hp.
  apply IH in H as (K & pre & Hpre); auto.
  - split; [exact K|]. exists (ln :: pre). now rewrite Hpre.
  - destruct (ind && Str.truthy (Str.strip ln)) eqn:E; [|exact Hp].
    apply andb_prop in E as [_ E]. apply Forall_app. split; [exact Hp|].
    now constructor.
Qed.

Lemma filter_length_app (f : string -> bool) (a b : list string) :
  List.length (List.filter f (a ++ b))
  = (List.length (List.filter f a) + List.length (List.filter f b))%nat.
Proof. now rewrite List.filter_app, List.length_app. Qed.

Lemma headers_suffix (pre rest : list string) :
  (headers rest <= headers (pre ++ rest))%nat.
Proof. unfold headers. rewrite filter_length_app. lia. Qed.

Lemma scan_shaped (fuel : nat) : forall lines records recs,
  scan fuel lines records = Ok recs ->
  (Forall record_shaped records -> Forall record_shaped recs)
  /\ (List.length recs <= List.length records + headers lines)%nat.
Proof.
  induction fuel as [|fuel IH]; intros lines records recs; cbn [scan];
    [discriminate|].
  destruct lines as [|line lines].
  { intros [= <-]. split; [auto | lia]. }
  unfold headers at 1. cbn [List.filter].
  destruct (Re.found _STIM_HDR line); cbn [negb List.length];
    fold (headers lines).
  2:{ intros H. apply IH in H as [H1 H2]. split; [exact H1 | lia]. }
  destruct (skip_blank_or_header_suffix lines) as (skipped & Hs).
  pose proof (headers_suffix skipped (skip_blank_or_header lines)) as Hh.
  rewrite <- Hs in Hh.
  destruct (skip_blank_or_header lines) as [|data_line lines'].
  { intros [= <-]. split; [auto | lia]. }
  assert (Hd : (headers lines' <= headers lines)%nat).
  { pose proof (headers_suffix [data_line] lines'). cbn [app] in *. lia. }
  destruct (Re.search _STIM_ROW data_line) as [sm|] eqn:E.
  2:{ intros H. apply IH in H as [H1 H2]. split; [exact H1 | lia]. }
  destruct (draft sm) as [rec|] eqn:D; [|discriminate].
  cbn [mbind result_bind].
  destruct (body fuel lines' rec [] false) as [[[rec' dp'] rest]|] eqn:B;
    [|discriminate].
  cbn [mbind result_bind]. intros H.
  destruct (draft_shaped _ _ _ E D) as (Hr & Ht & Hdn).
  apply body_shaped in B as ((Hr' & Ht' & Hd' & Hp') & pre & Hpre);
    [|exact Hr | rewrite Ht; discriminate | exact Hdn | constructor].
  apply IH in H as [H1 H2]. split.
  - intros Hrec. apply H1. apply Forall_app. split; [exact Hrec|].
    constructor; [|constructor]. now apply finish_shaped.
  - rewrite List.length_app in H2. cbn [List.length] in H2.
    pose proof (headers_suffix pre rest) as Hr2. rewrite <- Hpre in Hr2. lia.
Qed.

Lemma parse_stimulation_shaped (page_text : string) (recs : list stim) :
  parse_stimulation page_text = Ok recs ->
  Forall record_shaped recs
  /\ (List.length recs <= headers (Py.splitlines page_text))%nat.
Proof.
  unfold parse_stimulation, parse_lines. intros H.
  apply scan_shaped in H as [H1 H2]. split; [apply H1; constructor | exact H2].
Qed.

(** ** What a document does to the tables *)

Lemma document_records_shaped (pages : list page) :
  forall recs, document_records pages = Ok recs -> Forall record_shaped recs.
Proof.
  induction pages as [|p pages IH]; intros recs; cbn [document_records].
  - intros [= <-]. constructor.
  - destruct (_ || _); [apply IH|].
    destruct (parse_stimulation (page_text p)) as [r1|] eqn:E; [|discriminate].
    destruct (document_records pages) as [r2|]; [|discriminate].
    cbn [mbind result_bind]. intros [= <-]. apply Forall_app.
    split; [now apply parse_stimulation_shaped in E as [E _] | now apply IH].
Qed.

Lemma document_records_converts (pages : list page) :
  pages_convert pages -> exists recs, document_records pages = Ok recs.
Proof.
  induction 1 as [|p pages Hp _ (recs' & IH)]; cbn [document_records].
  - now exists [].
  - destruct (_ || _); [now exists recs'|].
    destruct (scan_converts (S (List.length (Py.splitlines (page_text p))))
                (Py.splitlines (page_text p)) [] Hp) as (recs & E); [lia|].
    unfold parse_stimulation, parse_lines. rewrite E, IH.
    cbn [mbind result_bind]. eauto.
Qed.

Lemma insert_all_raises (api_key : string) (recs : list stim)
    (rows : list stimulation_row) (e : exn) :
  insert_all api_key recs rows = Raise e -> e = OverflowError.
Proof.
  revert rows. induction recs as [|rec recs IH]; intros rows;
    cbn [insert_all]; [discriminate|].
  unfold insert_stimulation. destruct (_ && _); cbn [mbind result_bind].
  - apply IH.
  - now intros [= <-].
Qed.

(** [int] and the binding of a stage count are all that can raise. *)
Lemma insert_pages_raises (api_key : string) (pages : list page) (e : exn) :
  forall rows, insert_pages api_key pages rows = Raise e ->
    e = ValueError \/ e = OverflowError.
Proof.
  induction pages as [|p pages IH]; intros rows; cbn [insert_pages];
    [discriminate|].
  destruct (_ || _); [apply IH|].
  unfold parse_stimulation, parse_lines.
  destruct (scan_outcome (S (List.length (Py.splitlines (page_text p))))
              (Py.splitlines (page_text p)) []) as [(recs & ->)| ->]; [lia| |].
  - cbn [mbind result_bind].
    destruct (insert_all api_key recs rows) as [rows1|e1] eqn:E;
      cbn [mbind result_bind]; [apply IH|].
    intros [= <-]. right. exact (insert_all_raises _ _ _ _ E).
  - cbn [mbind result_bind]. intros [= <-]. now left.
Qed.

Lemma insert_all_run (api_key : string) (recs : list stim) :
  forall rows,
    insert_all api_key recs rows
    = if forallb fits recs
      then Ok (rows ++ List.map (StimRow api_key) recs)%list
      else Raise OverflowError.
Proof.
  induction recs as [|rec recs IH]; intros rows; cbn [insert_all forallb].
  - now rewrite app_nil_r.
  - unfold insert_stimulation. fold (fits rec).
    destruct (fits rec); cbn [mbind result_bind andb]; [|reflexivity].
    rewrite IH. destruct (forallb fits recs); [|reflexivity].
    cbn [List.map]. now rewrite <- app_assoc.
Qed.

Lemma insert_pages_run (api_key : string) (pages : list page) :
  forall rows recs,
    document_records pages = Ok recs ->
    insert_pages api_key pages rows
    = if forallb fits recs
      then Ok (rows ++ List.map (StimRow api_key) recs)%list
      else Raise OverflowError.
Proof.
  induction pages as [|p pages IH]; intros rows recs;
    cbn [document_records insert_pages].
  - intros [= <-]. cbn. now rewrite app_nil_r.
  - destruct (_ || _); [apply IH|].
    destruct (parse_stimulation (page_text p)) as [r1|]; [|discriminate].
    destruct (document_records pages) as [r2|] eqn:E; [|discriminate].
    cbn [mbind result_bind]. intros [= <-].
    rewrite insert_all_run, forallb_app.
    destruct (forallb fits r1); cbn [mbind result_bind andb]; [|reflexivity].
    rewrite (IH _ r2 eq_refl). destruct (forallb fits r2); [|reflexivity].
    now rewrite List.map_app, <- app_assoc.
Qed.

(** A document as a function of the tables. *)
Lemma process_json_run (data : doc) (conn : db) (w : well) (recs : list stim) :
  extract_well_row data = Ok w ->
  document_records (doc_pages data) = Ok recs ->
  process_json data conn
  = if forallb fits recs
    then Ok (Db (upsert_well w (wells conn))
                (stimulation conn ++ List.map (StimRow (api_number w)) recs)%list)
    else Raise OverflowError.
Proof.
  intros Hw Hr. unfold process_json. rewrite Hw. cbn [mbind result_bind].
  rewrite (insert_pages_run _ _ _ _ Hr). now destruct (forallb fits recs).
Qed.

Lemma fits_shaped (r : stim) :
  record_shaped r -> fits r = (stages r <? 2 ^ 63).
Proof.
  intros ((_ & _ & _ & _ & _ & _ & H & _) & _). unfold fits.
  replace (- 2 ^ 63 <=? stages r) with true; [reflexivity|].
  symmetry. apply Z.leb_le. lia.
Qed.

Lemma forallb_fits (recs : list stim) :
  Forall record_shaped recs ->
  forallb fits recs = forallb (fun r => stages r <? 2 ^ 63) recs.
Proof.
  induction 1 as [|r recs Hr _ IH]; [reflexivity|]. cbn [forallb].
  now rewrite IH, (fits_shaped r Hr).
Qed.

Lemma keyed_upsert (w : well) (tbl : gmap string well) :
  keyed tbl -> keyed (upsert_well w tbl).
Proof.
  intros H k r. destruct (decide (k = api_number w)) as [->|Hk].
  - rewrite upsert_well_key. intros [= <-].
    destruct (tbl !! api_number w) as [stored|] eqn:E; [|reflexivity].
    cbn [on_conflict api_number]. now apply H.
  - rewrite upsert_well_other by exact Hk. apply H.
Qed.

Lemma upsert_well_keys (w : well) (tbl : gmap string well) (k : string) :
  is_Some (upsert_well w tbl !! k) <-> is_Some (tbl !! k) \/ k = api_number w.
Proof.
  destruct (decide (k = api_number w)) as [->|Hk].
  - rewrite upsert_well_key. split; eauto.
  - rewrite upsert_well_other by exact Hk. split; [auto|].
    now intros [H|H].
Qed.

Lemma upsert_well_size (w : well) (tbl : gmap string well) :
  (size tbl <= size (upsert_well w tbl) <= S (size tbl))%nat.
Proof.
  unfold upsert_well. destruct (tbl !! api_number w) as [stored|] eqn:E.
  - rewrite map_size_insert_Some by eauto. lia.
  - rewrite map_size_insert_None by exact E. lia.
Qed.

Lemma process_json_integrity (data : doc) (conn conn' : db) :
  process_json data conn = Ok conn' ->
  keyed (wells conn) -> referenced conn ->
  keyed (wells conn') /\ referenced conn'.
Proof.
  intros H Hk Hr. apply process_json_spec in H as (w & recs & _ & _ & Hw & Hs).
  split; [rewrite Hw; now apply keyed_upsert|].
  intros row Hin. rewrite Hs in Hin. rewrite Hw. apply upsert_well_keys.
  apply in_app_or in Hin as [Hin|Hin]; [left; now apply Hr|].
  apply List.in_map_iff in Hin as (r & <- & _). now right.
Qed.

Lemma process_all_integrity (json_files : list doc) :
  forall conn conn', process_all json_files conn = Ok conn' ->
    keyed (wells conn) -> referenced conn ->
    keyed (wells conn') /\ referenced conn'.
Proof.
  induction json_files as [|data rest IH]; intros conn conn'; cbn [process_all].
  - intros [= <-]. auto.
  - destruct (process_json data conn) as [c1|] eqn:E; [|discriminate].
    cbn [mbind result_bind]. intros H Hk Hr.
    destruct (process_json_integrity _ _ _ E Hk Hr) as [Hk1 Hr1].
    eapply IH; eassumption.
Qed.

Lemma process_all_size (json_files : list doc) :
  forall conn conn', process_all json_files conn = Ok conn' ->
    (size (wells conn) <= size (wells conn')
       <= size (wells conn) + List.length json_files)%nat.
Proof.
  induction json_files as [|data rest IH]; intros conn conn'; cbn [process_all].
  - intros [= <-]. cbn. lia.
  - destruct (process_json data conn) as [c1|] eqn:E; [|discriminate].
    cbn [mbind result_bind]. intros H. apply IH in H.
    apply process_json_spec in E as (w & recs & _ & _ & Hw & _).
    pose proof (upsert_well_size w (wells conn)) as Hs. rewrite <- Hw in Hs.
    cbn [List.length]. lia.
Qed.

Lemma key_of_spec (data : doc) (w : well) :
  extract_well_row data = Ok w -> key_of data = Some (api_number w).
Proof. unfold key_of. now intros ->. Qed.

(** Where a row of [wells] comes from after a run of documents: from the
    row that was there before, or from the first document with its key. *)
Lemma process_all_origin (json_files : list doc) :
  forall conn conn', process_all json_files conn = Ok conn' ->
  forall k r', wells conn' !! k = Some r' ->
    (exists r, wells conn !! k = Some r /\ row_kept r r')
    \/ (wells conn !! k = None
        /\ exists pre data post w,
             json_files = (pre ++ data :: post)%list
             /\ Forall (fun d => key_of d <> Some k) pre
             /\ extract_well_row data = Ok w /\ api_number w = k
             /\ row_kept w r').
Proof.
  induction json_files as [|d0 rest IH]; intros conn conn'; cbn [process_all].
  - intros [= <-] k r' H. left. exists r'. split; [exact H | apply row_kept_refl].
  - destruct (process_json d0 conn) as [c1|] eqn:E; [|discriminate].
    cbn [mbind result_bind]. intros H k r' Hk.
    apply process_json_spec in E as (w0 & recs & Hw0 & _ & Hw & _).
    destruct (IH _ _ H k r' Hk) as [(r1 & H1 & K1)|(H1 & pre & d & post & w & Hd & Hp & He & Ha & K)].
    + rewrite Hw in H1. destruct (decide (k = api_number w0)) as [->|Hne].
      * rewrite upsert_well_key in H1. injection H1 as <-.
        destruct (wells conn !! api_number w0) as [stored|] eqn:Es.
        -- left. exists stored. split; [reflexivity|].
           eapply row_kept_trans; [apply on_conflict_kept | exact K1].
        -- right. split; [reflexivity|]. exists [], d0, rest, w0.
           split; [reflexivity|]. split; [constructor|]. auto.
      * rewrite upsert_well_other in H1 by exact Hne. left. eauto.
    + rewrite Hw in H1.
      assert (Hne : k <> api_number w0).
      { intros ->. now rewrite upsert_well_key in H1. }
      rewrite upsert_well_other in H1 by exact Hne.
      right. split; [exact H1|]. exists (d0 :: pre), d, post, w.
      rewrite Hd. split; [reflexivity|]. split; [|auto].
      constructor; [|exact Hp]. rewrite (key_of_spec _ _ Hw0). congruence.
Qed.

(** ** Runs of documents *)

Lemma keyed_empty : keyed ∅.
Proof. intros k r H. now rewrite lookup_empty in H. Qed.

Lemma referenced_no_rows : referenced no_rows.
Proof. intros row H. destruct H. Qed.

Lemma forallb_below (recs : list stim) :
  Forall (fun r => stages r < 2 ^ 63) recs ->
  forallb (fun r => stages r <? 2 ^ 63) recs = true.
Proof.
  induction 1 as [|r recs Hr _ IH]; [reflexivity|]. cbn [forallb].
  rewrite IH, andb_true_r. now apply Z.ltb_lt.
Qed.

Lemma forallb_beyond (recs : list stim) :
  Exists (fun r => 2 ^ 63 <= stages r) recs ->
  forallb (fun r => stages r <? 2 ^ 63) recs = false.
Proof.
  induction 1 as [r recs Hr|r recs _ IH]; cbn [forallb].
  - replace (stages r <? 2 ^ 63) with false; [reflexivity|].
    symmetry. apply Z.ltb_ge. exact Hr.
  - rewrite IH. apply andb_false_r.
Qed.

Lemma unmarked_records (pages : list page) :
  Forall (fun p => Str.contains "Date Stimulat" (page_text p) = false) pages ->
  document_records pages = Ok [].
Proof.
  induction 1 as [|p pages Hp _ IH]; [reflexivity|]. cbn [document_records].
  rewrite Hp. cbn [negb]. rewrite orb_true_r. exact IH.
Qed.

(** X17: processing a document a second time leaves [wells] as the first
    time left it and inserts the document's stimulation rows once more. *)
Theorem rerun_document (data : doc) (conn c1 : db) :
  process_json data conn = Ok c1 ->
  exists c2 rows,
    stimulation c1 = (stimulation conn ++ rows)%list
    /\ process_json data c1 = Ok c2
    /\ wells c2 = wells c1
    /\ stimulation c2 = (stimulation c1 ++ rows)%list.
Proof.
  intros H. pose proof H as H0.
  apply process_json_spec in H0 as (w & recs & Hw & Hr & Hws & Hs).
  rewrite (process_json_run _ _ _ _ Hw Hr) in H.
  destruct (forallb fits recs) eqn:F; [|discriminate].
  eexists _, _. split; [exact Hs|].
  rewrite (process_json_run _ c1 _ _ Hw Hr), F.
  split; [reflexivity|]. cbn [wells stimulation].
  split; [|reflexivity]. rewrite Hws. apply upsert_well_twice.
Qed.

Lemma rerun_document_witness :
  exists c1 c2 row,
    process_json doc_section8 no_rows = Ok c1
    /\ stimulation c1 = [row]
    /\ process_json doc_section8 c1 = Ok c2
    /\ wells c2 = wells c1
    /\ stimulation c2 = [row; row].
Proof.
  assert (E : exists c1 row, process_json doc_section8 no_rows = Ok c1
                /\ stimulation c1 = [row])
    by (vm_compute; eexists _, _; split; reflexivity).
  destruct E as (c1 & row & E & Hrow).
  destruct (rerun_document doc_section8 no_rows c1 E)
    as (c2 & rows & H1 & H2 & H3 & H4).
  exists c1, c2, row.
  rewrite Hrow in H1, H4. unfold no_rows in H1. cbn [stimulation app] in H1.
  subst rows. exact (conj E (conj Hrow (conj H2 (conj H3 H4)))).
Defined.

(** X18: [process_json] keeps the integrity of the tables: every row of
    [wells] stays stored under its own [api_number], every row of
    [stimulation] keeps referring to a row of [wells], and the keys of
    [wells] are the keys it had and the key of the document. *)
Theorem process_json_keeps_integrity (data : doc) (conn conn' : db) :
  process_json data conn = Ok conn' ->
  keyed (wells conn) -> referenced conn ->
  keyed (wells conn') /\ referenced conn'
  /\ forall k, is_Some (wells conn' !! k)
               <-> is_Some (wells conn !! k) \/ key_of data = Some k.
Proof.
  intros H Hk Hr.
  destruct (process_json_integrity _ _ _ H Hk Hr) as [H1 H2].
  split; [exact H1|]. split; [exact H2|].
  apply process_json_spec in H as (w & recs & Hw & _ & Hws & _).
  intros k. rewrite Hws, upsert_well_keys, (key_of_spec _ _ Hw).
  split; (intros [K|K]; [now left | right; congruence]).
Qed.

Lemma process_json_keeps_integrity_witness :
  exists conn',
    process_json doc_section8 no_rows = Ok conn'
    /\ keyed (wells conn') /\ referenced conn'
    /\ is_Some (wells conn' !! "NDIC-20197").
Proof.
  assert (E : exists c1, process_json doc_section8 no_rows = Ok c1)
    by (vm_compute; eexists; reflexivity).
  destruct E as (c1 & E).
  assert (K : key_of doc_section8 = Some "NDIC-20197")
    by (vm_compute; reflexivity).
  destruct (process_json_keeps_integrity doc_section8 no_rows c1 E
              keyed_empty referenced_no_rows) as (H1 & H2 & H3).
  exists c1.
  exact (conj E (conj H1 (conj H2 (proj2 (H3 "NDIC-20197") (or_intror K))))).
Defined.

(** X16: when the extraction of a document succeeds, [process_json]
    raises nothing but [ValueError] and [OverflowError]; and when the
    stage count of the row found in any line of its pages is a text that
    [int] converts, it succeeds exactly when every stage count of its
    records is below 2^63: it then upserts the well and appends the
    records in page order; a stage count of 2^63 or more ends it with
    [OverflowError]. *)
Theorem process_json_outcome (data : doc) (conn : db) (w : well) :
  extract_well_row data = Ok w ->
  (forall e, process_json data conn = Raise e ->
             e = ValueError \/ e = OverflowError)
  /\ (pages_convert (doc_pages data) ->
      exists recs,
        document_records (doc_pages data) = Ok recs
        /\ (Forall (fun r => stages r < 2 ^ 63) recs ->
            process_json data conn
            = Ok (Db (upsert_well w (wells conn))
                     (stimulation conn
                      ++ List.map (StimRow (api_number w)) recs)%list))
        /\ (Exists (fun r => 2 ^ 63 <= stages r) recs ->
            process_json data conn = Raise OverflowError)).
Proof.
  intros Hw. split.
  - intros e. unfold process_json. rewrite Hw. cbn [mbind result_bind].
    destruct (insert_pages _ _ _) as [rows|e1] eqn:E; cbn [mbind result_bind];
      [discriminate|].
    intros [= <-]. exact (insert_pages_raises _ _ _ _ E).
  - intros Hc. destruct (document_records_converts _ Hc) as (recs & Hr).
    pose proof (document_records_shaped _ _ Hr) as Hs.
    exists recs. split; [exact Hr|].
    rewrite (process_json_run _ _ _ _ Hw Hr), (forallb_fits _ Hs).
    split; intros H.
    + now rewrite forallb_below.
    + now rewrite forallb_beyond.
Qed.

Lemma section8_header_converts : stages_convert section8_header.
Proof.
  assert (N : Re.search _STIM_ROW section8_header = None)
    by (vm_compute; reflexivity).
  intros sm H. rewrite N in H. discriminate H.
Qed.

Lemma process_json_outcome_witness :
  process_json doc_many_stages no_rows = Raise OverflowError.
Proof.
  assert (E : exists w, extract_well_row doc_many_stages = Ok w)
    by (vm_compute; eexists; reflexivity).
  destruct E as (w & E).
  assert (C : pages_convert (doc_pages doc_many_stages)).
  { unfold pages_convert, doc_many_stages. cbn [doc_pages].
    constructor; [|constructor]. cbn [page_text].
    assert (S : Py.splitlines many_stages_page
                = [section8_header;
                   "06/15/2014 Bakken 11230 20890 9223372036854775808 65432 Barrels"])
      by (vm_compute; reflexivity).
    rewrite S. constructor; [exact section8_header_converts|].
    constructor; [|constructor].
    assert (M : exists m,
               Re.search _STIM_ROW
                 "06/15/2014 Bakken 11230 20890 9223372036854775808 65432 Barrels"
               = Some m
               /\ (String.length (group_text 5 m) <=? Num.max_str_digits)%nat
                  = true)
      by (vm_compute; eexists; split; reflexivity).
    destruct M as (m & M & L). intros sm H. rewrite M in H.
    injection H as <-. now apply Nat.leb_le. }
  destruct (proj2 (process_json_outcome doc_many_stages no_rows w E) C)
    as (recs & Hr & _ & H).
  apply H.
  assert (R : exists r, document_records (doc_pages doc_many_stages) = Ok [r]
                /\ stages r = 2 ^ 63)
    by (vm_compute; eexists; split; reflexivity).
  destruct R as (r & R & Hs). rewrite R in Hr. injection Hr as <-.
  constructor. rewrite Hs. lia.
Defined.

(** A stage count of 4301 digits ends the document in the parser, with
    the [ValueError] of [int]. *)
Example long_stage_count_raises :
  process_json doc_long_stages no_rows = Raise ValueError.
Proof. vm_compute. reflexivity. Qed.

(** X15: a page whose text does not contain the exact text
    [Date Stimulat] adds no stimulation row, whatever the parser would
    make of it. *)
Theorem unmarked_pages_add_nothing (data : doc) (conn conn' : db) :
  Forall (fun p => Str.contains "Date Stimulat" (page_text p) = false)
         (doc_pages data) ->
  process_json data conn = Ok conn' ->
  stimulation conn' = stimulation conn.
Proof.
  intros Hp H. apply process_json_spec in H as (w & recs & _ & Hr & _ & ->).
  rewrite (unmarked_records _ Hp) in Hr. injection Hr as <-.
  apply app_nil_r.
Qed.

Lemma unmarked_pages_add_nothing_witness :
  exists r conn',
    parse_stimulation capitals_page = Ok [r]
    /\ process_json doc_capitals no_rows = Ok conn'
    /\ stimulation conn' = [].
Proof.
  assert (E : exists c1, process_json doc_capitals no_rows = Ok c1)
    by (vm_compute; eexists; reflexivity).
  destruct E as (c1 & E).
  assert (P : exists r, parse_stimulation capitals_page = Ok [r])
    by (vm_compute; eexists; reflexivity).
  destruct P as (r & P).
  assert (Hp : Forall (fun p => Str.contains "Date Stimulat" (page_text p) = false)
                      (doc_pages doc_capitals))
    by (repeat constructor).
  exists r, c1.
  exact (conj P (conj E (unmarked_pages_add_nothing doc_capitals no_rows c1 Hp E))).
Defined.

(** X19: [main] stops at the first document that raises: the documents
    before it are not committed, the documents after it are not read,
    and the file is left as [create_tables] committed it. *)
Theorem main_aborts (pre post : list doc) (data : doc) (file : store)
    (conn : db) (e : exn) :
  process_all pre (create_tables file) = Ok conn ->
  process_json data conn = Raise e ->
  main (pre ++ data :: post) file = (commit (create_tables file), Failed e).
Proof.
  intros Hpre Hd. unfold main.
  rewrite process_all_app, Hpre. cbn [mbind result_bind process_all].
  rewrite Hd. cbn [mbind result_bind]. now destruct pre.
Qed.

Lemma main_aborts_witness :
  main [doc_section8; doc_bad_seconds; doc_number_in_filename] no_tables
  = (Store (Some ∅) (Some []), Failed ValueError).
Proof.
  assert (E : exists conn, process_all [doc_section8] (create_tables no_tables) = Ok conn)
    by (vm_compute; eexists; reflexivity).
  destruct E as (conn & E).
  assert (R : process_json doc_bad_seconds conn = Raise ValueError)
    by (vm_compute; reflexivity).
  exact (main_aborts [doc_section8] [doc_number_in_filename] doc_bad_seconds
           no_tables conn ValueError E R).
Defined.

(** X20: a run of [main] that ends with its report keeps every row the
    file had: in [wells] the key, [state], [pdf_filename] and every
    non-null [well_number], [operator], [county], [shl_desc], [latitude],
    [longitude] and [datum] are unchanged and the name is not shorter; the
    rows of [stimulation] are a prefix of the new ones.  The counts of the
    report are the sizes of the tables, and [wells] grows by at most one
    row for each document. *)
Theorem main_keeps_rows (json_files : list doc) (file file' : store)
    (w_count s_count : nat) :
  main json_files file = (file', Done w_count s_count) ->
  exists conn',
    file' = commit conn'
    /\ extends (create_tables file) conn'
    /\ w_count = size (wells conn')
    /\ s_count = List.length (stimulation conn')
    /\ (size (wells (create_tables file)) <= w_count
          <= size (wells (create_tables file)) + List.length json_files)%nat.
Proof.
  unfold main. destruct json_files as [|d ds]; [discriminate|].
  destruct (process_all (d :: ds) (create_tables file)) as [conn'|] eqn:E;
    [|discriminate].
  intros [= <- <- <-]. exists conn'.
  split; [reflexivity|]. split; [now apply process_all_extends in E|].
  split; [reflexivity|]. split; [reflexivity|]. now apply process_all_size in E.
Qed.

Lemma main_keeps_rows_witness :
  exists file' conn',
    main [doc_section8; doc_section8] no_tables = (file', Done 1 2)
    /\ file' = commit conn'
    /\ extends (create_tables no_tables) conn'.
Proof.
  assert (E : exists file', main [doc_section8; doc_section8] no_tables
                            = (file', Done 1 2))
    by (vm_compute; eexists; reflexivity).
  destruct E as (file' & E).
  destruct (main_keeps_rows _ _ _ _ _ E) as (conn' & H1 & H2 & _).
  exists file', conn'. exact (conj E (conj H1 H2)).
Defined.

(** X21: on a file without tables, every row of [wells] that a run of
    [main] leaves stems from the first document, in the order of the
    run, that has its key: the row has that document's [pdf_filename] and
    well number and the state [ND]; and every row of [stimulation] refers
    to a row of [wells]. *)
Theorem main_first_document_wins (json_files : list doc) (file' : store)
    (w_count s_count : nat) :
  main json_files no_tables = (file', Done w_count s_count) ->
  exists tbl rows,
    file' = Store (Some tbl) (Some rows)
    /\ (forall k r, tbl !! k = Some r ->
          exists pre data post w,
            json_files = (pre ++ data :: post)%list
            /\ Forall (fun d => key_of d <> Some k) pre
            /\ extract_well_row data = Ok w
            /\ api_number w = k /\ api_number r = k
            /\ state r = Some "ND"
            /\ pdf_filename r = Some (doc_pdf_filename data)
            /\ well_number r = well_number w)
    /\ (forall row, In row rows -> is_Some (tbl !! stim_api_number row)).
Proof.
  unfold main. destruct json_files as [|d ds]; [discriminate|].
  destruct (process_all (d :: ds) (create_tables no_tables)) as [conn'|] eqn:E;
    [|discriminate].
  intros [= <- _ _]. exists (wells conn'), (stimulation conn').
  split; [reflexivity|]. split.
  - intros k r Hk.
    destruct (process_all_origin _ _ _ E k r Hk)
      as [(r0 & H0 & _)|(_ & pre & data & post & w & Hd & Hp & Hw & Ha & K)].
    { cbn in H0. now rewrite lookup_empty in H0. }
    exists pre, data, post, w.
    destruct K as (K1 & K2 & K3 & _ & K5 & _).
    destruct (extract_well_row_fields _ _ Hw) as (_ & Hpdf & Hst & _).
    destruct (extract_well_row_identity _ _ Hw) as (Hwn & _).
    rewrite Hwn in K5. cbn [settled] in K5.
    repeat split; try assumption; congruence.
  - destruct (process_all_integrity _ _ _ E keyed_empty referenced_no_rows)
      as [_ Hr].
    exact Hr.
Qed.

Lemma main_first_document_wins_witness :
  exists file' tbl rows,
    main [doc_section8; doc_number_in_filename] no_tables = (file', Done 1 1)
    /\ file' = Store (Some tbl) (Some rows)
    /\ forall k r, tbl !! k = Some r -> pdf_filename r = Some "W20197.pdf".
Proof.
  assert (E : exists file', main [doc_section8; doc_number_in_filename] no_tables
                            = (file', Done 1 1))
    by (vm_compute; eexists; reflexivity).
  destruct E as (file' & E).
  destruct (main_first_document_wins _ _ _ _ E) as (tbl & rows & H1 & H2 & _).
  exists file', tbl, rows. split; [exact E|]. split; [exact H1|].
  intros k r K.
  destruct (H2 _ _ K) as (pre & data & post & w & Hd & _ & _ & _ & _ & _ & Hpdf & _).
  rewrite Hpdf. f_equal.
  assert (D : forall d, In d [doc_section8; doc_number_in_filename] ->
                doc_pdf_filename d = "W20197.pdf").
  { intros d0 [<-|[<-|[]]]; reflexivity. }
  apply D. rewrite Hd. apply in_or_app. right. now left.
Defined.

(** ** collect_page_data *)

Lemma collect_page_data_from (pages : list page) :
  forall (merged : gmap string string) (texts : list string) (k : string),
    let r := foldl (fun '(merged_fields, all_texts) p =>
                      (page_fields p ∪ merged_fields,
                       if Str.truthy (Str.strip (page_text p))
                       then (all_texts ++ [page_text p])%list else all_texts))
                   (merged, texts) pages in
    r.1 !! k = (match last_field k pages with Some v => Some v | None => merged !! k end)
    /\ r.2 = (texts ++ List.map page_text (List.filter has_text pages))%list.
Proof.
  induction pages as [|p pages IH]; intros merged texts k; cbn [foldl last_field].
  - cbn. now rewrite app_nil_r.
  - cbv zeta in IH. destruct (IH (page_fields p ∪ merged)
       (if Str.truthy (Str.strip (page_text p))
        then (texts ++ [page_text p])%list else texts) k) as [H1 H2].
    cbv zeta. rewrite H1, H2. split.
    + destruct (last_field k pages); [reflexivity|].
      destruct (page_fields p !! k) as [v|] eqn:E.
      * now apply lookup_union_Some_l.
      * now apply lookup_union_r.
    + cbn [List.filter]. unfold has_text at 2.
      destruct (Str.truthy (Str.strip (page_text p))); [|reflexivity].
      cbn [List.map]. now rewrite <- app_assoc.
Qed.

(** X1: [collect_page_data] gives each field label the value of the last
    page that has it, and the texts of the pages that are not blank, in
    page order. *)
Theorem collect_page_data_spec (pages : list page) (k : string) :
  (collect_page_data pages).1 !! k = last_field k pages
  /\ (collect_page_data pages).2 = List.map page_text (List.filter has_text pages).
Proof.
  destruct (collect_page_data_from pages ∅ [] k) as [H1 H2].
  unfold collect_page_data. cbv zeta in H1, H2. rewrite H1, H2. split.
  - destruct (last_field k pages); [reflexivity | apply lookup_empty].
  - reflexivity.
Qed.

(** ** _normalize_api on its own results *)

Lemma filter_filter p q (s : string) :
  Str.filter p (Str.filter q s) = Str.filter (fun c => q c && p c) s.
Proof.
  induction s as [|c s IH]; [reflexivity|]. cbn [Str.filter].
  destruct (q c); cbn [andb Str.filter]; [|exact IH].
  destruct (p c); now rewrite IH.
Qed.

Lemma digits_of_stripped (s : string) : digits_of (stripped s) = digits_of s.
Proof.
  unfold digits_of, stripped. rewrite filter_filter. apply filter_ext.
  intros c. destruct (is_digit c) eqn:E; [|apply andb_false_r].
  now destruct (digit_class c E) as [-> _].
Qed.

Lemma stripped_stripped (s : string) : stripped (stripped s) = stripped s.
Proof. unfold stripped. apply filter_all, all_filter. Qed.

Lemma normalize_api_fixed (raw r : string) :
  _normalize_api raw = Some r ->
  _normalize_api r = Some r
  /\ stripped r = r /\ Str.any is_alpha r = false
  /\ digits_of r = digits_of raw
  /\ (8 <= String.length (digits_of raw))%nat.
Proof.
  pose proof (all_filter is_digit raw) as Hd. fold (digits_of raw) in Hd.
  destruct (Str.any is_alpha (stripped raw)) eqn:Ha.
  { rewrite normalize_api_unfold, Ha. discriminate. }
  destruct (Nat.ltb_spec (String.length (digits_of raw)) 8) as [Hlt|Hge].
  { rewrite normalize_api_unfold, Ha. cbv zeta.
    replace (_ <? 8)%nat with true by (symmetry; now apply Nat.ltb_lt).
    discriminate. }
  destruct (Nat.eq_dec (String.length (digits_of raw)) 14) as [H14|N14].
  { rewrite (normalize_api_14 raw Ha H14). intros [= <-].
    destruct (canonical5_facts _ Hd) as (F1 & F2 & F3).
    rewrite (normalize_canonical5 _ Hd H14), F3, (regroup5 _ H14). auto. }
  destruct (Nat.eq_dec (String.length (digits_of raw)) 10) as [H10|N10].
  { rewrite (normalize_api_10 raw Ha H10). intros [= <-].
    destruct (canonical3_facts _ Hd) as (F1 & F2 & F3).
    rewrite (normalize_canonical3 _ Hd H10), F3, (regroup3 _ H10). auto. }
  assert (Hother : forall s, Str.any is_alpha (stripped s) = false ->
            digits_of s = digits_of raw -> _normalize_api s = Some (stripped s)).
  { intros s Hs Hds. rewrite normalize_api_unfold, Hs, Hds. cbv zeta.
    replace (_ <? 8)%nat with false by (symmetry; apply Nat.ltb_ge; lia).
    replace (_ =? 14)%nat with false by (symmetry; now apply Nat.eqb_neq).
    replace (_ =? 10)%nat with false by (symmetry; now apply Nat.eqb_neq).
    reflexivity. }
  rewrite (Hother raw Ha eq_refl). intros [= <-].
  rewrite stripped_stripped, digits_of_stripped.
  rewrite Hother by (rewrite ?stripped_stripped, ?digits_of_stripped; auto).
  rewrite stripped_stripped. auto.
Qed.

(** X4: [_normalize_api] is idempotent on every result, not only on the
    dashed forms: a result has no whitespace and no letter, has the
    digits of the candidate (eight at least), and normalizes to itself. *)
Theorem normalize_api_idempotent (raw r : string) :
  _normalize_api raw = Some r ->
  _normalize_api r = Some r
  /\ Str.any is_space r = false /\ Str.any is_alpha r = false
  /\ digits_of r = digits_of raw
  /\ (8 <= String.length (digits_of raw))%nat.
Proof.
  intros H. destruct (normalize_api_fixed raw r H) as (H1 & H2 & H3 & H4 & H5).
  repeat split; try assumption.
  rewrite <- H2. unfold stripped. apply (any_none nonspace_c).
  - intros c. unfold nonspace_c. now destruct (is_space c).
  - apply all_filter.
Qed.

Lemma normalize_api_idempotent_witness :
  _normalize_api " 33 0530 1234 5 " = Some "33053012345"
  /\ _normalize_api "33053012345" = Some "33053012345".
Proof.
  assert (H : _normalize_api " 33 0530 1234 5 " = Some "33053012345")
    by (vm_compute; reflexivity).
  exact (conj H (proj1 (normalize_api_idempotent _ _ H))).
Defined.

(** X5: [_normalize_api] does not see whitespace: two candidates that are
    equal once their whitespace is removed have the same result. *)
Theorem normalize_api_whitespace (a b : string) :
  stripped a = stripped b -> _normalize_api a = _normalize_api b.
Proof.
  intros H. rewrite !normalize_api_unfold.
  rewrite <- (digits_of_stripped a), <- (digits_of_stripped b). now rewrite H.
Qed.

Lemma normalize_api_whitespace_witness :
  _normalize_api "33 053 01234" = _normalize_api (" 33053" ++ String "009" "01234").
Proof. apply normalize_api_whitespace. vm_compute. reflexivity. Defined.

(** ** The well number and the key of a record *)

Lemma accept_spec (c : option string) (d : string) :
  accept c = Some d <->
  exists v, c = Some v /\ d = digits_of v
    /\ 1000 <= Num.digits_val 0 d <= 199999.
Proof.
  unfold accept. destruct c as [v|].
  - cbv zeta. destruct (_ && _) eqn:E.
    + apply andb_prop in E as [E1 E2]. apply Z.leb_le in E1, E2. split.
      * intros [= <-]. exists v. auto.
      * intros (v' & [= <-] & -> & _). reflexivity.
    + split; [discriminate|]. intros (v' & [= <-] & -> & H1 & H2).
      apply Z.leb_le in H1, H2. rewrite H1, H2 in E. discriminate.
  - split; [discriminate|]. now intros (v & H & _).
Qed.

(** X6: [_valid_well_num] raises nothing but [ValueError], and raises it
    exactly when the candidate has more digits than [int] converts (more
    than 4300); otherwise it accepts the candidate exactly when the
    number its digits spell lies in 1000 to 199999, and the accepted
    number is the text of those digits, leading zeros kept. *)
Theorem valid_well_num_spec (val : option string) :
  (forall e, _valid_well_num val = Raise e <-> e = ValueError /\ over_limit val)
  /\ (forall o, _valid_well_num val = Ok o ->
       forall d, o = Some d <->
         exists v, val = Some v /\ d = digits_of v
           /\ 1000 <= Num.digits_val 0 d <= 199999).
Proof.
  rewrite valid_well_num_run. destruct (over_limitb val) eqn:Ho.
  - apply over_limitb_spec in Ho. split; [|discriminate].
    intros e. split; [now intros [= <-] | now intros (-> & _)].
  - apply over_limitb_false in Ho. split.
    + intros e. split; [discriminate | now intros (_ & H)].
    + intros o [= <-] d. apply accept_spec.
Qed.

Lemma valid_well_num_spec_witness :
  _valid_well_num (Some (ones 4301)) = Raise ValueError.
Proof.
  apply (proj1 (valid_well_num_spec (Some (ones 4301)))).
  split; [reflexivity|]. exists (ones 4301). split; [reflexivity|].
  apply Nat.ltb_lt. vm_compute. reflexivity.
Defined.

Lemma first_accepted_digits (cands : list (option string)) (d : string) :
  first_accepted cands = Some d -> Str.all is_digit d = true.
Proof.
  induction cands as [|c cands IH]; cbn [first_accepted]; [discriminate|].
  destruct (accept c) as [d'|] eqn:E; [|exact IH]. intros [= <-].
  apply accept_spec in E as (v & _ & -> & _). apply all_filter.
Qed.

Lemma fallback_key_letter (wn : string) :
  Str.truthy (fallback_key wn) = true
  /\ Str.any is_alpha (fallback_key wn) = true.
Proof. unfold fallback_key. now destruct (Str.truthy wn). Qed.

Lemma resolve_api_fixed (merged_fields : gmap string string)
    (all_texts : list string) (api : string) :
  resolve_api merged_fields all_texts = Some api ->
  _normalize_api api = Some api /\ Str.any is_alpha api = false
  /\ Str.truthy api = true.
Proof.
  unfold resolve_api. destruct (is_truthy _); [|discriminate]. intros H.
  apply normalize_api_fixed in H as (H1 & _ & H3 & H4 & H5).
  repeat split; try assumption. rewrite <- H4 in H5.
  destruct api; [simpl in H5; lia | reflexivity].
Qed.

(** X7: the key of an extracted record is never empty, and a key made
    from an API number has no letter while a fallback key ([NDIC-] and
    the well number, or [UNKNOWN]) has one, so the two kinds never
    coincide; the well number of the record is a text of digits. *)
Theorem record_key_shape (data : doc) (rec : well) :
  extract_well_row data = Ok rec ->
  let merged_fields := (collect_page_data (doc_pages data)).1 in
  let all_texts := (collect_page_data (doc_pages data)).2 in
  exists wn,
    well_number rec = Some wn /\ Str.all is_digit wn = true
    /\ Str.truthy (api_number rec) = true
    /\ match resolve_api merged_fields all_texts with
       | Some api =>
         api_number rec = api /\ Str.any is_alpha api = false
         /\ _normalize_api api = Some api
       | None =>
         api_number rec = fallback_key wn
         /\ Str.any is_alpha (api_number rec) = true
       end.
Proof.
  intros H mf texts.
  destruct (extract_well_row_identity data rec H) as [Hwn Hkey].
  fold mf texts in Hwn, Hkey. eexists. split; [exact Hwn|]. split.
  { destruct (first_accepted _) as [d|] eqn:E; cbn [default from_option id].
    - now apply first_accepted_digits in E.
    - apply all_filter. }
  rewrite Hkey. destruct (resolve_api mf texts) as [api|] eqn:E.
  - apply resolve_api_fixed in E as (E1 & E2 & E3).
    unfold api_key_of. cbn [is_truthy default from_option id]. rewrite E3. auto.
  - rewrite api_key_fallback.
    destruct (fallback_key_letter
                (default (digits_of (Py.path_stem (doc_pdf_filename data)))
                   (first_accepted (well_number_candidates mf texts)))) as [F1 F2].
    auto.
Qed.

Lemma record_key_shape_witness :
  exists rec, extract_well_row doc_section8 = Ok rec
    /\ well_number rec = Some "20197" /\ api_number rec = "NDIC-20197".
Proof.
  assert (E : exists rec, extract_well_row doc_section8 = Ok rec
                /\ well_number rec = Some "20197" /\ api_number rec = "NDIC-20197")
    by (vm_compute; eexists; repeat split).
  destruct E as (rec & E & H1 & H2).
  destruct (record_key_shape doc_section8 rec E) as (wn & _).
  exists rec. exact (conj E (conj H1 H2)).
Defined.

(** ** What the conversions raise *)

Lemma float_of_value_error (s : string) (e : exn) :
  Num.float_of s = Raise e -> e = ValueError.
Proof.
  unfold Num.float_of. destruct (Num.split_dot s) as [ip fo].
  destruct (_ && _ && _).
  - destruct (Num.digits_val 0 _); discriminate.
  - now intros [= <-].
Qed.

Lemma class_digits_iff (s : string) :
  Str.all (fun c => is_digit c || eqc c ".") s = true ->
  Str.all is_digit s = (dots s =? 0)%nat /\ (Str.all is_digit s = true -> digits_of s = s).
Proof.
  unfold dots, digits_of. induction s as [|c s IH]; [now split|].
  cbn [Str.all Str.filter]. intros H. apply andb_prop in H as [Hc H].
  destruct (IH H) as [IH1 IH2].
  assert (Hsym : eqc "." c = eqc c ".") by apply Ascii.eqb_sym.
  rewrite Hsym. destruct (is_digit c) eqn:E.
  - rewrite (digit_not_dot c E). cbn [andb]. split; [exact IH1|].
    intros K. now rewrite IH2.
  - cbn [orb] in Hc. rewrite Hc.
    cbn. split; [reflexivity | discriminate].
Qed.

Lemma split_dot_class (s : string) :
  Str.all (fun c => is_digit c || eqc c ".") s = true ->
  match Num.split_dot s with
  | (ip, None) => ip = s /\ Str.all is_digit s = true
  | (ip, Some fp) =>
    Str.all is_digit ip = true
    /\ Str.all (fun c => is_digit c || eqc c ".") fp = true
    /\ dots s = S (dots fp)
    /\ digits_of s = ip ++ digits_of fp
  end.
Proof.
  induction s as [|c s IH]; [now split|].
  cbn [Str.all Num.split_dot]. intros H. apply andb_prop in H as [Hc H].
  specialize (IH H). unfold dots, digits_of in *. cbn [Str.filter].
  assert (Hsym : eqc "." c = eqc c ".") by apply Ascii.eqb_sym.
  rewrite Hsym. destruct (eqc c ".") eqn:E.
  - apply Ascii.eqb_eq in E. subst c. cbn. auto.
  - rewrite orb_false_r in Hc. rewrite Hc.
    destruct (Num.split_dot s) as [ip [fp|]].
    + destruct IH as (I1 & I2 & I3 & I4). cbn [Str.all].
      rewrite ?Hc, ?I1, ?I3, ?I4. now rewrite append_cons.
    + destruct IH as [-> I2]. cbn [Str.all]. now rewrite ?Hc, ?I2.
Qed.

(** [float] on a text of digits and full stops. *)
Lemma float_of_class (s : string) :
  Str.all (fun c => is_digit c || eqc c ".") s = true ->
  (Num.float_of s = Raise ValueError <-> no_number s)
  /\ (~ no_number s -> exists x, Num.float_of s = Ok x).
Proof.
  intros H. pose proof (split_dot_class s H) as Hs.
  assert (Hcond : forall b : bool,
            (b = false <-> no_number s) ->
            ((if b then
               match Num.digits_val 0
                       (fst (Num.split_dot s)
                        ++ default EmptyString (snd (Num.split_dot s))) with
               | Zpos n =>
                 Ok (Num.of_ratio false n
                       (Num.pow10 (String.length
                          (default EmptyString (snd (Num.split_dot s))))))
               | _ => Ok (S754_zero false)
               end
             else Raise ValueError) = Raise ValueError <-> no_number s)
            /\ (~ no_number s -> exists x,
                  (if b then
                     match Num.digits_val 0
                             (fst (Num.split_dot s)
                              ++ default EmptyString (snd (Num.split_dot s))) with
                     | Zpos n =>
                       Ok (Num.of_ratio false n
                             (Num.pow10 (String.length
                                (default EmptyString (snd (Num.split_dot s))))))
                     | _ => Ok (S754_zero false)
                     end
                   else Raise ValueError) = Ok x)).
  { intros b Hb. destruct b.
    - split.
      + split; [destruct (Num.digits_val 0 _); discriminate|].
        intros K. apply Hb in K. discriminate.
      + intros _. destruct (Num.digits_val 0 _); eauto.
    - split; [split; [intros _; now apply Hb | reflexivity]|].
      intros K. exfalso. apply K. now apply Hb. }
  unfold Num.float_of. destruct (Num.split_dot s) as [ip fo] eqn:E.
  cbn [fst snd] in Hcond. apply Hcond. clear Hcond.
  unfold no_number. destruct fo as [fp|]; cbn [default from_option id].
  - destruct Hs as (I1 & I2 & I3 & I4).
    destruct (class_digits_iff fp I2) as [C1 C2].
    rewrite I1, I3, I4, C1. cbn [andb].
    destruct (dots fp) as [|n] eqn:Ed.
    + cbn [Nat.eqb andb] in *. rewrite (C2 C1).
      destruct ip as [|a ip].
      * rewrite append_nil. destruct fp as [|b fp]; cbn [Str.truthy orb].
        -- split; [intros _; now right | reflexivity].
        -- split; [discriminate | intros [K|K]; [lia | discriminate K]].
      * rewrite append_cons. cbn [Str.truthy orb].
        split; [discriminate | intros [K|K]; [lia | discriminate K]].
    + cbn [Nat.eqb andb]. split; [intros _; left; lia | reflexivity].
  - destruct Hs as [-> Hd].
    destruct (class_digits_iff s H) as [C1 C2]. rewrite Hd in C1.
    rewrite Hd, (C2 Hd). cbn [Str.all andb Str.truthy orb].
    rewrite orb_false_r. symmetry in C1. apply Nat.eqb_eq in C1. rewrite C1.
    destruct s as [|a s]; cbn [Str.truthy].
    + split; [intros _; now right | reflexivity].
    + split; [discriminate | intros [K|K]; [lia | discriminate K]].
Qed.

(** The groups of a matched degree-minute-second text, and the degree
    sign in the text. *)
Lemma dms_match (s : string) (m : matched) :
  Re.rmatch _DMS s = Some m ->
  exists t1 t2 t3 t4,
    m_caps m = [(4, t4); (3, t3); (2, t2); (1, t1)]%nat
    /\ Str.truthy t1 = true /\ Str.all is_digit t1 = true
    /\ Str.truthy t2 = true /\ Str.all is_digit t2 = true
    /\ Str.all (fun c => is_digit c || eqc c ".") t3 = true
    /\ Str.any (eqc degree) s = true.
Proof.
  intros H. apply rmatch_bounded in H as (st1 & H & ->). unfold _DMS in H.
  destruct H as (s1 & H1 & s2 & G1 & s3 & G2 & s4 & G3 & s5 & H2
                 & s6 & G4 & s7 & G5 & s8 & H3 & s9 & G6 & H4).
  assert (Hdeg : Str.any (eqc degree) s = true).
  { apply semb_sem, sem_passes in H1 as (p1 & P1).
    apply semb_sem, sem_passes in G1 as (p2 & P2).
    apply semb_chr in G2 as (c & P3 & Hc & _).
    unfold passes in P1, P2, P3. cbn [rest] in P1.
    rewrite P1, P2, P3, !any_app. cbn [Str.any].
    unfold chr, eqc in Hc. apply Ascii.eqb_eq in Hc. subst c.
    unfold eqc. rewrite Ascii.eqb_refl. cbn. now rewrite !orb_true_r. }
  apply semb_group_class in H1 as (t1 & E1 & B1 & A1).
  apply semb_group_class in H2 as (t2 & E2 & B2 & A2).
  apply semb_group_class in H3 as (t3 & E3 & B3 & A3).
  apply (semb_groupless (star space) eq_refl) in G1, G3, G5, G6.
  apply (semb_groupless (chr degree) eq_refl) in G2.
  apply (semb_groupless (chr "'") eq_refl) in G4.
  apply semb_group in H4 as (d4 & _ & E4); [|reflexivity].
  exists t1, t2, t3, (consumed s9 d4).
  rewrite E4, G6, E3, G5, G4, E2, G3, G2, G1, E1.
  pose proof (within_bound_positive _ _ _ (le_n 1) B1).
  pose proof (within_bound_positive _ _ _ (le_n 1) B2).
  repeat split; assumption.
Qed.

Lemma dms_to_decimal_run (s : string) :
  match Re.rmatch _DMS (Str.strip s) with
  | None => _dms_to_decimal s = Ok None
  | Some m =>
    (no_number (group_text 3 m) -> _dms_to_decimal s = Raise ValueError)
    /\ (~ no_number (group_text 3 m) -> exists x, _dms_to_decimal s = Ok (Some x))
  end.
Proof.
  unfold _dms_to_decimal.
  destruct (Re.rmatch _DMS (Str.strip s)) as [m|] eqn:E; [|reflexivity].
  apply dms_match in E as (t1 & t2 & t3 & t4 & Hc & T1 & A1 & T2 & A2 & A3 & _).
  unfold group_text, group. rewrite Hc.
  cbn [lookup_cap Nat.eqb default from_option id].
  destruct (float_of_digits t1 T1 A1) as [deg ->].
  destruct (float_of_digits t2 T2 A2) as [mins ->].
  cbn [mbind result_bind].
  destruct (float_of_class t3 A3) as [F1 F2]. split.
  - intros K. apply F1 in K. now rewrite K.
  - intros K. destruct (F2 K) as [secs ->]. cbn [mbind result_bind]. eauto.
Qed.

Lemma no_number_dec (s : string) : no_number s \/ ~ no_number s.
Proof.
  unfold no_number. destruct (le_dec 2 (dots s)) as [H|H]; [now left; left|].
  destruct (string_dec (digits_of s) EmptyString) as [E|E]; [now left; right|].
  right. now intros [K|K].
Qed.

Lemma dms_to_decimal_raise_iff (s : string) (e : exn) :
  _dms_to_decimal s = Raise e <->
  e = ValueError
  /\ exists m, Re.rmatch _DMS (Str.strip s) = Some m
       /\ no_number (group_text 3 m).
Proof.
  pose proof (dms_to_decimal_run s) as H.
  destruct (Re.rmatch _DMS (Str.strip s)) as [m|].
  - destruct H as [H1 H2]. split.
    + intros K. destruct (no_number_dec (group_text 3 m)) as [Y|N].
      * rewrite (H1 Y) in K. injection K as <-. eauto.
      * destruct (H2 N) as [x Hx]. rewrite Hx in K. discriminate.
    + intros (-> & m' & [= <-] & Hn). auto.
  - rewrite H. split; [discriminate|]. now intros (_ & m & Hm & _).
Qed.

(** X3: [_dms_to_decimal] raises nothing but [ValueError], and raises it
    exactly when the text matches the degree-minute-second pattern with
    a seconds field that has two full stops or more, or no digit. *)
Theorem dms_to_decimal_raises (s : string) (e : exn) :
  _dms_to_decimal s = Raise e <->
  e = ValueError
  /\ exists m, Re.rmatch _DMS (Str.strip s) = Some m
       /\ no_number (group_text 3 m).
Proof. apply dms_to_decimal_raise_iff. Qed.

Lemma dms_to_decimal_raises_witness :
  _dms_to_decimal dms_bad_seconds = Raise ValueError.
Proof.
  apply dms_to_decimal_raises. split; [reflexivity|].
  assert (E : exists m, Re.rmatch _DMS (Str.strip dms_bad_seconds) = Some m
                /\ dots (group_text 3 m) = 2%nat)
    by (vm_compute; eexists; split; reflexivity).
  destruct E as (m & E & Hd). exists m. split; [exact E|].
  left. rewrite Hd. apply le_n.
Defined.

Lemma to_coord_raises (o : option string) (e : exn) :
  _to_coord o = Raise e <->
  e = ValueError
  /\ exists s m, o = Some s /\ Re.rmatch _DMS (Str.strip s) = Some m
       /\ no_number (group_text 3 m).
Proof.
  unfold _to_coord. destruct o as [s|].
  2:{ split; [discriminate|]. now intros (_ & s & m & H & _). }
  split.
  - destruct (negb (Str.truthy s)); [discriminate|].
    destruct (Str.any (eqc degree) s).
    + intros H. apply dms_to_decimal_raise_iff in H as (-> & m & Hm & Hn). eauto 6.
    + destruct (Num.float_of s); discriminate.
  - intros (-> & s' & m & [= <-] & Hm & Hn).
    pose proof (dms_match _ _ Hm) as (t1 & t2 & t3 & t4 & _ & _ & _ & _ & _ & _ & Hd).
    destruct (strip_infix s) as (a & b & Hs & _).
    assert (Hdeg : Str.any (eqc degree) s = true).
    { rewrite Hs, !any_app, Hd. now rewrite orb_true_r. }
    rewrite Hdeg. destruct s as [|c s]; [discriminate Hdeg|]. cbn [Str.truthy negb].
    apply dms_to_decimal_raise_iff. eauto.
Qed.

(** X11: [extract_well_row] raises nothing but [ValueError], and raises it
    exactly when it reaches a well-number candidate with more digits than
    [int] converts (the candidates before it not accepted), or the
    latitude or the longitude text it found is in degree-minute-second
    form with a seconds field that has two full stops or more, or no
    digit; for every other document it returns a record. *)
Theorem extract_well_row_raises (data : doc) (e : exn) :
  extract_well_row data = Raise e <->
  e = ValueError
  /\ (reaches_over_limit
        (well_number_candidates (collect_page_data (doc_pages data)).1
                                (collect_page_data (doc_pages data)).2)
      \/ exists s m,
           ((coordinate_texts data).1 = Some s
            \/ (coordinate_texts data).2 = Some s)
           /\ Re.rmatch _DMS (Str.strip s) = Some m
           /\ no_number (group_text 3 m)).
Proof.
  unfold extract_well_row, coordinate_texts.
  destruct (collect_page_data (doc_pages data)) as [mf texts].
  rewrite resolve_well_number_run. cbn [fst snd].
  pose proof (first_valid_raises (well_number_candidates mf texts)) as Hwn.
  destruct (first_valid (well_number_candidates mf texts)) as [o|e0];
    cbn [mbind result_bind].
  2:{ destruct (proj1 (Hwn e0) eq_refl) as (-> & Hr). split.
      - intros [= <-]. auto.
      - now intros (-> & _). }
  assert (Hno : ~ reaches_over_limit (well_number_candidates mf texts)).
  { intros Hr. assert (K : Ok o = Raise ValueError) by (apply Hwn; auto).
    discriminate K. }
  set (lat_s := _search _LAT_PATS _). set (lon_s := _search _LON_PATS _).
  pose proof (to_coord_raises lat_s) as Hlat.
  pose proof (to_coord_raises lon_s) as Hlon.
  destruct (_to_coord lat_s) as [lat|e1].
  - destruct (_to_coord lon_s) as [lon|e2].
    + split; [discriminate|].
      intros (-> & [Hr|(s & m & [Hs|Hs] & Hm & Hn)]); [now destruct Hno| |].
      * assert (K : Ok lat = Raise ValueError) by (apply Hlat; eauto 6).
        discriminate K.
      * assert (K : Ok lon = Raise ValueError) by (apply Hlon; eauto 6).
        discriminate K.
    + split.
      * intros [= <-].
        destruct (proj1 (Hlon e2) eq_refl) as (-> & s & m & Hs & Hm & Hn).
        split; [reflexivity|]. right. eauto 8.
      * intros (-> & _). destruct (proj1 (Hlon e2) eq_refl) as (-> & _).
        reflexivity.
  - split.
    + intros [= <-].
      destruct (proj1 (Hlat e1) eq_refl) as (-> & s & m & Hs & Hm & Hn).
      split; [reflexivity|]. right. eauto 8.
    + intros (-> & _). destruct (proj1 (Hlat e1) eq_refl) as (-> & _).
      reflexivity.
Qed.

Lemma extract_well_row_raises_witness :
  extract_well_row doc_bad_seconds = Raise ValueError
  /\ extract_well_row doc_long_number = Raise ValueError.
Proof.
  split; apply extract_well_row_raises; (split; [reflexivity|]).
  - right.
    assert (Hs : (coordinate_texts doc_bad_seconds).2 = Some bad_seconds_text)
      by (vm_compute; reflexivity).
    assert (E : exists m, Re.rmatch _DMS (Str.strip bad_seconds_text) = Some m
                  /\ dots (group_text 3 m) = 2%nat)
      by (vm_compute; eexists; split; reflexivity).
    destruct E as (m & Hm & Hd). exists bad_seconds_text, m.
    split; [now right|]. split; [exact Hm|]. left. rewrite Hd. apply le_n.
  - left. exists [], (Some (ones 4301)), [None; None; None].
    split; [vm_compute; reflexivity|]. split; [constructor|].
    exists (ones 4301). split; [reflexivity|].
    apply Nat.ltb_lt. vm_compute. reflexivity.
Defined.

(** ** The shape of what is found and cleaned *)

(** X2: what [_search] returns is never empty, has no whitespace at
    either end, and has single spaces for all the whitespace inside. *)
Theorem search_normal_form (patterns : list regex) (texts : list string)
    (v : string) :
  _search patterns texts = Some v ->
  v <> EmptyString /\ trimmed v /\ single_spaced v.
Proof.
  intros H. apply search_normal in H as (H1 & H2 & H3).
  split; [|now split]. intros ->. discriminate H1.
Qed.

Lemma search_normal_form_witness :
  _search _OP_PATS ["Well Operator:  Acme" ++ String "009" " Oil   Co  "]
  = Some "Acme Oil Co"
  /\ trimmed "Acme Oil Co" /\ single_spaced "Acme Oil Co".
Proof.
  assert (H : _search _OP_PATS ["Well Operator:  Acme" ++ String "009" " Oil   Co  "]
              = Some "Acme Oil Co") by (vm_compute; reflexivity).
  exact (conj H (proj2 (search_normal_form _ _ _ H))).
Defined.

(** X13: the records of a page carry what the row grammar matched: a date
    text [D/M/YYYY], a formation of letters and spaces, both depths, a
    stage count that is not negative, and units of letters; a treatment
    type or details that are present are not empty. *)
Theorem parsed_records_shaped (page_text : string) (recs : list stim) :
  parse_stimulation page_text = Ok recs -> Forall record_shaped recs.
Proof. intros H. now apply parse_stimulation_shaped in H as [H _]. Qed.

Lemma parsed_records_shaped_witness : record_shaped section8_record.
Proof.
  pose proof (parsed_records_shaped section8_page [section8_record] section8_parsed) as H.
  exact (proj1 (Forall_cons_1 _ _ _ H)).
Defined.

(** X14: the parser makes at most one record for each header line of the
    page, and so none for a page without a header line. *)
Theorem parsed_records_bounded (page_text : string) (recs : list stim) :
  parse_stimulation page_text = Ok recs ->
  (List.length recs <= headers (Py.splitlines page_text))%nat.
Proof. intros H. now apply parse_stimulation_shaped in H as [_ H]. Qed.

Lemma parsed_records_bounded_witness :
  (List.length [section8_record] <= headers (Py.splitlines section8_page))%nat.
Proof. exact (parsed_records_bounded section8_page [section8_record] section8_parsed). Defined.

(** ** The operator, the county and the well name *)

Lemma operator_of_field_shape (val v : string) :
  operator_of_field val = Some v ->
  (5 <= String.length v)%nat /\ not_operator v = false.
Proof.
  unfold operator_of_field. destruct (negb (Str.truthy val)); [discriminate|].
  destruct (junk_start val); [discriminate|]. cbv zeta.
  set (cleaned := repair_case _).
  destruct (Str.truthy cleaned && negb (Str.endswith ":" cleaned)
            && (5 <=? String.length cleaned)%nat) eqn:E; [|discriminate].
  destruct (not_operator cleaned) eqn:N; [discriminate|]. intros [= <-].
  apply andb_prop in E as [_ E]. apply Nat.leb_le in E. auto.
Qed.

Lemma operator_of_pages_shape (pages : list page) (v : string) :
  operator_of_pages pages = Some v ->
  (5 <= String.length v)%nat /\ not_operator v = false.
Proof.
  induction pages as [|p pages IH]; cbn [operator_of_pages]; [discriminate|].
  destruct (operator_of_field (default EmptyString (page_fields p !! "Well Operator")))
    as [a|] eqn:E1.
  { intros [= <-]. eapply operator_of_field_shape, E1. }
  destruct (operator_of_field (default EmptyString (page_fields p !! "Operator")))
    as [b|] eqn:E2; [|exact IH].
  intros [= <-]. eapply operator_of_field_shape, E2.
Qed.

(** X8: an operator that [_first_valid_operator] returns has five
    characters at least and is none of the bare words Well, Lease, Field,
    County, State, None. *)
Theorem first_valid_operator_shape (pages : list page) (all_texts : list string)
    (v : string) :
  _first_valid_operator pages all_texts = Some v ->
  (5 <= String.length v)%nat /\ not_operator v = false.
Proof.
  unfold _first_valid_operator.
  destruct (operator_of_pages pages) as [a|] eqn:E.
  { intros [= <-]. eapply operator_of_pages_shape, E. }
  destruct (_search _OP_PATS all_texts) as [val|]; [|discriminate].
  destruct (_ && _ && _); [|discriminate]. cbv zeta.
  destruct ((5 <=? String.length (repair_case val))%nat
            && negb (not_operator (repair_case val))) eqn:C; [|discriminate].
  intros [= <-]. apply andb_prop in C as [C1 C2].
  apply Nat.leb_le in C1. apply negb_true_iff in C2. auto.
Qed.

Lemma first_valid_operator_shape_witness :
  _first_valid_operator [Page "Operator: Well" (<["Operator" := "aCME oil   Rig: 7"]> ∅)] []
  = Some "ACME oil"
  /\ (5 <= String.length "ACME oil")%nat.
Proof.
  assert (H : _first_valid_operator
                [Page "Operator: Well" (<["Operator" := "aCME oil   Rig: 7"]> ∅)] []
              = Some "ACME oil") by (vm_compute; reflexivity).
  exact (conj H (proj1 (first_valid_operator_shape _ _ _ H))).
Defined.

Lemma last_cons (c : ascii) (s : string) :
  s <> EmptyString -> Str.last (String c s) = Str.last s.
Proof. destruct s; [congruence | reflexivity]. Qed.

Lemma append_nonempty_r (a b : string) : b <> EmptyString -> a ++ b <> EmptyString.
Proof.
  destruct a; [now rewrite append_nil|]. rewrite append_cons. discriminate.
Qed.

Lemma last_append_one (t : string) (c : ascii) :
  Str.last (t ++ String c "") = Some c.
Proof.
  induction t as [|d t IH]; [reflexivity|]. rewrite append_cons.
  rewrite last_cons; [exact IH|]. apply append_nonempty_r. discriminate.
Qed.

Lemma last_append (a b : string) :
  Str.last (a ++ b) = match Str.last b with Some d => Some d | None => Str.last a end.
Proof.
  destruct b as [|e b].
  { now rewrite append_empty_r. }
  assert (Hb : exists d, Str.last (String e b) = Some d).
  { destruct (Str.last (String e b)) as [d|] eqn:E; [eauto|].
    revert E. clear. revert e. induction b as [|f b IH]; intros e; [discriminate|].
    rewrite last_cons by discriminate. apply IH. }
  destruct Hb as [d Hd]. rewrite Hd.
  induction a as [|c a IH]; [now rewrite append_nil|].
  rewrite append_cons, last_cons; [exact IH|].
  apply append_nonempty_r. discriminate.
Qed.

Lemma last_none (s : string) : Str.last s = None -> s = EmptyString.
Proof.
  induction s as [|c s IH]; [reflexivity|]. cbn [Str.last].
  destruct s; [discriminate|]. intros H. apply IH in H. discriminate H.
Qed.

Lemma last_rev (c : ascii) (s : string) : Str.last (Str.rev (String c s)) = Some c.
Proof.
  unfold Str.rev. cbn [Str.rev_onto]. rewrite rev_onto_append.
  apply last_append_one.
Qed.

(** The last character of a stripped text is no whitespace. *)
Lemma strip_last (s : string) :
  match Str.last (Str.strip s) with
  | Some c => is_space c = false
  | None => True
  end.
Proof.
  unfold Str.strip, Str.rstrip.
  pose proof (lstrip_head (Str.rev (Str.lstrip s))) as H.
  destruct (Str.lstrip (Str.rev (Str.lstrip s))) as [|c u]; [exact I|].
  now rewrite last_rev.
Qed.

Lemma title_piece_check (b : bool) (c : ascii) :
  match Str.last (if b then String (Py.lower_char c) EmptyString
                  else Py.title_char c) with
  | Some d => Bool.eqb (is_space d) (is_space c)
  | None => false
  end = true.
Proof.
  destruct b; destruct c as [[] [] [] [] [] [] [] []]; vm_compute; reflexivity.
Qed.

Lemma title_piece_last (b : bool) (c : ascii) :
  exists d, Str.last (if b then String (Py.lower_char c) EmptyString
                      else Py.title_char c) = Some d
    /\ is_space d = is_space c.
Proof.
  pose proof (title_piece_check b c) as H.
  destruct (Str.last _) as [d|]; [|discriminate H].
  exists d. split; [reflexivity|]. now apply Bool.eqb_prop.
Qed.

Lemma title_from_last (s : string) : forall b,
  match Str.last s with
  | Some c => exists d, Str.last (Py.title_from b s) = Some d
                /\ is_space d = is_space c
  | None => True
  end.
Proof.
  induction s as [|c s IH]; intros b; [exact I|].
  cbn [Py.title_from]. rewrite last_append.
  specialize (IH (Py.is_cased c)). cbn [Str.last].
  destruct s as [|c' s'].
  - cbn [Py.title_from Str.last]. apply title_piece_last.
  - destruct (Str.last (String c' s')) as [e|] eqn:E.
    + destruct IH as (d & -> & Hd). eauto.
    + apply last_none in E. discriminate E.
Qed.

Lemma clean_county_shape (county : option string) (v : string) :
  clean_county county = Some v -> v <> EmptyString ->
  Str.all letter_or_space v = true /\ (2 <= String.length v <= 30)%nat.
Proof.
  unfold clean_county. destruct (is_truthy county) eqn:T.
  2:{ intros -> Hv. cbn [is_truthy] in T. destruct v; [congruence | discriminate T]. }
  cbv zeta. set (x := Str.strip _).
  destruct (Re.rmatch _COUNTY_SHAPE (Py.title x)) as [m|] eqn:E; [|discriminate].
  intros [= <-] _. apply rmatch_bounded in E as (st1 & H & _).
  unfold _COUNTY_SHAPE in H. destruct H as (s0 & [-> _] & s1 & Hr & [-> He]).
  apply semb_rep_class in Hr as (t & Pt & [Lt Ut] & At & _).
  unfold passes in Pt. cbn [rest] in Pt.
  assert (Hrest : rest s1 = EmptyString).
  { unfold at_eol in He. destruct (rest s1) as [|a [|a' r]] eqn:R; [reflexivity| |].
    - exfalso. apply Ascii.eqb_eq in He. subst a.
      pose proof (title_from_last x false) as K. fold (Py.title x) in K.
      pose proof (strip_last
        (sub _WS " " (split_head _COUNTY_STOP (default EmptyString county)))) as L.
      fold x in L. destruct (Str.last x) as [e|] eqn:Lx.
      + destruct K as (d & Kd & Ks). rewrite Pt, last_append_one in Kd.
        injection Kd as <-. rewrite L in Ks. discriminate Ks.
      + apply last_none in Lx. rewrite Lx in Pt. destruct t; discriminate Pt.
    - discriminate He. }
  rewrite Hrest, append_empty_r in Pt. rewrite Pt. cbn in Ut. auto.
Qed.

(** X9: the county of an extracted record, when there is one, consists of
    letters and spaces only and has 2 to 30 characters. *)
Theorem record_county_shape (data : doc) (rec : well) (v : string) :
  extract_well_row data = Ok rec -> county rec = Some v ->
  Str.all letter_or_space v = true /\ (2 <= String.length v <= 30)%nat.
Proof.
  intros H Hv.
  destruct (extract_well_row_fields data rec H) as (_ & _ & _ & _ & Hc & _).
  rewrite Hc in Hv. apply (clean_county_shape _ _ Hv).
  intros ->. revert Hv. apply county_no_empty, por_no_empty, search_no_empty.
Qed.

Lemma record_county_shape_witness :
  exists rec, extract_well_row doc_county = Ok rec
    /\ county rec = Some "Mc Kenzie"
    /\ Str.all letter_or_space "Mc Kenzie" = true.
Proof.
  assert (E : exists rec, extract_well_row doc_county = Ok rec
                /\ county rec = Some "Mc Kenzie")
    by (vm_compute; eexists; split; reflexivity).
  destruct E as (rec & E & Hc). exists rec.
  exact (conj E (conj Hc (proj1 (record_county_shape doc_county rec _ E Hc)))).
Defined.

(** X10: a cleaned well name has no whitespace at either end and does not
    end with a colon. *)
Theorem clean_well_name_shape (well_name : string) :
  trimmed (clean_well_name well_name)
  /\ Str.endswith ":" (clean_well_name well_name) = false.
Proof.
  unfold clean_well_name. cbv zeta. set (w := Str.strip (sub _NAME_TRAILER _ _)).
  destruct (Str.endswith ":" w) eqn:E; cbn [orb]; [now split|].
  destruct (Re.rmatch _JUNK_NAME w); [now split|].
  split; [apply strip_trimmed | exact E].
Qed.

(** ** _to_float on the numbers of the row grammars *)

Lemma remove_comma_digits (s : string) :
  Str.all digit_or_comma_c s = true -> Str.remove "," s = digits_of s.
Proof.
  unfold Str.remove, digits_of. induction s as [|c s IH]; [reflexivity|].
  cbn [Str.all Str.filter]. intros H. apply andb_prop in H as [Hc H].
  rewrite (IH H). unfold digit_or_comma_c in Hc.
  assert (Hsym : eqc "," c = eqc c ",") by apply Ascii.eqb_sym.
  rewrite Hsym. destruct (is_digit c) eqn:D.
  - destruct (eqc c ",") eqn:E; [|reflexivity].
    apply Ascii.eqb_eq in E. subst c. discriminate D.
  - cbn [orb] in Hc. now rewrite Hc.
Qed.

Lemma float_of_integer (t : string) :
  Str.truthy t = true -> Str.all is_digit t = true ->
  Num.float_of t = Ok (integer_float (Num.digits_val 0 t)).
Proof.
  intros Ht Hd. unfold Num.float_of.
  rewrite (split_dot_digits t Hd). cbn [default from_option id].
  rewrite Hd, Ht, append_empty_r. cbn [Str.all andb orb].
  unfold integer_float. now destruct (Num.digits_val 0 t).
Qed.

(** X12: on a text of digits and commas [_to_float] reads the digits as
    one number, wherever the commas stand: the result is the binary64
    number nearest to the natural number that the digits spell, and it is
    [None] exactly when the text has no digit. *)
Theorem to_float_commas (s : string) :
  Str.all digit_or_comma_c s = true ->
  (digits_of s <> EmptyString ->
   _to_float (Some s)
   = Some (integer_float (Num.digits_val 0 (digits_of s))))
  /\ (_to_float (Some s) = None <-> digits_of s = EmptyString)
  /\ _to_float (Some s) = _to_float (Some (digits_of s)).
Proof.
  intros H. pose proof (all_filter is_digit s) as Hd. fold (digits_of s) in Hd.
  assert (Hdd : Str.remove "," (digits_of s) = digits_of s).
  { rewrite remove_comma_digits.
    - unfold digits_of. rewrite filter_all; [reflexivity | apply all_filter].
    - eapply all_impl; [|exact Hd]. intros c Hc. unfold digit_or_comma_c.
      now rewrite Hc. }
  unfold _to_float. rewrite Hdd, (remove_comma_digits s H).
  destruct (digits_of s) as [|d ds] eqn:E.
  - destruct s; cbn; repeat split; try tauto; congruence.
  - assert (Hs : Str.truthy s = true) by (destruct s; [discriminate E | reflexivity]).
    rewrite Hs. cbn [Str.truthy negb].
    rewrite (float_of_integer (String d ds) eq_refl Hd).
    split; [reflexivity|]. split; [split; discriminate | reflexivity].
Qed.

Lemma to_float_commas_witness :
  _to_float (Some "1,234,5") = Some (Num.of_Z 12345)
  /\ _to_float (Some ",,") = None.
Proof.
  assert (H1 : Str.all digit_or_comma_c "1,234,5" = true) by reflexivity.
  assert (H2 : Str.all digit_or_comma_c ",," = true) by reflexivity.
  assert (D : digits_of "1,234,5" <> EmptyString) by discriminate.
  assert (V : integer_float (Num.digits_val 0 (digits_of "1,234,5"))
              = Num.of_Z 12345) by (vm_compute; reflexivity).
  split.
  - rewrite <- V. exact (proj1 (to_float_commas "1,234,5" H1) D).
  - apply (proj1 (proj2 (to_float_commas ",," H2))). reflexivity.
Defined.
